(** * A Raydium V4 swap client: decoder, quote engine, address derivation
      and instruction compiler

    Shallow embedding of [main.go], [main_working.go] and [raydium_swap.go].
    Unsigned 64-bit integers are [Z] with their range written out, bytes are
    [Init.Byte.byte], account blobs are [list byte], [float64] is Rocq's
    primitive binary64 [float].  The Solana library and the RPC client are
    collaborators of the program: they appear as the records [Library] and
    [Client], and every definition that calls them takes them as arguments.
    The theorems hold for every library and client; [SolanaGo] models the
    library functions concretely, to run the program on its own constants. *)

From Stdlib Require Import ZArith List Lia String Ascii Bool.
From Stdlib Require Import Floats.PrimFloat Floats.FloatOps Floats.SpecFloat.
From Stdlib Require Import Numbers.Cyclic.Int63.Uint63.
From Stdlib Require Strings.Byte.
From coqutil Require Import Byte Word.LittleEndianList Datatypes.RecordSetters.
From Bignums Require Import BigZ.
Import ListNotations.
Import TriangleBracketNotations.
Local Open Scope Z_scope.

(* ===================================================================== *)
(** ** Machine integers and bytes *)
(* ===================================================================== *)

Definition is_uint64 (z : Z) : Prop := 0 <= z < 2 ^ 64.

(** Go's slice expression [data[lo:hi]] (for [lo <= hi <= len data]). *)
Definition slice (data : list byte) (lo hi : nat) : list byte :=
  firstn (hi - lo) (skipn lo data).

(** Go's index expression [data[i]]; [None] is the run-time panic. *)
Definition index (data : list byte) (i : nat) : option byte := nth_error data i.

(** [binary.LittleEndian.PutUint64(b, v)]:
    [b[0] = byte(v); b[1] = byte(v >> 8); ...; b[7] = byte(v >> 56)]. *)
Definition PutUint64 (v : Z) : list byte :=
  [ byte.of_Z v;
    byte.of_Z (Z.shiftr v 8);
    byte.of_Z (Z.shiftr v 16);
    byte.of_Z (Z.shiftr v 24);
    byte.of_Z (Z.shiftr v 32);
    byte.of_Z (Z.shiftr v 40);
    byte.of_Z (Z.shiftr v 48);
    byte.of_Z (Z.shiftr v 56) ].

(** [binary.LittleEndian.Uint64(b)]:
    [b[0] | b[1]<<8 | ... | b[7]<<56]; [None] when [b] has fewer than 8
    bytes (the bounds check panics). *)
Definition Uint64 (b : list byte) : option Z :=
  match b with
  | b0 :: b1 :: b2 :: b3 :: b4 :: b5 :: b6 :: b7 :: _ =>
      Some (Z.lor (byte.unsigned b0)
           (Z.lor (Z.shiftl (byte.unsigned b1) 8)
           (Z.lor (Z.shiftl (byte.unsigned b2) 16)
           (Z.lor (Z.shiftl (byte.unsigned b3) 24)
           (Z.lor (Z.shiftl (byte.unsigned b4) 32)
           (Z.lor (Z.shiftl (byte.unsigned b5) 40)
           (Z.lor (Z.shiftl (byte.unsigned b6) 48)
                  (Z.shiftl (byte.unsigned b7) 56))))))))
  | _ => None
  end.

(* ===================================================================== *)
(** ** Public keys *)
(* ===================================================================== *)

(** [solana.PublicKey] is a 32-byte array; the decoder fills it from 32-byte
    slices of the account blob. *)
Definition PublicKey := list byte.

(** [solana.PublicKeyFromBytes]: copies at most 32 of the bytes it is given
    into a zeroed 32-byte array. *)
Definition PublicKeyFromBytes (b : list byte) : PublicKey :=
  firstn 32 (b ++ repeat Byte.x00 32).

(** [PublicKey.Equals]. *)
Definition Equals (a b : PublicKey) : bool :=
  if list_eq_dec Byte.byte_eq_dec a b then true else false.

(** [PublicKey.IsZero]: every byte is zero. *)
Definition IsZero (k : PublicKey) : bool :=
  forallb (fun b => Byte.eqb b Byte.x00) k.

(* ===================================================================== *)
(** ** Errors *)
(* ===================================================================== *)

(** The error values the program builds with [fmt.Errorf], one constructor
    per message; [Panic] is a Go run-time panic or [log.Fatal]. *)
Inductive error : Type :=
| InvalidPoolDataSize (len : nat)      (* "invalid pool data size: %d" *)
| DeriveAuthorityFailed                (* "failed to derive authority PDA" *)
| VaultSignerFailed                    (* "failed to find market vault signer PDA" *)
| InvalidSlippageValue                 (* "invalid slippage value" *)
| SlippageOutOfRange                   (* "slippage must be between 0 and 100" *)
| InvalidPoolAddress                   (* "invalid pool address" *)
| InvalidTokenAddress                  (* "invalid token address" *)
| InvalidMintAddress                   (* "invalid mint address" *)
| InvalidMintDataSize                  (* "invalid mint data size" *)
| GetAccountFailed                     (* "failed to get ... account" *)
| GetProgramAccountsFailed             (* "failed to get program accounts" *)
| GetVaultBalanceFailed                (* "failed to get ... vault balance" *)
| ParseAmountFailed                    (* "failed to parse ... amount" *)
| FindATAFailed                        (* "failed to find ATA" *)
| NoPoolsFound                         (* "no pools found for token ..." *)
| UsageError                           (* log.Fatal on the command line *)
| Panic.                               (* nil dereference, division by zero *)

Inductive result (A : Type) : Type :=
| Ok (a : A)
| Err (e : error).
Arguments Ok {A} a.
Arguments Err {A} e.

Definition is_ok {A} (r : result A) : bool :=
  match r with Ok _ => true | Err _ => false end.

(* ===================================================================== *)
(** ** The collaborators *)
(* ===================================================================== *)

(** What the program takes from the [solana-go], [strconv] and [math]
    packages.  Nothing is assumed about these functions beyond their types. *)
Record Library : Type := {
  (** [solana.CreateProgramAddress(seeds, programID)]: the candidate address,
      or an error when the candidate lies on the curve. *)
  CreateProgramAddress : list (list byte) -> PublicKey -> option PublicKey;
  (** [solana.FindProgramAddress(seeds, programID)]: address and bump seed. *)
  FindProgramAddress : list (list byte) -> PublicKey -> option (PublicKey * byte);
  (** [solana.FindAssociatedTokenAddress(wallet, mint)]. *)
  FindAssociatedTokenAddress : PublicKey -> PublicKey -> option PublicKey;
  (** [solana.PublicKeyFromBase58] and [PublicKey.String]. *)
  PublicKeyFromBase58 : string -> option PublicKey;
  PublicKeyString : PublicKey -> string;
  (** [strconv.ParseFloat(s, 64)]; [None] is a non-nil error. *)
  ParseFloat : string -> option float;
  (** [strings.TrimFunc(s, unicode.IsSpace)], the rune-decoding path of
      [strings.TrimSpace]. *)
  TrimFuncIsSpace : string -> string;
  (** [math.Pow]. *)
  Pow : float -> float -> float;
  (** The result of [uint64(f)] when [f] truncates to a value that a uint64
      cannot hold (implementation-dependent in Go). *)
  uint64_out_of_range : float -> Z;
  (** The program's address constants. *)
  RAYDIUM_AMM_V4 : PublicKey;
  OPENBOOK_PROGRAM : PublicKey;
  SOL_MINT : PublicKey;
  WSOL_MINT : PublicKey;
  TokenProgramID : PublicKey;
  SystemProgramID : PublicKey
}.

(** The ledger client.  [GetAccountInfo] gives the account's data, [None]
    for an error or an account that does not exist. *)
Record Client : Type := {
  GetAccountInfo : PublicKey -> option (list byte);
  GetTokenAccountBalance : PublicKey -> option string;
  GetProgramAccounts : PublicKey -> nat -> option (list (PublicKey * list byte))
}.

(** The requests a run sends to the ledger client, in order. *)
Inductive RpcCall : Type :=
| CallGetAccountInfo (k : PublicKey)
| CallGetTokenAccountBalance (k : PublicKey)
| CallGetProgramAccounts (program : PublicKey) (dataSize : nat).

(** A computation that talks to the client: the requests it made and its
    outcome. *)
Definition Rpc (A : Type) : Type := (list RpcCall * result A)%type.

Definition ret {A} (a : A) : Rpc A := ([], Ok a).
Definition fail {A} (e : error) : Rpc A := ([], Err e).
Definition bind {A B} (m : Rpc A) (f : A -> Rpc B) : Rpc B :=
  match m with
  | (log, Ok a) => let '(log', r) := f a in (log ++ log', r)
  | (log, Err e) => (log, Err e)
  end.
Definition lift {A} (r : result A) : Rpc A := ([], r).
Definition calls {A} (m : Rpc A) : list RpcCall := fst m.
Definition outcome {A} (m : Rpc A) : result A := snd m.

Notation "x <- m ;; k" := (bind m (fun x => k))
  (at level 61, m at next level, right associativity).

(** [client.GetAccountInfo] as used with [if err != nil { return ... }]. *)
Definition rpcGetAccountInfo (C : Client) (k : PublicKey) (e : error)
  : Rpc (list byte) :=
  ([CallGetAccountInfo k],
   match GetAccountInfo C k with Some d => Ok d | None => Err e end).

Definition rpcGetProgramAccounts (C : Client) (p : PublicKey) (size : nat)
  (e : error) : Rpc (list (PublicKey * list byte)) :=
  ([CallGetProgramAccounts p size],
   match GetProgramAccounts C p size with Some l => Ok l | None => Err e end).

(* ===================================================================== *)
(** ** QuoteEngine *)
(* ===================================================================== *)

(** [big.Int.Uint64()] on a non-negative value: its low 64 bits. *)
Definition bigUint64 (x : Z) : Z := x mod 2 ^ 64.

(** [calculateSwapAmount(reserveOut, reserveIn, amountIn)], on [big.Int].
    [big.Int.Div] panics on a zero divisor: [None]. *)
Definition calculateSwapAmount (reserveOut reserveIn amountIn : Z) : option Z :=
  let numerator := reserveOut * amountIn in
  let denominator := reserveIn + amountIn in
  if denominator =? 0 then None
  else Some (bigUint64 (numerator / denominator)).

(** The value of a finite float truncated toward zero. *)
Definition float_trunc (f : float) : option Z :=
  match Prim2SF f with
  | S754_zero _ => Some 0
  | S754_finite s m e =>
      let v := if 0 <=? e then Z.pos m * 2 ^ e else Z.pos m / 2 ^ (- e) in
      Some (if s then - v else v)
  | _ => None
  end.

(** Go's conversion [uint64(f)]. *)
Definition uint64_of_float (L : Library) (f : float) : Z :=
  match float_trunc f with
  | Some v => if (0 <=? v) && (v <? 2 ^ 64) then v else uint64_out_of_range L f
  | None => uint64_out_of_range L f
  end.

(** Go's conversion [float64(n)] of an integer below 2^63 in magnitude. *)
Definition float_of_int (n : Z) : float :=
  if 0 <=? n then PrimFloat.of_uint63 (Uint63.of_Z n)
  else PrimFloat.opp (PrimFloat.of_uint63 (Uint63.of_Z (- n))).

Definition SOL_DECIMALS : Z := 9.

(** [uint64(amount * math.Pow(10, float64(inputDecimals)))], the conversion
    of [calculateQuoteOnChain] and [executeSwap] in [main.go]. *)
Definition toRawAmount (L : Library) (amount : float) (inputDecimals : Z) : Z :=
  uint64_of_float L (amount * Pow L 10 (float_of_int inputDecimals))%float.

(** [calculateMinAmountOut]. *)
Definition calculateMinAmountOut (L : Library) (expectedOut slippagePercent : float)
  (outputDecimals : Z) : Z :=
  let minAmount := (expectedOut * (1 - slippagePercent / 100))%float in
  uint64_of_float L (minAmount * Pow L 10 (float_of_int outputDecimals))%float.

(** The amount conversion of [ExecuteRaydiumSwap] in [raydium_swap.go]:
    buy: [uint64(amountIn * 1e9)];
    sell: [uint64(amountIn * float64(pool.QuoteDecimals))]. *)
Definition ExecuteRaydiumSwap_amountInRaw (L : Library) (side : string)
  (amountIn : float) (QuoteDecimals : Z) : Z :=
  if String.eqb side "buy"%string
  then uint64_of_float L (amountIn * 1e9)%float
  else uint64_of_float L (amountIn * float_of_int QuoteDecimals)%float.

(* ===================================================================== *)
(** ** AccountDecoder *)
(* ===================================================================== *)

(** [OnChainPool] of [main.go]. *)
Record OnChainPool : Type := {
  Address : PublicKey;
  BaseMint : PublicKey;
  QuoteMint : PublicKey;
  BaseVault : PublicKey;
  QuoteVault : PublicKey;
  BaseAmount : Z;
  QuoteAmount : Z;
  BaseDecimals : byte;
  QuoteDecimals : byte;
  Authority : PublicKey;
  OpenOrders : PublicKey;
  TargetOrders : PublicKey;
  MarketProgram : PublicKey;
  Market : PublicKey;
  MarketBids : PublicKey;
  MarketAsks : PublicKey;
  MarketEventQueue : PublicKey;
  MarketBaseVault : PublicKey;
  MarketQuoteVault : PublicKey;
  Nonce : byte;
  MarketNonce : byte
}.

Definition zeroKey : PublicKey := repeat Byte.x00 32.

(** [&OnChainPool{Address: address}]: every other field has its zero value. *)
Definition newPool (address : PublicKey) : OnChainPool :=
  {| Address := address;
     BaseMint := zeroKey; QuoteMint := zeroKey;
     BaseVault := zeroKey; QuoteVault := zeroKey;
     BaseAmount := 0; QuoteAmount := 0;
     BaseDecimals := Byte.x00; QuoteDecimals := Byte.x00;
     Authority := zeroKey; OpenOrders := zeroKey; TargetOrders := zeroKey;
     MarketProgram := zeroKey; Market := zeroKey;
     MarketBids := zeroKey; MarketAsks := zeroKey; MarketEventQueue := zeroKey;
     MarketBaseVault := zeroKey; MarketQuoteVault := zeroKey;
     Nonce := Byte.x00; MarketNonce := Byte.x00 |}.

(** [[]byte(AUTHORITY_AMM_SEED)], the bytes of ["amm authority"]. *)
Definition AUTHORITY_AMM_SEED : list byte :=
  list_byte_of_string "amm authority".

(** [parsePoolAccount] of [main.go]. *)
Definition parsePoolAccount (L : Library) (address : PublicKey) (data : list byte)
  : result OnChainPool :=
  if (List.length data <? 752)%nat then Err (InvalidPoolDataSize (List.length data))
  else
    let pool := newPool address in
    let pool := pool <| Nonce := nth 8 data Byte.x00 |> in
    let pool := pool <| BaseVault := PublicKeyFromBytes (slice data 336 368) |> in
    let pool := pool <| QuoteVault := PublicKeyFromBytes (slice data 368 400) |> in
    let pool := pool <| BaseMint := PublicKeyFromBytes (slice data 400 432) |> in
    let pool := pool <| QuoteMint := PublicKeyFromBytes (slice data 432 464) |> in
    let pool := pool <| OpenOrders := PublicKeyFromBytes (slice data 464 496) |> in
    let pool := pool <| TargetOrders := PublicKeyFromBytes (slice data 592 624) |> in
    let pool := pool <| Market := PublicKeyFromBytes (slice data 656 688) |> in
    let pool := pool <| MarketProgram := PublicKeyFromBytes (slice data 688 720) |> in
    let pool := pool <| BaseAmount := 0 |> in
    let pool := pool <| QuoteAmount := 0 |> in
    match FindProgramAddress L [AUTHORITY_AMM_SEED] (RAYDIUM_AMM_V4 L) with
    | None => Err DeriveAuthorityFailed
    | Some (authority, nonce) =>
        (* a nonce that differs from [pool.Nonce] only prints a warning *)
        Ok (pool <| Authority := authority |>)
    end.

(** The value of a decimal digit, [None] for any other character. *)
Definition digit_value (c : ascii) : option Z :=
  let n := Z.of_nat (nat_of_ascii c) in
  if (48 <=? n) && (n <=? 57) then Some (n - 48) else None.

(** The digit loop of [strconv.ParseUint(s, 10, 64)]: a character that is not
    a digit gives [(0, syntax error)], an overflow [(2^64-1, range error)]. *)
Fixpoint ParseUint_loop (s : string) (n : Z) : Z * bool :=
  match s with
  | EmptyString => (n, false)
  | String c rest =>
      match digit_value c with
      | None => (0, true)
      | Some d =>
          if (2 ^ 64 - 1) / 10 + 1 <=? n then (2 ^ 64 - 1, true)
          else if 2 ^ 64 - 1 <? n * 10 + d then (2 ^ 64 - 1, true)
          else ParseUint_loop rest (n * 10 + d)
      end
  end.

(** [strconv.ParseUint(s, 10, 64)]: the value and whether [err != nil]. *)
Definition ParseUint (s : string) : Z * bool :=
  match s with
  | EmptyString => (0, true)
  | _ => ParseUint_loop s 0
  end.

(** [fetchVaultBalances]: the requests made, the pool as the function leaves
    it, and the error it returns.  The assignment
    [pool.BaseAmount, err = strconv.ParseUint(...)] stores the value before
    [err] is looked at. *)
Definition fetchVaultBalances (C : Client) (pool : OnChainPool)
  : list RpcCall * OnChainPool * option error :=
  match GetTokenAccountBalance C (BaseVault pool) with
  | None =>
      ([CallGetTokenAccountBalance (BaseVault pool)], pool, Some GetVaultBalanceFailed)
  | Some baseAmount =>
      let log := [CallGetTokenAccountBalance (BaseVault pool);
                  CallGetTokenAccountBalance (QuoteVault pool)] in
      match GetTokenAccountBalance C (QuoteVault pool) with
      | None => (log, pool, Some GetVaultBalanceFailed)
      | Some quoteAmount =>
          let '(b, berr) := ParseUint baseAmount in
          let pool := pool <| BaseAmount := b |> in
          if berr then (log, pool, Some ParseAmountFailed)
          else
            let '(q, qerr) := ParseUint quoteAmount in
            let pool := pool <| QuoteAmount := q |> in
            if qerr then (log, pool, Some ParseAmountFailed)
            else (log, pool, None)
      end
  end.

(** The fallback market accounts used when there is no usable market. *)
Definition marketFallback (L : Library) (pool : OnChainPool) : OnChainPool :=
  pool <| MarketBaseVault := BaseVault pool |>
       <| MarketQuoteVault := QuoteVault pool |>
       <| MarketBids := SystemProgramID L |>
       <| MarketAsks := SystemProgramID L |>
       <| MarketEventQueue := SystemProgramID L |>.

(** [fetchMarketData]. *)
Definition fetchMarketData (L : Library) (C : Client) (pool : OnChainPool)
  : list RpcCall * OnChainPool * option error :=
  if IsZero (Market pool)
  then ([], (marketFallback L pool) <| MarketNonce := Byte.x00 |>, None)
  else
    let log := [CallGetAccountInfo (Market pool)] in
    match GetAccountInfo C (Market pool) with
    | None => (log, pool, Some GetAccountFailed)
    | Some marketData =>
        if (List.length marketData <? 388)%nat
        then (log, (marketFallback L pool) <| MarketNonce := Byte.x00 |>, None)
        else
          let pool := pool
            <| MarketBaseVault := PublicKeyFromBytes (slice marketData 84 116) |>
            <| MarketQuoteVault := PublicKeyFromBytes (slice marketData 116 148) |>
            <| MarketBids := PublicKeyFromBytes (slice marketData 316 348) |>
            <| MarketAsks := PublicKeyFromBytes (slice marketData 348 380) |>
            <| MarketEventQueue := PublicKeyFromBytes (slice marketData 252 284) |> in
          let pool :=
            if (45 <? List.length marketData)%nat
            then pool <| MarketNonce := nth 45 marketData Byte.x00 |>
            else pool in
          (log, pool, None)
    end.

(** [getTokenDecimals]. *)
Definition getTokenDecimals (L : Library) (C : Client) (mintAddress : string)
  : Rpc byte :=
  if String.eqb mintAddress (PublicKeyString L (WSOL_MINT L))
     || String.eqb mintAddress (PublicKeyString L (SOL_MINT L))
  then ret (byte.of_Z SOL_DECIMALS)
  else
    mintPubkey <- lift (match PublicKeyFromBase58 L mintAddress with
                        | Some k => Ok k
                        | None => Err InvalidMintAddress
                        end) ;;
    mintData <- rpcGetAccountInfo C mintPubkey GetAccountFailed ;;
    if (List.length mintData <? 82)%nat then fail InvalidMintDataSize
    else ret (nth 44 mintData Byte.x00).

(** A pool-mutating step used as [err = f(pool); if err != nil { return }]. *)
Definition orReturn (step : list RpcCall * OnChainPool * option error)
  : Rpc OnChainPool :=
  match step with
  | (log, pool, None) => (log, Ok pool)
  | (log, _, Some e) => (log, Err e)
  end.

(** [pool.BaseMint.Equals(WSOL_MINT) || pool.BaseMint.Equals(SOL_MINT)]. *)
Definition isSol (L : Library) (mint : PublicKey) : bool :=
  Equals mint (WSOL_MINT L) || Equals mint (SOL_MINT L).

(** [main_working.go] keeps an earlier decoder, which takes the reserves
    from the blob and tries three pairs of offsets. *)
Module Working.

Record OnChainPool : Type := {
  Address : PublicKey;
  BaseMint : PublicKey;
  QuoteMint : PublicKey;
  BaseVault : PublicKey;
  QuoteVault : PublicKey;
  BaseAmount : Z;
  QuoteAmount : Z;
  BaseDecimals : byte;
  QuoteDecimals : byte
}.

(** [binary.LittleEndian.Uint64(data[lo:lo+8])], inside the blob. *)
Definition word (data : list byte) (lo : nat) : Z :=
  match Uint64 (slice data lo (lo + 8)) with
  | Some v => v
  | None => 0
  end.

(** [parsePoolAccount] of [main_working.go]. *)
Definition parsePoolAccount (address : PublicKey) (data : list byte)
  : result OnChainPool :=
  if (List.length data <? 752)%nat then Err (InvalidPoolDataSize (List.length data))
  else
    let baseAmount := word data 685 in
    let quoteAmount := word data 693 in
    let '(baseAmount, quoteAmount) :=
      if (10 ^ 18 <? baseAmount) || (10 ^ 18 <? quoteAmount) then
        let baseAmount := word data 85 in
        let quoteAmount := word data 93 in
        if (10 ^ 18 <? baseAmount) || (10 ^ 18 <? quoteAmount)
        then (word data 465, word data 473)
        else (baseAmount, quoteAmount)
      else (baseAmount, quoteAmount) in
    Ok {| Address := address;
          BaseMint := PublicKeyFromBytes (slice data 400 432);
          QuoteMint := PublicKeyFromBytes (slice data 432 464);
          BaseVault := PublicKeyFromBytes (slice data 496 528);
          QuoteVault := PublicKeyFromBytes (slice data 528 560);
          BaseAmount := baseAmount;
          QuoteAmount := quoteAmount;
          BaseDecimals := Byte.x00;
          QuoteDecimals := Byte.x00 |}.

End Working.

(* ===================================================================== *)
(** ** InstructionCompiler *)
(* ===================================================================== *)

(** [solana.AccountMeta]; [Key] is its [PublicKey] field. *)
Record AccountMeta : Type := {
  Key : PublicKey;
  IsSigner : bool;
  IsWritable : bool
}.

(** The instructions the program builds, by the constructor it calls. *)
Inductive Instruction : Type :=
| CreateATAInstruction (payer wallet mint : PublicKey)
    (* associatedtokenaccount.NewCreateInstruction(payer, wallet, mint) *)
| TransferInstruction (lamports : Z) (from to : PublicKey)
    (* system.NewTransferInstruction(lamports, from, to) *)
| SyncNativeInstruction (account : PublicKey)
    (* token.NewSyncNativeInstruction(account) *)
| CloseAccountInstruction (account destination owner : PublicKey)
    (* token.NewCloseAccountInstruction(account, destination, owner, []) *)
| GenericInstruction (programID : PublicKey) (accounts : list AccountMeta)
    (data : list byte).
    (* solana.NewInstruction(programID, accounts, data) *)

Definition RAYDIUM_SWAP_INSTRUCTION : byte := Byte.x09.

(** The instruction data of [createSwapInstruction] ([main.go], the buffer
    [buf]): the opcode byte, then [amountIn] and [minAmountOut], each written
    with [binary.LittleEndian.PutUint64]. *)
Definition swapInstructionData (amountIn minAmountOut : Z) : list byte :=
  [RAYDIUM_SWAP_INSTRUCTION] ++ PutUint64 amountIn ++ PutUint64 minAmountOut.

(** The instruction data of [CreateRaydiumSwapInstruction]
    ([raydium_swap.go]): the Borsh encoding of
    [RaydiumSwapLayout{Instruction: 9, AmountIn, MinAmountOut}].  Borsh writes
    a [uint8] as one byte and a [uint64] as eight little-endian bytes, the
    fields in declaration order. *)
Definition borshSwapLayout (amountIn minAmountOut : Z) : list byte :=
  [byte.of_Z 9] ++ le_split 8 amountIn ++ le_split 8 minAmountOut.

(** Modelled from the spec: the repository only encodes the payload (the
    on-chain program decodes it); this reader follows the layout of the data
    model, "opcode (1 byte), amountIn (8-byte little-endian unsigned),
    minAmountOut (8-byte little-endian unsigned) - exactly 17 bytes". *)
Definition decodeSwapInstructionPayload (payload : list byte)
  : option (byte * Z * Z) :=
  if (List.length payload =? 17)%nat then
    match payload with
    | opcode :: rest =>
        match Uint64 (firstn 8 rest), Uint64 (skipn 8 rest) with
        | Some amountIn, Some minAmountOut => Some (opcode, amountIn, minAmountOut)
        | _, _ => None
        end
    | [] => None
    end
  else None.

(** The loop [for nonce := uint8(0); nonce < 255; nonce++] of
    [createSwapInstruction], run over the nonces it still has to try: the
    first candidate that [CreateProgramAddress] accepts. *)
Fixpoint tryNonces (L : Library) (market program : PublicKey) (nonces : list nat)
  : option PublicKey :=
  match nonces with
  | [] => None
  | nonce :: rest =>
      match CreateProgramAddress L [market; [byte.of_Z (Z.of_nat nonce)]] program with
      | Some candidate => Some candidate
      | None => tryNonces L market program rest
      end
  end.

(** The market vault signer of [createSwapInstruction]. *)
Definition marketVaultSigner (L : Library) (pool : OnChainPool) : result PublicKey :=
  if negb (IsZero (Market pool))
     && String.eqb (PublicKeyString L (MarketProgram pool))
                   (PublicKeyString L (OPENBOOK_PROGRAM L))
  then
    match tryNonces L (Market pool) (MarketProgram pool) (seq 0 255) with
    | Some candidate => Ok candidate
    | None =>
        match FindProgramAddress L [Market pool] (MarketProgram pool) with
        | Some (signer, _) => Ok signer
        | None => Err VaultSignerFailed
        end
    end
  else Ok (SystemProgramID L).

Definition meta (k : PublicKey) (signer writable : bool) : AccountMeta :=
  {| Key := k; IsSigner := signer; IsWritable := writable |}.

(** The account list of [createSwapInstruction]. *)
Definition swapAccounts (L : Library) (pool : OnChainPool)
  (signer userSource userDestination userOwner : PublicKey) : list AccountMeta :=
  [ meta (TokenProgramID L) false false;
    meta (Address pool) false true;
    meta (Authority pool) false false;
    meta (OpenOrders pool) false true;
    meta (TargetOrders pool) false true;
    meta (BaseVault pool) false true;
    meta (QuoteVault pool) false true;
    meta (MarketProgram pool) false false;
    meta (Market pool) false true;
    meta (MarketBids pool) false true;
    meta (MarketAsks pool) false true;
    meta (MarketEventQueue pool) false true;
    meta (MarketBaseVault pool) false true;
    meta (MarketQuoteVault pool) false true;
    meta signer false false;
    meta userSource false true;
    meta userDestination false true;
    meta userOwner true false ].

(** [createSwapInstruction] of [main.go]. *)
Definition createSwapInstruction (L : Library) (pool : OnChainPool)
  (userSource userDestination userOwner : PublicKey)
  (amountIn minAmountOut : Z) (isBaseToQuote : bool) : result Instruction :=
  let buf := swapInstructionData amountIn minAmountOut in
  match marketVaultSigner L pool with
  | Err e => Err e
  | Ok signer =>
      Ok (GenericInstruction (RAYDIUM_AMM_V4 L)
            (swapAccounts L pool signer userSource userDestination userOwner)
            buf)
  end.

(** [raydium_swap.go]: the pool description served by the Raydium API, and
    the instruction built from it. *)
Module Api.

Record RaydiumPoolInfo : Type := {
  ID : string;
  BaseMint : string;
  QuoteMint : string;
  QuoteDecimals : Z;
  ProgramID : string;
  Authority : string;
  OpenOrders : string;
  TargetOrders : string;
  BaseVault : string;
  QuoteVault : string;
  MarketProgramID : string;
  MarketID : string;
  MarketAuthority : string;
  MarketBaseVault : string;
  MarketQuoteVault : string;
  MarketBids : string;
  MarketAsks : string;
  MarketEventQueue : string
}.

(** [solana.MustPublicKeyFromBase58]: panics on a malformed address. *)
Definition MustPublicKeyFromBase58 (L : Library) (s : string) : result PublicKey :=
  match PublicKeyFromBase58 L s with
  | Some k => Ok k
  | None => Err Panic
  end.

Definition andThen {A B} (r : result A) (f : A -> result B) : result B :=
  match r with Ok a => f a | Err e => Err e end.

Notation "x <-- r ;; k" := (andThen r (fun x => k))
  (at level 61, r at next level, right associativity).

(** [CreateRaydiumSwapInstruction]. *)
Definition CreateRaydiumSwapInstruction (L : Library) (pool : RaydiumPoolInfo)
  (userSourceTokenAccount userDestTokenAccount userOwner : PublicKey)
  (amountIn minAmountOut : Z) : result Instruction :=
  let buf := borshSwapLayout amountIn minAmountOut in
  poolPubkey <-- MustPublicKeyFromBase58 L (ID pool) ;;
  authority <-- MustPublicKeyFromBase58 L (Authority pool) ;;
  openOrders <-- MustPublicKeyFromBase58 L (OpenOrders pool) ;;
  targetOrders <-- MustPublicKeyFromBase58 L (TargetOrders pool) ;;
  baseVault <-- MustPublicKeyFromBase58 L (BaseVault pool) ;;
  quoteVault <-- MustPublicKeyFromBase58 L (QuoteVault pool) ;;
  marketProgram <-- MustPublicKeyFromBase58 L (MarketProgramID pool) ;;
  market <-- MustPublicKeyFromBase58 L (MarketID pool) ;;
  marketBids <-- MustPublicKeyFromBase58 L (MarketBids pool) ;;
  marketAsks <-- MustPublicKeyFromBase58 L (MarketAsks pool) ;;
  marketEventQueue <-- MustPublicKeyFromBase58 L (MarketEventQueue pool) ;;
  marketBaseVault <-- MustPublicKeyFromBase58 L (MarketBaseVault pool) ;;
  marketQuoteVault <-- MustPublicKeyFromBase58 L (MarketQuoteVault pool) ;;
  marketAuthority <-- MustPublicKeyFromBase58 L (MarketAuthority pool) ;;
  let accounts :=
    [ meta (TokenProgramID L) false false;
      meta poolPubkey false true;
      meta authority false false;
      meta openOrders false true;
      meta targetOrders false true;
      meta baseVault false true;
      meta quoteVault false true;
      meta marketProgram false false;
      meta market false true;
      meta marketBids false true;
      meta marketAsks false true;
      meta marketEventQueue false true;
      meta marketBaseVault false true;
      meta marketQuoteVault false true;
      meta marketAuthority false false;
      meta userSourceTokenAccount false true;
      meta userDestTokenAccount false true;
      meta userOwner true false ] in
  programID <-- MustPublicKeyFromBase58 L (ProgramID pool) ;;
  Ok (GenericInstruction programID accounts buf).

End Api.

(** [getOrCreateATA]: the associated account and, when the account does not
    exist yet, the instruction that creates it. *)
Definition getOrCreateATA (L : Library) (C : Client) (wallet mint : PublicKey)
  : Rpc (PublicKey * option Instruction) :=
  match FindAssociatedTokenAddress L wallet mint with
  | None => fail FindATAFailed
  | Some ata =>
      ([CallGetAccountInfo ata],
       Ok (match GetAccountInfo C ata with
           | None => (ata, Some (CreateATAInstruction wallet wallet mint))
           | Some _ => (ata, None)
           end))
  end.

(** [if ix != nil { instructions = append(instructions, ix) }]. *)
Definition appendIfPresent (instructions : list Instruction)
  (ix : option Instruction) : list Instruction :=
  match ix with
  | Some i => instructions ++ [i]
  | None => instructions
  end.

(** The market step of [executeSwap]: on an error of [fetchMarketData] the
    fallback accounts are written into the pool and the run goes on. *)
Definition orFallback (L : Library)
  (step : list RpcCall * OnChainPool * option error) : Rpc OnChainPool :=
  match step with
  | (log, pool, None) => (log, Ok pool)
  | (log, pool, Some _) => (log, Ok (marketFallback L pool))
  end.

Definition fromBase58 (L : Library) (s : string) (e : error) : result PublicKey :=
  match PublicKeyFromBase58 L s with
  | Some k => Ok k
  | None => Err e
  end.

(** [executeSwap], from its start to the assembled instruction list (the
    anchoring, signing, submission and confirmation that follow belong to the
    ledger client).  [wallet] is the wallet's public key. *)
Definition executeSwap (L : Library) (C : Client) (wallet : PublicKey)
  (poolAddress side : string) (amountIn : float) (minAmountOut : Z)
  : Rpc (list Instruction) :=
  poolPubkey <- lift (fromBase58 L poolAddress InvalidPoolAddress) ;;
  data <- rpcGetAccountInfo C poolPubkey GetAccountFailed ;;
  pool <- lift (parsePoolAccount L poolPubkey data) ;;
  baseDecimals <- getTokenDecimals L C (PublicKeyString L (BaseMint pool)) ;;
  let pool := pool <| BaseDecimals := baseDecimals |> in
  quoteDecimals <- getTokenDecimals L C (PublicKeyString L (QuoteMint pool)) ;;
  let pool := pool <| QuoteDecimals := quoteDecimals |> in
  pool <- orReturn (fetchVaultBalances C pool) ;;
  pool <- orFallback L (fetchMarketData L C pool) ;;
  let isBaseSol := isSol L (BaseMint pool) in
  let '(sourceMint, destinationMint, isBaseToQuote, inputDecimals) :=
    if String.eqb side "buy" then
      if isBaseSol
      then (BaseMint pool, QuoteMint pool, true, SOL_DECIMALS)
      else (QuoteMint pool, BaseMint pool, false, SOL_DECIMALS)
    else
      if isBaseSol
      then (QuoteMint pool, BaseMint pool, false, byte.unsigned (QuoteDecimals pool))
      else (BaseMint pool, QuoteMint pool, true, byte.unsigned (BaseDecimals pool)) in
  let amountInRaw := toRawAmount L amountIn inputDecimals in
  let instructions := [] in
  source <- getOrCreateATA L C wallet sourceMint ;;
  let '(sourceATA, createSourceIx) := source in
  let instructions := appendIfPresent instructions createSourceIx in
  let instructions :=
    if Equals sourceMint (WSOL_MINT L) && String.eqb side "buy"
    then instructions ++ [TransferInstruction amountInRaw wallet sourceATA;
                          SyncNativeInstruction sourceATA]
    else instructions in
  destination <- getOrCreateATA L C wallet destinationMint ;;
  let '(destinationATA, createDestIx) := destination in
  let instructions := appendIfPresent instructions createDestIx in
  swapIx <- lift (createSwapInstruction L pool sourceATA destinationATA wallet
                    amountInRaw minAmountOut isBaseToQuote) ;;
  let instructions := instructions ++ [swapIx] in
  let instructions :=
    if Equals destinationMint (WSOL_MINT L) && String.eqb side "sell"
    then instructions ++ [CloseAccountInstruction destinationATA wallet wallet]
    else instructions in
  ret instructions.

(* ===================================================================== *)
(** ** Submission and confirmation *)
(* ===================================================================== *)

(** [strings.Contains(s, substr)]. *)
Fixpoint Contains (s substr : string) : bool :=
  if String.prefix substr s then true
  else
    match s with
    | EmptyString => false
    | String _ rest => Contains rest substr
    end.

(** What [client.SendTransactionWithOpts] replies: a signature, or an error
    with its message. *)
Inductive SendReply : Type :=
| Sent (sig : string)
| SendError (message : string).

(** What one [client.GetSignatureStatuses] call tells [executeSwap]: an
    error, no status entry yet, or the confirmation status of the entry. *)
Inductive StatusReply : Type :=
| StatusError
| StatusMissing
| StatusProcessed
| StatusConfirmed
| StatusFinalized.

(** The ledger as [executeSwap] uses it after signing: the reply to a send,
    by its [SkipPreflight] option, and the reply to the [i]-th status
    request. *)
Record Ledger : Type := {
  SendTransactionWithOpts : bool -> SendReply;
  GetSignatureStatuses : nat -> StatusReply
}.

(** The requests a run sends to the ledger after signing, in order. *)
Inductive LedgerCall : Type :=
| CallSendTransaction (skipPreflight : bool)
| CallGetSignatureStatuses (sig : string).

(** The send step of [executeSwap]: with preflight first, and once more
    without it when the error message names a signature verification
    failure.  [None] is the error "failed to send transaction". *)
Definition executeSwap_send (ledger : Ledger) : list LedgerCall * option string :=
  match SendTransactionWithOpts ledger false with
  | Sent sig => ([CallSendTransaction false], Some sig)
  | SendError message =>
      if Contains message "Transaction signature verification failure"
      then
        match SendTransactionWithOpts ledger true with
        | Sent sig => ([CallSendTransaction false; CallSendTransaction true], Some sig)
        | SendError _ => ([CallSendTransaction false; CallSendTransaction true], None)
        end
      else ([CallSendTransaction false], None)
  end.

(** The confirmation loop [for i := 0; i < maxRetries; i++], from round [i]
    with [remaining] rounds to go: the status requests it makes. *)
Fixpoint executeSwap_wait (ledger : Ledger) (sig : string) (i remaining : nat)
  : list LedgerCall :=
  match remaining with
  | O => []
  | S remaining' =>
      CallGetSignatureStatuses sig ::
      match GetSignatureStatuses ledger i with
      | StatusConfirmed | StatusFinalized => []
      | _ => executeSwap_wait ledger sig (S i) remaining'
      end
  end.

(** [executeSwap] from the send to its return value [sig.String(), nil]. *)
Definition executeSwap_submit (ledger : Ledger) : list LedgerCall * option string :=
  match executeSwap_send ledger with
  | (log, Some sig) => (log ++ executeSwap_wait ledger sig 0 30, Some sig)
  | (log, None) => (log, None)
  end.

(* ===================================================================== *)
(** ** The swap through the pool description of the API *)
(* ===================================================================== *)

(** [ExecuteRaydiumSwap] of [raydium_swap.go], from the pool description
    that [GetRaydiumPoolInfo] returned to the instruction list handed to
    [solana.NewTransaction].  [wallet] is the wallet's public key. *)
Definition ExecuteRaydiumSwap (L : Library) (wallet : PublicKey)
  (pool : Api.RaydiumPoolInfo) (amountIn : float) (minAmountOut : Z)
  (side : string) : result (list Instruction) :=
  Api.andThen (Api.MustPublicKeyFromBase58 L (Api.BaseMint pool)) (fun baseMint =>
  Api.andThen (Api.MustPublicKeyFromBase58 L (Api.QuoteMint pool)) (fun quoteMint =>
  let '(sourceMint, destMint) :=
    if String.eqb side "buy" then (baseMint, quoteMint) else (quoteMint, baseMint) in
  let amountInRaw :=
    ExecuteRaydiumSwap_amountInRaw L side amountIn (Api.QuoteDecimals pool) in
  match FindAssociatedTokenAddress L wallet sourceMint with
  | None => Err FindATAFailed
  | Some sourceAta =>
      match FindAssociatedTokenAddress L wallet destMint with
      | None => Err FindATAFailed
      | Some destAta =>
          let instructions := [] in
          Api.andThen
            (Api.CreateRaydiumSwapInstruction L pool sourceAta destAta wallet
               amountInRaw minAmountOut)
            (fun swapIx => Ok (instructions ++ [swapIx]))
      end
  end)).

(* ===================================================================== *)
(** ** The quote *)
(* ===================================================================== *)

(** Go's conversion [float64(n)] of a [uint64]: the nearest binary64 value,
    ties to even. *)
Definition float_of_uint64 (n : Z) : float :=
  SF2Prim (binary_normalize prec emax n 0 false).

(** [calculateQuoteOnChain] of [main.go]; [Err Panic] is the division by zero
    inside [calculateSwapAmount]. *)
Definition calculateQuoteOnChain (L : Library) (C : Client)
  (PoolAddress : string) (Amount : float) (Side : string) : Rpc float :=
  poolPubkey <- lift (fromBase58 L PoolAddress InvalidPoolAddress) ;;
  data <- rpcGetAccountInfo C poolPubkey GetAccountFailed ;;
  pool <- lift (parsePoolAccount L poolPubkey data) ;;
  baseDecimals <- getTokenDecimals L C (PublicKeyString L (BaseMint pool)) ;;
  let pool := pool <| BaseDecimals := baseDecimals |> in
  quoteDecimals <- getTokenDecimals L C (PublicKeyString L (QuoteMint pool)) ;;
  let pool := pool <| QuoteDecimals := quoteDecimals |> in
  pool <- orReturn (fetchVaultBalances C pool) ;;
  let isBaseSol := isSol L (BaseMint pool) in
  let '(inputDecimals, outputDecimals, isBaseToQuote) :=
    if String.eqb Side "buy" then
      if isBaseSol
      then (SOL_DECIMALS, byte.unsigned (QuoteDecimals pool), true)
      else (SOL_DECIMALS, byte.unsigned (BaseDecimals pool), false)
    else
      if isBaseSol
      then (byte.unsigned (QuoteDecimals pool), SOL_DECIMALS, false)
      else (byte.unsigned (BaseDecimals pool), SOL_DECIMALS, true) in
  let amountIn := toRawAmount L Amount inputDecimals in
  amountOut <- lift (match (if isBaseToQuote
                            then calculateSwapAmount (QuoteAmount pool)
                                   (BaseAmount pool) amountIn
                            else calculateSwapAmount (BaseAmount pool)
                                   (QuoteAmount pool) amountIn) with
                     | Some amountOut => Ok amountOut
                     | None => Err Panic
                     end) ;;
  let fee := (float_of_uint64 amountOut * 0x1.47ae147ae147bp-9)%float in
  let amountOutAfterFee := (float_of_uint64 amountOut - fee)%float in
  let result :=
    (amountOutAfterFee / Pow L 10 (float_of_int outputDecimals))%float in
  ret result.

(* ===================================================================== *)
(** ** The minimum output *)
(* ===================================================================== *)

(** [pool.BaseDecimals, _ = getTokenDecimals(...)]: the error is dropped,
    and the value is then 0. *)
Definition ignoringError (m : Rpc byte) : Rpc byte :=
  (calls m, Ok (match outcome m with Ok d => d | Err _ => Byte.x00 end)).

(** [main] with [-execute], from the accepted quote and slippage to the
    [minAmountOut] handed to [executeSwap]: the pool is read once more for
    the output decimals.  A failed request or decoding ends the program
    with [log.Fatalf]. *)
Definition main_minAmountOut (L : Library) (C : Client) (poolAddress side : string)
  (quote slippage : float) : Rpc Z :=
  let poolPubkey :=
    match PublicKeyFromBase58 L poolAddress with
    | Some k => k
    | None => zeroKey
    end in
  data <- rpcGetAccountInfo C poolPubkey GetAccountFailed ;;
  pool <- lift (parsePoolAccount L poolPubkey data) ;;
  baseDecimals <-
    ignoringError (getTokenDecimals L C (PublicKeyString L (BaseMint pool))) ;;
  let pool := pool <| BaseDecimals := baseDecimals |> in
  quoteDecimals <-
    ignoringError (getTokenDecimals L C (PublicKeyString L (QuoteMint pool))) ;;
  let pool := pool <| QuoteDecimals := quoteDecimals |> in
  pool <- (let '(log, pool, _) := fetchVaultBalances C pool in (log, Ok pool)) ;;
  let isBaseSol := isSol L (BaseMint pool) in
  let outputDecimals :=
    if String.eqb side "buy" then
      if isBaseSol then byte.unsigned (QuoteDecimals pool)
      else byte.unsigned (BaseDecimals pool)
    else SOL_DECIMALS in
  ret (calculateMinAmountOut L quote slippage outputDecimals).

(* ===================================================================== *)
(** ** Pool discovery and the command line *)
(* ===================================================================== *)

(** One round of the account loop of [findPoolsOnChain]: the requests made
    and the pool appended to [pools], if any ([continue] appends none). *)
Definition scanAccount (L : Library) (C : Client) (tokenPubkey : PublicKey)
  (account : PublicKey * list byte) : list RpcCall * list OnChainPool :=
  let '(pubkey, data) := account in
  match parsePoolAccount L pubkey data with
  | Err _ => ([], [])
  | Ok pool =>
      let hasOurToken :=
        Equals (BaseMint pool) tokenPubkey || Equals (QuoteMint pool) tokenPubkey in
      let hasSol :=
        Equals (BaseMint pool) (WSOL_MINT L) || Equals (QuoteMint pool) (WSOL_MINT L)
        || Equals (BaseMint pool) (SOL_MINT L) || Equals (QuoteMint pool) (SOL_MINT L) in
      if hasOurToken && hasSol then
        match getTokenDecimals L C (PublicKeyString L (BaseMint pool)) with
        | (log1, Err _) => (log1, [])
        | (log1, Ok baseDecimals) =>
            let pool := pool <| BaseDecimals := baseDecimals |> in
            match getTokenDecimals L C (PublicKeyString L (QuoteMint pool)) with
            | (log2, Err _) => (log1 ++ log2, [])
            | (log2, Ok quoteDecimals) =>
                let pool := pool <| QuoteDecimals := quoteDecimals |> in
                match fetchVaultBalances C pool with
                | (log3, _, Some _) => (log1 ++ log2 ++ log3, [])
                | (log3, pool, None) => (log1 ++ log2 ++ log3, [pool])
                end
            end
        end
      else ([], [])
  end.

Fixpoint scanAccounts (L : Library) (C : Client) (tokenPubkey : PublicKey)
  (accounts : list (PublicKey * list byte)) : list RpcCall * list OnChainPool :=
  match accounts with
  | [] => ([], [])
  | account :: rest =>
      let '(log, found) := scanAccount L C tokenPubkey account in
      let '(log', pools) := scanAccounts L C tokenPubkey rest in
      (log ++ log', found ++ pools)
  end.

(** The selection loop of [findPoolsOnChain]: [bestPool] starts as [nil] and
    [maxLiquidity] as 0. *)
Fixpoint selectBest (L : Library) (pools : list OnChainPool) (maxLiquidity : Z)
  (bestPool : option OnChainPool) : option OnChainPool :=
  match pools with
  | [] => bestPool
  | pool :: rest =>
      let solReserves :=
        if isSol L (BaseMint pool) then BaseAmount pool else QuoteAmount pool in
      if maxLiquidity <? solReserves
      then selectBest L rest solReserves (Some pool)
      else selectBest L rest maxLiquidity bestPool
  end.

(** [findPoolsOnChain] of [main.go]; [Ok None] is a [nil] pool with a [nil]
    error. *)
Definition findPoolsOnChain (L : Library) (C : Client) (tokenAddress : string)
  : Rpc (option OnChainPool) :=
  tokenPubkey <- lift (fromBase58 L tokenAddress InvalidTokenAddress) ;;
  accounts <- rpcGetProgramAccounts C (RAYDIUM_AMM_V4 L) 752 GetProgramAccountsFailed ;;
  let '(log, pools) := scanAccounts L C tokenPubkey accounts in
  (log,
   match pools with
   | [] => Err NoPoolsFound
   | _ => Ok (selectBest L pools 0 None)
   end).

(** [main], from the parsed flags to the address handed to
    [calculateQuoteOnChain] as [QuoteParams.PoolAddress].  [Ok None]: the
    usage text was printed and the program returned.  (With [-execute] the
    wallet key is read from the environment before the pool is resolved; a
    missing key ends the program there.) *)
Definition main_poolAddress (L : Library) (C : Client)
  (poolAddr tokenAddr : string) (amount : float) (side : string)
  : Rpc (option string) :=
  if PrimFloat.eqb amount 0 || String.eqb side "" then ret None
  else if String.eqb poolAddr "" && String.eqb tokenAddr "" then fail UsageError
  else if negb (String.eqb side "buy") && negb (String.eqb side "sell")
  then fail UsageError
  else
    if negb (String.eqb tokenAddr "") then
      pool <- findPoolsOnChain L C tokenAddr ;;
      match pool with
      | Some p => ret (Some (PublicKeyString L (Address p)))
      | None => fail Panic
      end
    else ret (Some poolAddr).

(* ===================================================================== *)
(** ** The slippage prompt *)
(* ===================================================================== *)

(** The table [asciiSpace] of package [strings]. *)
Definition asciiSpace (c : ascii) : bool :=
  let n := nat_of_ascii c in
  (n =? 9)%nat || (n =? 10)%nat || (n =? 11)%nat || (n =? 12)%nat
  || (n =? 13)%nat || (n =? 32)%nat.

Definition isASCII (c : ascii) : bool := (nat_of_ascii c <? 128)%nat.

(** Leading ASCII space dropped; [None] when a byte outside ASCII is met
    first (the library then decodes runes). *)
Fixpoint trimLeft (s : string) : option string :=
  match s with
  | EmptyString => Some EmptyString
  | String c rest =>
      if negb (isASCII c) then None
      else if asciiSpace c then trimLeft rest
      else Some s
  end.

Definition rev_string (s : string) : string :=
  string_of_list_ascii (rev (list_ascii_of_string s)).

(** [strings.TrimSpace]: ASCII space is cut from both ends; when a byte
    outside ASCII is met on the way the library falls back to
    [TrimFunc(s, unicode.IsSpace)]. *)
Definition TrimSpace (L : Library) (s : string) : string :=
  match trimLeft s with
  | None => TrimFuncIsSpace L s
  | Some s1 =>
      match trimLeft (rev_string s1) with
      | None => TrimFuncIsSpace L s
      | Some r => rev_string r
      end
  end.

(** [strings.TrimSuffix(s, suffix)]. *)
Definition TrimSuffix (s suffix : string) : string :=
  let n := String.length s in
  let k := String.length suffix in
  if (k <=? n)%nat && String.eqb (substring (n - k) k s) suffix
  then substring 0 (n - k) s
  else s.

(** [parseFloat] of [main.go]. *)
Definition parseFloat (L : Library) (s : string) : option float :=
  let s := TrimSpace L s in
  let s := TrimSuffix s "%" in
  ParseFloat L s.

(** [getSlippageFromUser] of [main.go].  [line] is what [scanner.Scan]
    delivers: [None] when there is no line to read. *)
Definition getSlippageFromUser (L : Library) (line : option string)
  : result float :=
  match line with
  | None => Ok 0.5%float
  | Some text =>
      let input := TrimSpace L text in
      if String.eqb input "" then Ok 0.5%float
      else
        match parseFloat L input with
        | None => Err InvalidSlippageValue
        | Some slippage =>
            if PrimFloat.ltb slippage 0 || PrimFloat.ltb 100 slippage
            then Err SlippageOutOfRange
            else Ok slippage
        end
  end.

(** [getSlippageFromUser] of [main_working.go]; [input] is what
    [reader.ReadString('\n')] returns. *)
Definition getSlippageFromUser_working (L : Library) (input : string)
  : result float :=
  let input := TrimSpace L input in
  if String.eqb input "" then Ok 0.5%float
  else
    let input := TrimSuffix input "%" in
    match ParseFloat L input with
    | None => Err InvalidSlippageValue
    | Some slippage =>
        if PrimFloat.ltb slippage 0 || PrimFloat.ltb 100 slippage
        then Err SlippageOutOfRange
        else Ok slippage
    end.

(** A key that is a verbatim copy of the 32 bytes of [data] from offset
    [lo]. *)
Definition field_at (data : list byte) (lo : nat) (k : PublicKey) : Prop :=
  k = slice data lo (lo + 32)
  /\ List.length k = 32%nat
  /\ forall i, (i < 32)%nat -> nth_error k i = nth_error data (lo + i).

(* ===================================================================== *)
(** ** The solana-go functions, concretely *)
(* ===================================================================== *)

(** A model of the library functions behind [Library], precise enough to run
    the program on real addresses: Base58, SHA-256, the Ed25519 curve test
    and the program-address derivation built from them. *)
Module SolanaGo.

(** *** Base58 *)

Definition alphabet : string :=
  "123456789ABCDEFGHJKLMNPQRSTUVWXYZabcdefghijkmnopqrstuvwxyz".

Fixpoint digit (c : ascii) (alpha : string) (i : Z) : option Z :=
  match alpha with
  | EmptyString => None
  | String a rest => if Ascii.eqb a c then Some i else digit c rest (i + 1)
  end.

Fixpoint value (s : string) (acc : Z) : option Z :=
  match s with
  | EmptyString => Some acc
  | String c rest =>
      match digit c alphabet 0 with
      | Some v => value rest (acc * 58 + v)
      | None => None
      end
  end.

Fixpoint leadingOnes (s : string) : nat :=
  match s with
  | String "1"%char rest => S (leadingOnes rest)
  | _ => O
  end.

(** The big-endian bytes of [n], without leading zero bytes. *)
Definition bigEndian (n : Z) : list byte :=
  if n =? 0 then []
  else List.rev (le_split (Z.to_nat (Z.log2 n / 8 + 1)) n).

Definition decode (s : string) : option (list byte) :=
  match value s 0 with
  | Some n => Some (repeat Byte.x00 (leadingOnes s) ++ bigEndian n)
  | None => None
  end.

Fixpoint digits (fuel : nat) (n : Z) (acc : string) : string :=
  match fuel with
  | O => acc
  | S k =>
      if n =? 0 then acc
      else
        match String.get (Z.to_nat (n mod 58)) alphabet with
        | Some c => digits k (n / 58) (String c acc)
        | None => acc
        end
  end.

Fixpoint leadingZeros (b : list byte) : nat :=
  match b with
  | Byte.x00 :: rest => S (leadingZeros rest)
  | _ => O
  end.

Definition encode (b : list byte) : string :=
  String.append
    (string_of_list_ascii (repeat "1"%char (leadingZeros b)))
    (digits (2 * List.length b + 1) (le_combine (List.rev b)) EmptyString).

Definition PublicKeyFromBase58 (s : string) : option PublicKey :=
  match decode s with
  | Some b => if (List.length b =? 32)%nat then Some b else None
  | None => None
  end.

(** *** SHA-256 *)

Definition add32 (a b : Z) : Z := (a + b) mod 2 ^ 32.
Definition rotr (n x : Z) : Z :=
  Z.lor (Z.shiftr x n) (Z.shiftl x (32 - n) mod 2 ^ 32).
Definition Ch (x y z : Z) : Z :=
  Z.lxor (Z.land x y) (Z.land (2 ^ 32 - 1 - x) z).
Definition Maj (x y z : Z) : Z :=
  Z.lxor (Z.lxor (Z.land x y) (Z.land x z)) (Z.land y z).
Definition Sigma0 (x : Z) : Z := Z.lxor (rotr 2 x) (Z.lxor (rotr 13 x) (rotr 22 x)).
Definition Sigma1 (x : Z) : Z := Z.lxor (rotr 6 x) (Z.lxor (rotr 11 x) (rotr 25 x)).
Definition sigma0 (x : Z) : Z := Z.lxor (rotr 7 x) (Z.lxor (rotr 18 x) (Z.shiftr x 3)).
Definition sigma1 (x : Z) : Z := Z.lxor (rotr 17 x) (Z.lxor (rotr 19 x) (Z.shiftr x 10)).

(** The first 64 primes. *)
Definition primes : list Z :=
  [2; 3; 5; 7; 11; 13; 17; 19; 23; 29; 31; 37; 41; 43; 47; 53; 59; 61; 67; 71;
   73; 79; 83; 89; 97; 101; 103; 107; 109; 113; 127; 131; 137; 139; 149; 151;
   157; 163; 167; 173; 179; 181; 191; 193; 197; 199; 211; 223; 227; 229; 233;
   239; 241; 251; 257; 263; 269; 271; 277; 281; 283; 293; 307; 311].

(** The largest [r] in [[lo, hi)] with [r^3 <= n], by bisection. *)
Fixpoint cubeRoot (fuel : nat) (lo hi n : Z) : Z :=
  match fuel with
  | O => lo
  | S k =>
      if hi - lo <=? 1 then lo
      else
        let mid := (lo + hi) / 2 in
        if mid * mid * mid <=? n then cubeRoot k mid hi n
        else cubeRoot k lo mid n
  end.

(** The round constants: the first 32 bits of the fractional parts of the
    cube roots of the first 64 primes. *)
Definition K : list Z :=
  map (fun q => cubeRoot 40 0 (2 ^ 35) (q * 2 ^ 96) mod 2 ^ 32) primes.

(** The initial hash value: the same of the square roots of the first 8
    primes. *)
Definition H0 : list Z :=
  map (fun q => Z.sqrt (q * 2 ^ 64) mod 2 ^ 32) (firstn 8 primes).

Definition pad (msg : list byte) : list byte :=
  let l := Z.of_nat (List.length msg) in
  msg ++ [Byte.x80]
      ++ repeat Byte.x00 (Z.to_nat ((55 - l) mod 64))
      ++ List.rev (le_split 8 (8 * l)).

Fixpoint words (bs : list byte) : list Z :=
  match bs with
  | a :: b :: c :: d :: rest => le_combine [d; c; b; a] :: words rest
  | _ => []
  end.

(** The message schedule, newest word first. *)
Fixpoint extend (n : nat) (w : list Z) : list Z :=
  match n with
  | O => w
  | S k =>
      extend k (add32 (add32 (sigma1 (nth 1 w 0)) (nth 6 w 0))
                      (add32 (sigma0 (nth 14 w 0)) (nth 15 w 0)) :: w)
  end.

Definition round (s : list Z) (kw : Z * Z) : list Z :=
  match s with
  | [a; b; c; d; e; f; g; h] =>
      let t1 := add32 (add32 (add32 h (Sigma1 e)) (Ch e f g))
                      (add32 (fst kw) (snd kw)) in
      let t2 := add32 (Sigma0 a) (Maj a b c) in
      [add32 t1 t2; a; b; c; add32 d t1; e; f; g]
  | _ => s
  end.

Definition compress (h : list Z) (block : list Z) : list Z :=
  let w := List.rev (extend 48 (List.rev block)) in
  map (fun xy => add32 (fst xy) (snd xy))
      (combine h (fold_left round (combine K w) h)).

Fixpoint blocks (fuel : nat) (h : list Z) (ws : list Z) : list Z :=
  match fuel with
  | O => h
  | S k =>
      match ws with
      | [] => h
      | _ => blocks k (compress h (firstn 16 ws)) (skipn 16 ws)
      end
  end.

Definition sha256 (msg : list byte) : list byte :=
  let ws := words (pad msg) in
  List.concat (map (fun w => List.rev (le_split 4 w))
                   (blocks (List.length ws) H0 ws)).

(** *** The curve test *)

Definition p : Z := 2 ^ 255 - 19.
Definition d : Z :=
  37095705934669439343138083508754565189542113879843219016388785533085940283555.

(** [b ^ e mod m], on machine-word integers. *)
Fixpoint powmod (b : bigZ) (e : positive) (m : bigZ) : bigZ :=
  match e with
  | xH => BigZ.modulo b m
  | xO e' => let r := powmod b e' m in BigZ.modulo (BigZ.mul r r) m
  | xI e' =>
      let r := powmod b e' m in
      BigZ.modulo (BigZ.mul (BigZ.modulo (BigZ.mul r r) m) b) m
  end.

(** [IsOnCurve]: the 32 bytes decompress to a point, that is, with [y] the
    low 255 bits, [(y^2 - 1) / (d y^2 + 1)] is a square modulo [p]
    (Euler's criterion on [(y^2 - 1) (d y^2 + 1)]). *)
Definition IsOnCurve (b : list byte) : bool :=
  let y := (le_combine b mod 2 ^ 255) mod p in
  let u := (y * y - 1) mod p in
  let v := (d * y * y + 1) mod p in
  let e := BigZ.to_Z (powmod (BigZ.of_Z (u * v mod p))
                             (Z.to_pos ((p - 1) / 2)) (BigZ.of_Z p)) in
  (e =? 0) || (e =? 1).

(** *** Program addresses *)

Definition PDA_MARKER : list byte := list_byte_of_string "ProgramDerivedAddress".

Definition CreateProgramAddress (seeds : list (list byte)) (programID : PublicKey)
  : option PublicKey :=
  if (16 <? List.length seeds)%nat then None
  else if existsb (fun seed => (32 <? List.length seed)%nat) seeds then None
  else
    let hash := sha256 (List.concat seeds ++ programID ++ PDA_MARKER) in
    if IsOnCurve hash then None else Some hash.

(** [FindProgramAddress]: the bump seed counts down from 255 to 1, and the
    first candidate that [CreateProgramAddress] accepts for
    [seeds ++ [bump]] is returned with its bump. *)
Fixpoint findBump (create : list (list byte) -> PublicKey -> option PublicKey)
  (seeds : list (list byte)) (programID : PublicKey) (bump : nat)
  : option (PublicKey * byte) :=
  match bump with
  | O => None
  | S below =>
      match create (seeds ++ [[byte.of_Z (Z.of_nat bump)]]) programID with
      | Some address => Some (address, byte.of_Z (Z.of_nat bump))
      | None => findBump create seeds programID below
      end
  end.

Definition FindProgramAddress (seeds : list (list byte)) (programID : PublicKey)
  : option (PublicKey * byte) :=
  findBump CreateProgramAddress seeds programID 255.

(** [MustPublicKeyFromBase58] on a well-formed literal. *)
Definition key (s : string) : PublicKey :=
  match PublicKeyFromBase58 s with
  | Some k => k
  | None => []
  end.

Definition TokenProgramID : PublicKey :=
  key "TokenkegQfeZyiNwAJbNbGKPFXCWuBvf9Ss623VQ5DA".
Definition SPLAssociatedTokenAccountProgramID : PublicKey :=
  key "ATokenGPvbdGVxr1b2hvZbsiqW5xWH25efTNsLJA8knL".

(** [FindAssociatedTokenAddress(wallet, mint)]. *)
Definition FindAssociatedTokenAddress (wallet mint : PublicKey)
  : option PublicKey :=
  option_map fst
    (FindProgramAddress [wallet; TokenProgramID; mint]
       SPLAssociatedTokenAccountProgramID).

End SolanaGo.

(* ===================================================================== *)
(** ** A concrete environment *)
(* ===================================================================== *)

(** Stand-ins for [strconv.ParseFloat] and [math.Pow] on the inputs used
    below. *)
Definition demoParseFloat (s : string) : option float :=
  if String.eqb s "NaN" then Some PrimFloat.nan
  else if String.eqb s "0.5" then Some 0.5%float
  else if String.eqb s "2.5" then Some 2.5%float
  else if String.eqb s "100" then Some 100%float
  else if String.eqb s "101" then Some 101%float
  else if String.eqb s "-1" then Some (-1)%float
  else None.

Fixpoint powNat (x : float) (n : nat) : float :=
  match n with
  | O => 1%float
  | S k => (x * powNat x k)%float
  end.

Definition demoPow (x y : float) : float :=
  match float_trunc y with
  | Some n => powNat x (Z.to_nat n)
  | None => PrimFloat.nan
  end.

(** The library with the program's own address constants. *)
Definition goLibrary : Library :=
  {| CreateProgramAddress := SolanaGo.CreateProgramAddress;
     FindProgramAddress := SolanaGo.FindProgramAddress;
     FindAssociatedTokenAddress := SolanaGo.FindAssociatedTokenAddress;
     PublicKeyFromBase58 := SolanaGo.PublicKeyFromBase58;
     PublicKeyString := SolanaGo.encode;
     ParseFloat := demoParseFloat;
     TrimFuncIsSpace := fun s => s;
     Pow := demoPow;
     uint64_out_of_range := fun _ => 2 ^ 63;
     RAYDIUM_AMM_V4 := SolanaGo.key "675kPX9MHTjS2zt1qfr1NYHuzeLXfQM9H24wFSUt1Mp8";
     OPENBOOK_PROGRAM := SolanaGo.key "srmqPvymJeFKQ4zGQed1GFppgkRHL9kaELCbyksJtPX";
     SOL_MINT := SolanaGo.key "So11111111111111111111111111111111111111112";
     WSOL_MINT := SolanaGo.key "So11111111111111111111111111111111111111112";
     TokenProgramID := SolanaGo.TokenProgramID;
     SystemProgramID := SolanaGo.key "11111111111111111111111111111111" |}.

(** The RAY-SOL pool and the RAY mint of the testing guide, a second pool
    address, and made-up wallet and vault keys. *)
Definition demoPoolAddress : string := "AVs9TA4nWDzfPJE9gGVNJMVhcQy3V9PGazuz33BfG2RA".
Definition demoOtherPoolAddress : string := "58oQChx4yWmvKdwLLZzBi4ChoCc2fqCUWBkwMihLYQo2".
Definition demoTokenAddress : string := "4k3Dyjzvzp8eMZWUXbBCjEvwSkkk59S5iCNLY3QrkX6R".
Definition demoPoolKey : PublicKey := SolanaGo.key demoPoolAddress.
Definition demoToken : PublicKey := SolanaGo.key demoTokenAddress.
Definition demoWallet : PublicKey := SolanaGo.sha256 (list_byte_of_string "wallet 8").
Definition demoBaseVault : PublicKey := SolanaGo.sha256 (list_byte_of_string "base vault").
Definition demoQuoteVault : PublicKey := SolanaGo.sha256 (list_byte_of_string "quote vault").
Definition demoMarket : PublicKey := SolanaGo.sha256 (list_byte_of_string "market 1").

(** A 752-byte pool account: nonce 254, base mint wrapped SOL, quote mint
    [demoToken], no market. *)
Definition demoPoolData : list byte :=
  repeat Byte.x00 8 ++ [Byte.xfe] ++ repeat Byte.x00 327
  ++ demoBaseVault ++ demoQuoteVault
  ++ WSOL_MINT goLibrary ++ demoToken
  ++ repeat Byte.x63 32
  ++ repeat Byte.x00 96
  ++ repeat Byte.x64 32
  ++ repeat Byte.x00 32
  ++ zeroKey ++ zeroKey
  ++ repeat Byte.xff 32.

(** An 82-byte mint account with 6 decimals. *)
Definition demoMintData : list byte :=
  repeat Byte.x00 44 ++ [Byte.x06] ++ repeat Byte.x00 37.

Definition demoClient : Client :=
  {| GetAccountInfo := fun k =>
       if Equals k demoPoolKey then Some demoPoolData
       else if Equals k demoToken then Some demoMintData
       else None;
     GetTokenAccountBalance := fun k =>
       if Equals k demoBaseVault then Some "5000000000"%string
       else if Equals k demoQuoteVault then Some "123456"%string
       else None;
     GetProgramAccounts := fun program size =>
       if Equals program (RAYDIUM_AMM_V4 goLibrary) && (size =? 752)%nat
       then Some [(demoPoolKey, demoPoolData)]
       else None |}.

(** A pool with an OpenBook market. *)
Definition demoMarketPool : OnChainPool :=
  (newPool demoPoolKey) <| Market := demoMarket |>
                        <| MarketProgram := OPENBOOK_PROGRAM goLibrary |>.

(** A client that serves a 400-byte market account for [demoMarket]. *)
Definition demoMarketClient : Client :=
  {| GetAccountInfo := fun k =>
       if Equals k demoMarket then Some (repeat Byte.x07 400) else None;
     GetTokenAccountBalance := fun _ => None;
     GetProgramAccounts := fun _ _ => None |}.

(** The demo pool with its vaults, as [fetchVaultBalances] receives it. *)
Definition demoVaultPool : OnChainPool :=
  (newPool demoPoolKey) <| BaseVault := demoBaseVault |>
                        <| QuoteVault := demoQuoteVault |>.

(** The demo client with both vaults empty. *)
Definition demoEmptyClient : Client :=
  {| GetAccountInfo := GetAccountInfo demoClient;
     GetTokenAccountBalance := fun k =>
       if Equals k demoBaseVault then Some "0"%string
       else if Equals k demoQuoteVault then Some "0"%string
       else None;
     GetProgramAccounts := GetProgramAccounts demoClient |}.

(** A ledger that rejects the first send for its signatures, accepts the
    second, and reports the transaction confirmed at the third status
    request. *)
Definition demoLedger : Ledger :=
  {| SendTransactionWithOpts := fun skipPreflight =>
       if skipPreflight then Sent "sig"
       else SendError "rpc error: Transaction signature verification failure";
     GetSignatureStatuses := fun i =>
       if (i <? 2)%nat then StatusMissing else StatusConfirmed |}.

(* ===================================================================== *)
(** ** Predicates used in the statements *)
(* ===================================================================== *)

(** The writable flags of the 18 accounts, in order. *)
Definition swapWritable : list bool :=
  [false; true; false; true; true; true; true; false; true;
   true; true; true; true; true; false; true; true; false].

(** The signer flags of the 18 accounts: only the last one signs. *)
Definition swapSigner : list bool := repeat false 17 ++ [true].

Definition isCreateATA (i : Instruction) : bool :=
  match i with CreateATAInstruction _ _ _ => true | _ => false end.
Definition isSwap (i : Instruction) : bool :=
  match i with GenericInstruction _ accounts _ => (List.length accounts =? 18)%nat | _ => false end.
Definition isClose (i : Instruction) : bool :=
  match i with CloseAccountInstruction _ _ _ => true | _ => false end.
Definition isWrapStep (i : Instruction) : bool :=
  match i with
  | TransferInstruction _ _ _ => true
  | SyncNativeInstruction _ => true
  | _ => false
  end.

(** The shape "[optional create-source], [swap], [optional close]". *)
Definition claimedSellShape (instructions : list Instruction) : bool :=
  match instructions with
  | [a] => isSwap a
  | [a; b] => (isCreateATA a && isSwap b) || (isSwap a && isClose b)
  | [a; b; c] => isCreateATA a && isSwap b && isClose c
  | _ => false
  end.

(** Nothing, or the one instruction [i]. *)
Definition optional (i : Instruction) (l : list Instruction) : Prop :=
  l = [] \/ l = [i].

Definition isScan (c : RpcCall) : bool :=
  match c with CallGetProgramAccounts _ _ => true | _ => false end.

(** What [getSlippageFromUser] parses: the line trimmed (twice, once in
    [getSlippageFromUser] and once in [parseFloat]) and without one trailing
    percent sign. *)
Definition slippageText (L : Library) (text : string) : string :=
  TrimSuffix (TrimSpace L (TrimSpace L text)) "%".

(** The offsets of the pool blob that [parsePoolAccount] reads. *)
Definition poolBytesRead (i : nat) : bool :=
  (i =? 8)%nat
  || (336 <=? i)%nat && (i <? 496)%nat
  || (592 <=? i)%nat && (i <? 624)%nat
  || (656 <=? i)%nat && (i <? 720)%nat.

(** [pool'] differs from [pool] at most in the two reserve amounts. *)
Definition sameButAmounts (pool pool' : OnChainPool) : Prop :=
  pool' = pool <| BaseAmount := BaseAmount pool' |>
               <| QuoteAmount := QuoteAmount pool' |>.

(** [pool'] differs from [pool] at most in the market accounts that
    [fetchMarketData] fills in. *)
Definition sameButMarketAccounts (pool pool' : OnChainPool) : Prop :=
  pool' = pool <| MarketBaseVault := MarketBaseVault pool' |>
               <| MarketQuoteVault := MarketQuoteVault pool' |>
               <| MarketBids := MarketBids pool' |>
               <| MarketAsks := MarketAsks pool' |>
               <| MarketEventQueue := MarketEventQueue pool' |>
               <| MarketNonce := MarketNonce pool' |>.

(** The market of [pool] cannot be read as an OpenBook market: there is
    none, its account cannot be fetched, or its data is too short. *)
Definition marketUnusable (C : Client) (pool : OnChainPool) : Prop :=
  IsZero (Market pool) = true
  \/ match GetAccountInfo C (Market pool) with
     | None => True
     | Some marketData => (List.length marketData < 388)%nat
     end.

(** The value of a string of decimal digits, read from the left onto
    [acc], without any bound. *)
Fixpoint decimalValue (s : string) (acc : Z) : option Z :=
  match s with
  | EmptyString => Some acc
  | String c rest =>
      match digit_value c with
      | Some d => decimalValue rest (acc * 10 + d)
      | None => None
      end
  end.

(** The SOL-side reserve by which [findPoolsOnChain] ranks a pool. *)
Definition solReserves (L : Library) (pool : OnChainPool) : Z :=
  if isSol L (BaseMint pool) then BaseAmount pool else QuoteAmount pool.

(** [hasOurToken && hasSol] of [findPoolsOnChain]. *)
Definition pairsWithSol (L : Library) (tokenPubkey : PublicKey) (pool : OnChainPool)
  : bool :=
  (Equals (BaseMint pool) tokenPubkey || Equals (QuoteMint pool) tokenPubkey)
  && (Equals (BaseMint pool) (WSOL_MINT L) || Equals (QuoteMint pool) (WSOL_MINT L)
      || Equals (BaseMint pool) (SOL_MINT L) || Equals (QuoteMint pool) (SOL_MINT L)).

(** What [findPoolsOnChain] knows about a pool it keeps. *)
Definition keptFrom (L : Library) (tokenPubkey : PublicKey)
  (account : PublicKey * list byte) (pool : OnChainPool) : Prop :=
  Address pool = fst account
  /\ (752 <= List.length (snd account))%nat
  /\ BaseMint pool = PublicKeyFromBytes (slice (snd account) 400 432)
  /\ QuoteMint pool = PublicKeyFromBytes (slice (snd account) 432 464)
  /\ pairsWithSol L tokenPubkey pool = true.

(** The mints, direction flag and input decimals that [executeSwap] settles
    on for a side. *)
Definition swapDirection (L : Library) (pool : OnChainPool) (side : string)
  : PublicKey * PublicKey * bool * Z :=
  if String.eqb side "buy" then
    if isSol L (BaseMint pool)
    then (BaseMint pool, QuoteMint pool, true, SOL_DECIMALS)
    else (QuoteMint pool, BaseMint pool, false, SOL_DECIMALS)
  else
    if isSol L (BaseMint pool)
    then (QuoteMint pool, BaseMint pool, false, byte.unsigned (QuoteDecimals pool))
    else (BaseMint pool, QuoteMint pool, true, byte.unsigned (BaseDecimals pool)).

(** The instruction list that [executeSwap] assembles from its pieces. *)
Definition assemble (L : Library) (wallet sourceMint destinationMint : PublicKey)
  (side : string) (amountInRaw : Z) (sourceATA destinationATA : PublicKey)
  (createSourceIx createDestIx : option Instruction) (swapIx : Instruction)
  : list Instruction :=
  appendIfPresent [] createSourceIx
  ++ (if Equals sourceMint (WSOL_MINT L) && String.eqb side "buy"
      then [TransferInstruction amountInRaw wallet sourceATA;
            SyncNativeInstruction sourceATA]
      else [])
  ++ appendIfPresent [] createDestIx
  ++ [swapIx]
  ++ (if Equals destinationMint (WSOL_MINT L) && String.eqb side "sell"
      then [CloseAccountInstruction destinationATA wallet wallet]
      else []).

(** A request log of at most [n] requests, none of them a program scan. *)
Definition quiet (n : nat) (log : list RpcCall) : Prop :=
  (List.length log <= n)%nat /\ forallb (fun c => negb (isScan c)) log = true.

(** A status reply that ends the confirmation loop. *)
Definition settled (r : StatusReply) : bool :=
  match r with
  | StatusConfirmed | StatusFinalized => true
  | _ => false
  end.

(** The decimals of the token that a swap on [side] pays out. *)
Definition outputDecimalsOf (L : Library) (pool : OnChainPool) (side : string) : Z :=
  if String.eqb side "buy" then
    if isSol L (BaseMint pool) then byte.unsigned (QuoteDecimals pool)
    else byte.unsigned (BaseDecimals pool)
  else SOL_DECIMALS.

(** The value [calculateQuoteOnChain] returns for a raw output amount: the
    amount less the trading fee of 0.25%, scaled by the output decimals. *)
Definition quoteAfterFee (L : Library) (amountOut outputDecimals : Z) : float :=
  let fee := (float_of_uint64 amountOut * 0x1.47ae147ae147bp-9)%float in
  let amountOutAfterFee := (float_of_uint64 amountOut - fee)%float in
  (amountOutAfterFee / Pow L 10 (float_of_int outputDecimals))%float.

(** Every byte of [s] is ASCII. *)
Definition allASCII (s : string) : bool :=
  forallb isASCII (list_ascii_of_string s).

(** Every byte of [s] is ASCII white space. *)
Definition allSpace (s : string) : bool :=
  forallb asciiSpace (list_ascii_of_string s).

(** [s] is empty or starts with an ASCII byte that is not white space. *)
Definition startsClean (s : string) : bool :=
  match s with
  | EmptyString => true
  | String c _ => isASCII c && negb (asciiSpace c)
  end.

(* ===================================================================== *)
(** ** Theorems *)
(* ===================================================================== *)

Lemma div_le_cross (x y x' y' : Z) :
  0 <= x -> 0 < y -> 0 < y' -> x * y' <= x' * y -> x / y <= x' / y'.
Proof.
  intros Hx Hy Hy' Hc.
  apply Z.div_le_lower_bound; [lia|].
  assert (Hq : y * (x / y) <= x) by (apply Z.mul_div_le; lia).
  assert (0 <= x / y) by (apply Z.div_pos; lia).
  nia.
Qed.

Lemma swap_quotient_bound (reserveOut reserveIn amountIn : Z) :
  0 <= reserveOut -> 0 <= reserveIn -> 0 <= amountIn -> 0 < reserveIn + amountIn ->
  0 <= reserveOut * amountIn / (reserveIn + amountIn) <= reserveOut.
Proof.
  intros Ho Hi Ha Hd.
  assert (0 <= reserveOut * amountIn) by (apply Z.mul_nonneg_nonneg; lia).
  assert (0 <= reserveIn * reserveOut) by (apply Z.mul_nonneg_nonneg; lia).
  split.
  - apply Z.div_pos; lia.
  - apply Z.div_le_upper_bound; lia.
Qed.

Lemma swap_quotient_strict (reserveOut reserveIn amountIn : Z) :
  0 < reserveOut -> 0 < reserveIn -> 0 <= amountIn ->
  reserveOut * amountIn / (reserveIn + amountIn) < reserveOut.
Proof.
  intros Ho Hi Ha. apply Z.div_lt_upper_bound; [lia|].
  assert (0 < reserveIn * reserveOut) by (apply Z.mul_pos_pos; lia).
  lia.
Qed.

Lemma swap_quotient_mono (reserveOut reserveIn a a' : Z) :
  0 <= reserveOut -> 0 <= reserveIn -> 0 <= a -> a <= a' -> 0 < reserveIn + a ->
  reserveOut * a / (reserveIn + a) <= reserveOut * a' / (reserveIn + a').
Proof.
  intros Ho Hi Ha Hle Hd.
  assert (0 <= reserveOut * a) by (apply Z.mul_nonneg_nonneg; lia).
  assert (reserveOut * reserveIn * a <= reserveOut * reserveIn * a')
    by (apply Z.mul_le_mono_nonneg_l; [apply Z.mul_nonneg_nonneg|]; lia).
  apply div_le_cross; lia.
Qed.

Lemma calculateSwapAmount_eq (reserveOut reserveIn amountIn : Z) :
  is_uint64 reserveOut -> 0 <= reserveIn -> 0 <= amountIn ->
  0 < reserveIn + amountIn ->
  calculateSwapAmount reserveOut reserveIn amountIn
  = Some (reserveOut * amountIn / (reserveIn + amountIn)).
Proof.
  intros Ho Hi Ha Hd. unfold calculateSwapAmount, bigUint64.
  destruct (Z.eqb_spec (reserveIn + amountIn) 0) as [E|_]; [lia|].
  f_equal. apply Z.mod_small.
  pose proof (swap_quotient_bound reserveOut reserveIn amountIn) as B.
  unfold is_uint64 in Ho. lia.
Qed.

(** C1 (as amended).  For unsigned 64-bit reserves and input with
    [reserveIn + amountIn > 0], [calculateSwapAmount] returns exactly
    [floor (reserveOut * amountIn / (reserveIn + amountIn))], computed on
    unbounded integers (the final [Uint64()] never wraps); the output is at
    most [reserveOut], strictly below it when both reserves are positive, and
    non-decreasing in [amountIn]. *)
Theorem calculateSwapAmount_constant_product :
  forall reserveOut reserveIn amountIn,
    is_uint64 reserveOut -> is_uint64 reserveIn -> is_uint64 amountIn ->
    0 < reserveIn + amountIn ->
    calculateSwapAmount reserveOut reserveIn amountIn
      = Some (reserveOut * amountIn / (reserveIn + amountIn))
    /\ reserveOut * amountIn / (reserveIn + amountIn) <= reserveOut
    /\ (0 < reserveIn -> 0 < reserveOut ->
        reserveOut * amountIn / (reserveIn + amountIn) < reserveOut)
    /\ (forall amountIn', is_uint64 amountIn' -> amountIn <= amountIn' ->
        exists out',
          calculateSwapAmount reserveOut reserveIn amountIn' = Some out'
          /\ reserveOut * amountIn / (reserveIn + amountIn) <= out').
Proof.
  intros ro ri a Ho Hi Ha Hd.
  pose proof Ho as Ho'. pose proof Hi as Hi'. pose proof Ha as Ha'.
  unfold is_uint64 in Ho', Hi', Ha'.
  split; [apply calculateSwapAmount_eq; auto; lia|].
  split; [apply swap_quotient_bound; lia|].
  split; [intros; apply swap_quotient_strict; lia|].
  intros a' Ha2 Hle. unfold is_uint64 in Ha2.
  exists (ro * a' / (ri + a')). split.
  - apply calculateSwapAmount_eq; auto; lia.
  - apply swap_quotient_mono; lia.
Qed.

Lemma calculateSwapAmount_constant_product_witness :
  calculateSwapAmount 98765432100000 123456789000000000 1000000
  = Some (98765432100000 * 1000000 / (123456789000000000 + 1000000)).
Proof.
  apply (calculateSwapAmount_constant_product
           98765432100000 123456789000000000 1000000);
    unfold is_uint64; lia.
Defined.

(** C1 as stated fails: with an empty input reserve the whole output reserve
    is paid out, so the output is not strictly below [reserveOut]. *)
Lemma calculateSwapAmount_reaches_reserve :
  ~ (forall reserveOut reserveIn amountIn,
        is_uint64 reserveOut -> is_uint64 reserveIn -> is_uint64 amountIn ->
        0 < amountIn ->
        exists out,
          calculateSwapAmount reserveOut reserveIn amountIn = Some out
          /\ out = reserveOut * amountIn / (reserveIn + amountIn)
          /\ out < reserveOut).
Proof.
  intros H.
  destruct (H 5 0 1) as [out [E [_ Hlt]]]; try (unfold is_uint64; lia).
  vm_compute in E. injection E as <-. lia.
Qed.

(** With both [reserveIn] and [amountIn] zero the division panics. *)
Example calculateSwapAmount_zero_divisor :
  calculateSwapAmount 5 0 0 = None.
Proof. reflexivity. Qed.

(* --------------------------------------------------------------------- *)
(** *** Slices and little-endian words *)
(* --------------------------------------------------------------------- *)

Lemma slice_length (data : list byte) (lo hi : nat) :
  (lo <= hi)%nat -> (hi <= List.length data)%nat ->
  List.length (slice data lo hi) = (hi - lo)%nat.
Proof.
  intros Hlo Hhi. unfold slice.
  rewrite firstn_length_le; [reflexivity|].
  rewrite length_skipn. lia.
Qed.

Lemma slice_nth_error (data : list byte) (lo hi i : nat) :
  (i < hi - lo)%nat -> nth_error (slice data lo hi) i = nth_error data (lo + i).
Proof.
  intros Hi. unfold slice.
  rewrite nth_error_firstn.
  destruct (Nat.ltb_spec i (hi - lo)) as [_|Hge]; [|lia].
  apply nth_error_skipn.
Qed.

Lemma PublicKeyFromBytes_slice (data : list byte) (lo : nat) :
  (lo + 32 <= List.length data)%nat ->
  field_at data lo (PublicKeyFromBytes (slice data lo (lo + 32))).
Proof.
  intros Hlen. unfold PublicKeyFromBytes.
  assert (Hl : List.length (slice data lo (lo + 32)) = 32%nat)
    by (rewrite slice_length; lia).
  rewrite firstn_app, Hl, firstn_all2 by lia.
  cbn [Nat.sub firstn]. rewrite app_nil_r.
  split; [reflexivity|]. split; [exact Hl|].
  intros i Hi. apply slice_nth_error. lia.
Qed.

Lemma PutUint64_le_split (v : Z) : PutUint64 v = le_split 8 v.
Proof.
  unfold PutUint64. cbv beta iota delta [le_split].
  rewrite !Z.shiftr_shiftr by lia. reflexivity.
Qed.

Lemma Uint64_le_combine (b0 b1 b2 b3 b4 b5 b6 b7 : byte) (rest : list byte) :
  Uint64 (b0 :: b1 :: b2 :: b3 :: b4 :: b5 :: b6 :: b7 :: rest)
  = Some (le_combine [b0; b1; b2; b3; b4; b5; b6; b7]).
Proof.
  unfold Uint64. f_equal. cbv beta iota delta [le_combine].
  rewrite Z.shiftl_0_l, Z.lor_0_r.
  repeat rewrite ?Z.shiftl_lor, ?Z.shiftl_shiftl by lia.
  reflexivity.
Qed.

Lemma Uint64_PutUint64 (v : Z) (rest : list byte) :
  is_uint64 v -> Uint64 (PutUint64 v ++ rest) = Some v.
Proof.
  intros H. unfold PutUint64. cbn [app]. rewrite Uint64_le_combine.
  change [byte.of_Z v; byte.of_Z (Z.shiftr v 8); byte.of_Z (Z.shiftr v 16);
          byte.of_Z (Z.shiftr v 24); byte.of_Z (Z.shiftr v 32);
          byte.of_Z (Z.shiftr v 40); byte.of_Z (Z.shiftr v 48);
          byte.of_Z (Z.shiftr v 56)] with (PutUint64 v).
  rewrite PutUint64_le_split, le_combine_split.
  f_equal. apply Z.mod_small. exact H.
Qed.

(** The [i]-th byte of the little-endian word is [v / 256^i mod 256]. *)
Lemma PutUint64_byte (v : Z) (i : nat) :
  (i < 8)%nat ->
  option_map byte.unsigned (nth_error (PutUint64 v) i)
  = Some (v / 2 ^ (8 * Z.of_nat i) mod 2 ^ 8).
Proof.
  intros Hi.
  do 8 (destruct i as [|i]; [cbn [PutUint64 nth_error option_map];
    rewrite byte.unsigned_of_Z; unfold byte.wrap;
    rewrite ?Z.shiftr_div_pow2 by lia; f_equal; f_equal;
    rewrite ?Z.div_1_r; reflexivity|]).
  lia.
Qed.

(* --------------------------------------------------------------------- *)
(** *** AccountDecoder *)
(* --------------------------------------------------------------------- *)

(** C2.  A blob of at least 752 bytes decodes (given that the derivation of
    the pool authority, which does not look at the blob, succeeds): the nonce
    is the byte at offset 8 and every identifier is the verbatim 32-byte
    slice at its offset, base vault 336, quote vault 368, base mint 400,
    quote mint 432, open orders 464, target orders 592, market 656, market
    program 688.  A shorter blob is rejected with the size error. *)
Theorem parsePoolAccount_decodes :
  forall (L : Library) (address : PublicKey) (data : list byte),
    ((752 <= List.length data)%nat ->
     forall authority nonce,
       FindProgramAddress L [AUTHORITY_AMM_SEED] (RAYDIUM_AMM_V4 L)
       = Some (authority, nonce) ->
       exists pool,
         parsePoolAccount L address data = Ok pool
         /\ Address pool = address
         /\ index data 8 = Some (Nonce pool)
         /\ field_at data 336 (BaseVault pool)
         /\ field_at data 368 (QuoteVault pool)
         /\ field_at data 400 (BaseMint pool)
         /\ field_at data 432 (QuoteMint pool)
         /\ field_at data 464 (OpenOrders pool)
         /\ field_at data 592 (TargetOrders pool)
         /\ field_at data 656 (Market pool)
         /\ field_at data 688 (MarketProgram pool)
         /\ Authority pool = authority)
    /\ ((List.length data < 752)%nat ->
        parsePoolAccount L address data = Err (InvalidPoolDataSize (List.length data))).
Proof.
  intros L address data. split.
  - intros Hlen authority nonce Hfind. unfold parsePoolAccount.
    destruct (Nat.ltb_spec (List.length data) 752) as [Hlt|_]; [lia|].
    rewrite Hfind. eexists. split; [reflexivity|].
    cbn [Address Nonce BaseVault QuoteVault BaseMint QuoteMint OpenOrders
         TargetOrders Market MarketProgram Authority newPool].
    split; [reflexivity|].
    split.
    { unfold index. apply nth_error_nth'. lia. }
    repeat match goal with
           | |- field_at _ _ _ /\ _ => split
           | |- field_at _ _ _ => apply (PublicKeyFromBytes_slice data); lia
           end.
    reflexivity.
  - intros Hlt. unfold parsePoolAccount.
    destruct (Nat.ltb_spec (List.length data) 752) as [_|Hge]; [reflexivity|lia].
Qed.

(** The library model against known answers: the SHA-256 digest of "abc",
    the first and last round constants, the curve constant
    [d = -121665/121666], and Base58 on the AMM program's address. *)
Example sha256_abc :
  SolanaGo.sha256 (list_byte_of_string "abc")
  = List.rev (le_split 32
      0xba7816bf8f01cfea414140de5dae2223b00361a396177a9cb410ff61f20015ad).
Proof. vm_compute. reflexivity. Qed.

Example sha256_constants :
  (nth 0 SolanaGo.K 0, nth 63 SolanaGo.K 0, nth 0 SolanaGo.H0 0)
  = (0x428a2f98, 0xc67178f2, 0x6a09e667).
Proof. vm_compute. reflexivity. Qed.

Example curve_constant :
  (SolanaGo.d * 121666 + 121665) mod SolanaGo.p = 0.
Proof. vm_compute. reflexivity. Qed.

Example base58_round_trip :
  SolanaGo.encode (RAYDIUM_AMM_V4 goLibrary)
  = "675kPX9MHTjS2zt1qfr1NYHuzeLXfQM9H24wFSUt1Mp8"%string
  /\ List.length (RAYDIUM_AMM_V4 goLibrary) = 32%nat.
Proof. split; vm_compute; reflexivity. Qed.

(** The authority that the library search derives on the program's own
    constants is the known Raydium V4 authority, found at bump 254. *)
Example authority_is_canonical :
  FindProgramAddress goLibrary [AUTHORITY_AMM_SEED] (RAYDIUM_AMM_V4 goLibrary)
  = Some (SolanaGo.key "5Q544fKrFoe6tsEbD7S8EmxGTJYAKtTVhAW5Q5pge4j1", Byte.xfe).
Proof. vm_compute. reflexivity. Qed.

Lemma parsePoolAccount_decodes_witness :
  exists pool,
    parsePoolAccount goLibrary demoPoolKey demoPoolData = Ok pool
    /\ BaseMint pool = WSOL_MINT goLibrary
    /\ QuoteMint pool = demoToken
    /\ Nonce pool = Byte.xfe.
Proof.
  edestruct (proj1 (parsePoolAccount_decodes goLibrary demoPoolKey demoPoolData))
    as [pool [Hp [_ [Hn [_ [_ [[Hb _] [[Hq _] _]]]]]]]].
  - apply Nat.leb_le. vm_compute. reflexivity.
  - vm_compute. reflexivity.
  - exists pool. split; [exact Hp|].
    split; [rewrite Hb; vm_compute; reflexivity|].
    split; [rewrite Hq; vm_compute; reflexivity|].
    vm_compute in Hn. injection Hn as Hn. symmetry. exact Hn.
Defined.

Lemma parsePoolAccount_amounts (L : Library) (address : PublicKey)
  (data : list byte) (pool : OnChainPool) :
  parsePoolAccount L address data = Ok pool ->
  BaseAmount pool = 0 /\ QuoteAmount pool = 0.
Proof.
  unfold parsePoolAccount.
  destruct (List.length data <? 752)%nat; [discriminate|].
  destruct (FindProgramAddress L [AUTHORITY_AMM_SEED] (RAYDIUM_AMM_V4 L))
    as [[authority nonce]|]; [|discriminate].
  intros H. injection H as <-. split; reflexivity.
Qed.

Lemma fetchVaultBalances_amounts (C : Client) (pool pool' : OnChainPool)
  (log : list RpcCall) :
  fetchVaultBalances C pool = (log, pool', None) ->
  exists b q,
    GetTokenAccountBalance C (BaseVault pool) = Some b
    /\ GetTokenAccountBalance C (QuoteVault pool) = Some q
    /\ ParseUint b = (BaseAmount pool', false)
    /\ ParseUint q = (QuoteAmount pool', false).
Proof.
  unfold fetchVaultBalances.
  destruct (GetTokenAccountBalance C (BaseVault pool)) as [b|]; [|discriminate].
  destruct (GetTokenAccountBalance C (QuoteVault pool)) as [q|]; [|discriminate].
  destruct (ParseUint b) as [bv berr] eqn:Eb.
  destruct berr; [discriminate|].
  destruct (ParseUint q) as [qv qerr] eqn:Eq.
  destruct qerr; [discriminate|].
  intros H. injection H as _ <-.
  exists b, q. repeat split; assumption.
Qed.

Lemma fetchMarketData_amounts (L : Library) (C : Client) (pool : OnChainPool) :
  BaseAmount (snd (fst (fetchMarketData L C pool))) = BaseAmount pool
  /\ QuoteAmount (snd (fst (fetchMarketData L C pool))) = QuoteAmount pool.
Proof.
  unfold fetchMarketData, marketFallback.
  destruct (IsZero (Market pool)); [split; reflexivity|].
  destruct (GetAccountInfo C (Market pool)) as [marketData|]; [|split; reflexivity].
  destruct (List.length marketData <? 388)%nat; [split; reflexivity|].
  destruct (45 <? List.length marketData)%nat; split; reflexivity.
Qed.

(** C9.  Whatever the blob holds, the pool that [parsePoolAccount] returns
    has both reserve amounts at zero; [fetchVaultBalances] then stores the
    parsed balances of the pool's two vaults, and [fetchMarketData] leaves
    the amounts as they are. *)
Theorem parsePoolAccount_reserves_not_from_blob :
  forall (L : Library) (address : PublicKey) (data : list byte) (pool : OnChainPool),
    parsePoolAccount L address data = Ok pool ->
    BaseAmount pool = 0
    /\ QuoteAmount pool = 0
    /\ (forall C log pool',
          fetchVaultBalances C pool = (log, pool', None) ->
          exists b q,
            GetTokenAccountBalance C (BaseVault pool) = Some b
            /\ GetTokenAccountBalance C (QuoteVault pool) = Some q
            /\ ParseUint b = (BaseAmount pool', false)
            /\ ParseUint q = (QuoteAmount pool', false))
    /\ (forall C,
          BaseAmount (snd (fst (fetchMarketData L C pool))) = 0
          /\ QuoteAmount (snd (fst (fetchMarketData L C pool))) = 0).
Proof.
  intros L address data pool Hp.
  destruct (parsePoolAccount_amounts L address data pool Hp) as [Hb Hq].
  split; [exact Hb|]. split; [exact Hq|]. split.
  - intros C log pool'. apply fetchVaultBalances_amounts.
  - intros C. destruct (fetchMarketData_amounts L C pool) as [H1 H2].
    rewrite H1, H2. split; assumption.
Qed.

Example parsePoolAccount_accepts_any_752_bytes :
  is_ok (parsePoolAccount goLibrary demoPoolKey (repeat Byte.xff 752)) = true.
Proof. vm_compute. reflexivity. Qed.

(** On the program's own constants the authority derivation succeeds, so
    every blob of at least 752 bytes decodes. *)
Lemma parsePoolAccount_succeeds_on_constants (address : PublicKey) (data : list byte) :
  (752 <= List.length data)%nat ->
  is_ok (parsePoolAccount goLibrary address data) = true.
Proof.
  intros Hlen.
  destruct (proj1 (parsePoolAccount_decodes goLibrary address data) Hlen
              _ _ authority_is_canonical) as [pool [E _]].
  rewrite E. reflexivity.
Qed.

(** The decoder kept in [main_working.go] does read the reserves from the
    blob. *)
Example Working_parsePoolAccount_reads_blob :
  option_map (fun pool => (Working.BaseAmount pool, Working.QuoteAmount pool))
    (match Working.parsePoolAccount demoPoolKey
             (repeat Byte.x00 685 ++ [Byte.x07] ++ repeat Byte.x00 7
              ++ [Byte.x09] ++ repeat Byte.x00 58) with
     | Ok pool => Some pool
     | Err _ => None
     end)
  = Some (7, 9).
Proof. vm_compute. reflexivity. Qed.

Lemma parsePoolAccount_reserves_not_from_blob_witness :
  exists pool,
    parsePoolAccount goLibrary demoPoolKey (repeat Byte.xff 752) = Ok pool
    /\ BaseAmount pool = 0 /\ QuoteAmount pool = 0.
Proof.
  pose proof parsePoolAccount_accepts_any_752_bytes as Hok.
  destruct (parsePoolAccount goLibrary demoPoolKey (repeat Byte.xff 752))
    as [pool|e] eqn:E; [|discriminate Hok].
  exists pool. split; [reflexivity|].
  destruct (parsePoolAccount_reserves_not_from_blob
              goLibrary demoPoolKey (repeat Byte.xff 752) pool E)
    as [Hb [Hq _]].
  split; assumption.
Defined.

(* --------------------------------------------------------------------- *)
(** *** InstructionCompiler: the payload *)
(* --------------------------------------------------------------------- *)

Lemma decode_swapInstructionData (amountIn minAmountOut : Z) :
  is_uint64 amountIn -> is_uint64 minAmountOut ->
  decodeSwapInstructionPayload (swapInstructionData amountIn minAmountOut)
  = Some (RAYDIUM_SWAP_INSTRUCTION, amountIn, minAmountOut).
Proof.
  intros Ha Hm. unfold decodeSwapInstructionPayload, swapInstructionData.
  change (List.length ([RAYDIUM_SWAP_INSTRUCTION] ++ PutUint64 amountIn
                       ++ PutUint64 minAmountOut) =? 17)%nat with true.
  cbn [app].
  change (firstn 8 (PutUint64 amountIn ++ PutUint64 minAmountOut))
    with (PutUint64 amountIn ++ []).
  change (skipn 8 (PutUint64 amountIn ++ PutUint64 minAmountOut))
    with (PutUint64 minAmountOut ++ []).
  rewrite !Uint64_PutUint64 by assumption. reflexivity.
Qed.

(** C3.  For unsigned 64-bit [amountIn] and [minAmountOut] the payload is 17
    bytes: byte 0 is the opcode 9, bytes 1-8 are [amountIn] and bytes 9-16
    are [minAmountOut], least significant byte first; reading the payload
    back gives the same (opcode, amountIn, minAmountOut); the Borsh encoding
    used in [raydium_swap.go] is the same byte string, and it is the data of
    the instruction that [createSwapInstruction] returns. *)
Theorem swapInstructionData_layout :
  forall amountIn minAmountOut : Z,
    is_uint64 amountIn -> is_uint64 minAmountOut ->
    let payload := swapInstructionData amountIn minAmountOut in
    List.length payload = 17%nat
    /\ nth_error payload 0 = Some RAYDIUM_SWAP_INSTRUCTION
    /\ slice payload 1 9 = PutUint64 amountIn
    /\ slice payload 9 17 = PutUint64 minAmountOut
    /\ (forall i, (i < 8)%nat ->
          option_map byte.unsigned (nth_error payload (1 + i))
          = Some (amountIn / 2 ^ (8 * Z.of_nat i) mod 2 ^ 8))
    /\ (forall i, (i < 8)%nat ->
          option_map byte.unsigned (nth_error payload (9 + i))
          = Some (minAmountOut / 2 ^ (8 * Z.of_nat i) mod 2 ^ 8))
    /\ decodeSwapInstructionPayload payload
       = Some (RAYDIUM_SWAP_INSTRUCTION, amountIn, minAmountOut)
    /\ borshSwapLayout amountIn minAmountOut = payload
    /\ (forall L pool userSource userDestination userOwner isBaseToQuote
               programID accounts data,
          createSwapInstruction L pool userSource userDestination userOwner
            amountIn minAmountOut isBaseToQuote
          = Ok (GenericInstruction programID accounts data) ->
          data = payload).
Proof.
  intros amountIn minAmountOut Ha Hm payload.
  split; [reflexivity|]. split; [reflexivity|].
  split; [reflexivity|]. split; [reflexivity|].
  split.
  { intros i Hi. subst payload. unfold swapInstructionData.
    cbn [app Nat.add nth_error].
    rewrite nth_error_app1 by (cbn; lia). apply PutUint64_byte. exact Hi. }
  split.
  { intros i Hi. subst payload. unfold swapInstructionData.
    replace (9 + i)%nat with (S (8 + i)) by lia.
    cbn [app nth_error].
    rewrite nth_error_app2 by (cbn; lia).
    replace (8 + i - List.length (PutUint64 amountIn))%nat with i by (cbn; lia).
    apply PutUint64_byte. exact Hi. }
  split; [apply decode_swapInstructionData; assumption|].
  split.
  { subst payload. unfold borshSwapLayout, swapInstructionData.
    rewrite (PutUint64_le_split amountIn), (PutUint64_le_split minAmountOut).
    reflexivity. }
  intros L pool us ud uo b pid accs data. unfold createSwapInstruction.
  destruct (marketVaultSigner L pool); [|discriminate].
  intros H. injection H as _ _ <-. reflexivity.
Qed.

Lemma swapInstructionData_layout_witness :
  decodeSwapInstructionPayload (swapInstructionData 1000000 99501)
  = Some (RAYDIUM_SWAP_INSTRUCTION, 1000000, 99501).
Proof.
  apply (swapInstructionData_layout 1000000 99501); unfold is_uint64; lia.
Defined.

Example swapInstructionData_bytes :
  swapInstructionData 1000000 99501
  = [Byte.x09;
     Byte.x40; Byte.x42; Byte.x0f; Byte.x00; Byte.x00; Byte.x00; Byte.x00; Byte.x00;
     Byte.xad; Byte.x84; Byte.x01; Byte.x00; Byte.x00; Byte.x00; Byte.x00; Byte.x00].
Proof. vm_compute. reflexivity. Qed.

(* --------------------------------------------------------------------- *)
(** *** InstructionCompiler: the account list *)
(* --------------------------------------------------------------------- *)


(* --------------------------------------------------------------------- *)
(** *** AddressDeriver *)
(* --------------------------------------------------------------------- *)

Section Derivation.

Variable create : list (list byte) -> PublicKey -> option PublicKey.
Variables (seeds : list (list byte)) (programID : PublicKey).

Let candidate (n : nat) : option PublicKey :=
  create (seeds ++ [[byte.of_Z (Z.of_nat n)]]) programID.

Lemma findBump_none (k : nat) :
  (forall m, (1 <= m <= k)%nat -> candidate m = None) ->
  SolanaGo.findBump create seeds programID k = None.
Proof.
  induction k as [|k IH]; intros Hnone; [reflexivity|].
  cbn [SolanaGo.findBump]. fold (candidate (S k)).
  rewrite (Hnone (S k)) by lia. apply IH. intros m Hm. apply Hnone. lia.
Qed.

Lemma findBump_top (k : nat) (address : PublicKey) :
  candidate (S k) = Some address ->
  SolanaGo.findBump create seeds programID (S k)
  = Some (address, byte.of_Z (Z.of_nat (S k))).
Proof.
  intros Hc. cbn [SolanaGo.findBump]. fold (candidate (S k)).
  rewrite Hc. reflexivity.
Qed.

Lemma findBump_largest (k : nat) (address : PublicKey) (bump : byte) :
  SolanaGo.findBump create seeds programID k = Some (address, bump) ->
  exists n, (1 <= n <= k)%nat
            /\ bump = byte.of_Z (Z.of_nat n)
            /\ candidate n = Some address
            /\ forall m, (n < m <= k)%nat -> candidate m = None.
Proof.
  induction k as [|k IH]; [discriminate|].
  cbn [SolanaGo.findBump]. fold (candidate (S k)).
  destruct (candidate (S k)) as [a|] eqn:Ec.
  - intros H. injection H as <- <-. exists (S k).
    split; [lia|]. split; [reflexivity|]. split; [exact Ec|].
    intros m Hm. lia.
  - intros H. destruct (IH H) as [n [Hn [Hb [Hc Hmax]]]].
    exists n. split; [lia|]. split; [exact Hb|]. split; [exact Hc|].
    intros m Hm. destruct (Nat.eq_dec m (S k)) as [->|Hne]; [exact Ec|].
    apply Hmax. lia.
Qed.

End Derivation.

Section VaultSigner.

Variable L : Library.
Variables market program : PublicKey.

Let candidate (n : nat) : option PublicKey :=
  CreateProgramAddress L [market; [byte.of_Z (Z.of_nat n)]] program.

Lemma tryNonces_none (start len : nat) :
  (forall m, (start <= m < start + len)%nat -> candidate m = None) ->
  tryNonces L market program (seq start len) = None.
Proof.
  revert start. induction len as [|len IH]; intros start Hnone; [reflexivity|].
  cbn [seq tryNonces]. fold (candidate start).
  rewrite (Hnone start) by lia. apply IH. intros m Hm. apply Hnone. lia.
Qed.

Lemma tryNonces_first (start len n : nat) (address : PublicKey) :
  (start <= n < start + len)%nat ->
  candidate n = Some address ->
  (forall m, (start <= m < n)%nat -> candidate m = None) ->
  tryNonces L market program (seq start len) = Some address.
Proof.
  revert start. induction len as [|len IH]; intros start Hn Hc Hbelow; [lia|].
  cbn [seq tryNonces]. fold (candidate start).
  destruct (Nat.eq_dec start n) as [->|Hne].
  - rewrite Hc. reflexivity.
  - rewrite (Hbelow start) by lia. apply IH; [lia|exact Hc|].
    intros m Hm. apply Hbelow. lia.
Qed.

End VaultSigner.

Lemma marketVaultSigner_gate (L : Library) (pool : OnChainPool) :
  IsZero (Market pool) = false ->
  PublicKeyString L (MarketProgram pool) = PublicKeyString L (OPENBOOK_PROGRAM L) ->
  marketVaultSigner L pool
  = match tryNonces L (Market pool) (MarketProgram pool) (seq 0 255) with
    | Some candidate => Ok candidate
    | None =>
        match FindProgramAddress L [Market pool] (MarketProgram pool) with
        | Some (signer, _) => Ok signer
        | None => Err VaultSignerFailed
        end
    end.
Proof.
  intros Hz Hs. unfold marketVaultSigner.
  rewrite Hz, Hs, String.eqb_refl. reflexivity.
Qed.

Lemma parsePoolAccount_authority (L : Library) (address : PublicKey)
  (data : list byte) (pool : OnChainPool) :
  parsePoolAccount L address data = Ok pool ->
  exists nonce,
    FindProgramAddress L [AUTHORITY_AMM_SEED] (RAYDIUM_AMM_V4 L)
    = Some (Authority pool, nonce).
Proof.
  unfold parsePoolAccount.
  destruct (List.length data <? 752)%nat; [discriminate|].
  destruct (FindProgramAddress L [AUTHORITY_AMM_SEED] (RAYDIUM_AMM_V4 L))
    as [[authority nonce]|]; [|discriminate].
  intros H. injection H as <-. exists nonce. reflexivity.
Qed.

(** C6 (as amended).  For a pool with an OpenBook market, the vault-signer
    loop of [createSwapInstruction] tries the nonces 0, 1, ..., 254 in
    increasing order and returns the first candidate that is off the curve:
    the address of the smallest such nonce.  Only when none of them is does
    it hand over to the library's [FindProgramAddress].  The pool authority
    is whatever that library search returns for the fixed seed.  With the
    search of solana-go, which counts the bump seed down from 255 to 1, the
    vault signer is the candidate of the smallest off-curve nonce of
    [0, 255], and the authority is the candidate of the largest off-curve
    bump of [1, 255]. *)
Theorem derivation_order :
  forall L : Library,
    (forall pool : OnChainPool,
        IsZero (Market pool) = false ->
        PublicKeyString L (MarketProgram pool)
        = PublicKeyString L (OPENBOOK_PROGRAM L) ->
        let candidate := fun n : nat =>
          CreateProgramAddress L [Market pool; [byte.of_Z (Z.of_nat n)]]
            (MarketProgram pool) in
        (forall n address,
            (n < 255)%nat -> candidate n = Some address ->
            (forall m, (m < n)%nat -> candidate m = None) ->
            marketVaultSigner L pool = Ok address)
        /\ ((forall n, (n < 255)%nat -> candidate n = None) ->
            marketVaultSigner L pool
            = match FindProgramAddress L [Market pool] (MarketProgram pool) with
              | Some (signer, _) => Ok signer
              | None => Err VaultSignerFailed
              end))
    /\ (forall address data pool,
          parsePoolAccount L address data = Ok pool ->
          exists nonce,
            FindProgramAddress L [AUTHORITY_AMM_SEED] (RAYDIUM_AMM_V4 L)
            = Some (Authority pool, nonce))
    /\ ((forall seeds programID,
            FindProgramAddress L seeds programID
            = SolanaGo.findBump (CreateProgramAddress L) seeds programID 255) ->
        (forall pool n address,
            IsZero (Market pool) = false ->
            PublicKeyString L (MarketProgram pool)
            = PublicKeyString L (OPENBOOK_PROGRAM L) ->
            (n < 256)%nat ->
            CreateProgramAddress L [Market pool; [byte.of_Z (Z.of_nat n)]]
              (MarketProgram pool) = Some address ->
            (forall m, (m < n)%nat ->
               CreateProgramAddress L [Market pool; [byte.of_Z (Z.of_nat m)]]
                 (MarketProgram pool) = None) ->
            marketVaultSigner L pool = Ok address)
        /\ (forall address data pool,
              parsePoolAccount L address data = Ok pool ->
              exists n,
                (1 <= n <= 255)%nat
                /\ CreateProgramAddress L
                     [AUTHORITY_AMM_SEED; [byte.of_Z (Z.of_nat n)]]
                     (RAYDIUM_AMM_V4 L) = Some (Authority pool)
                /\ forall m, (n < m <= 255)%nat ->
                     CreateProgramAddress L
                       [AUTHORITY_AMM_SEED; [byte.of_Z (Z.of_nat m)]]
                       (RAYDIUM_AMM_V4 L) = None)).
Proof.
  intros L.
  assert (Hloop : forall pool n address,
             IsZero (Market pool) = false ->
             PublicKeyString L (MarketProgram pool)
             = PublicKeyString L (OPENBOOK_PROGRAM L) ->
             (n < 255)%nat ->
             CreateProgramAddress L [Market pool; [byte.of_Z (Z.of_nat n)]]
               (MarketProgram pool) = Some address ->
             (forall m, (m < n)%nat ->
                CreateProgramAddress L [Market pool; [byte.of_Z (Z.of_nat m)]]
                  (MarketProgram pool) = None) ->
             marketVaultSigner L pool = Ok address).
  { intros pool n address Hz Hs Hn Hc Hbelow.
    rewrite marketVaultSigner_gate by assumption.
    rewrite (tryNonces_first L (Market pool) (MarketProgram pool) 0 255 n address);
      [reflexivity|lia|exact Hc|].
    intros m Hm. apply Hbelow. lia. }
  assert (Hrest : forall pool,
             IsZero (Market pool) = false ->
             PublicKeyString L (MarketProgram pool)
             = PublicKeyString L (OPENBOOK_PROGRAM L) ->
             (forall n, (n < 255)%nat ->
                CreateProgramAddress L [Market pool; [byte.of_Z (Z.of_nat n)]]
                  (MarketProgram pool) = None) ->
             marketVaultSigner L pool
             = match FindProgramAddress L [Market pool] (MarketProgram pool) with
               | Some (signer, _) => Ok signer
               | None => Err VaultSignerFailed
               end).
  { intros pool Hz Hs Hnone.
    rewrite marketVaultSigner_gate by assumption.
    rewrite (tryNonces_none L (Market pool) (MarketProgram pool) 0 255);
      [reflexivity|].
    intros m Hm. apply Hnone. lia. }
  split; [|split].
  - intros pool Hz Hs candidate. split.
    + intros n address Hn Hc Hbelow. apply (Hloop pool n address); assumption.
    + intros Hnone. apply Hrest; assumption.
  - apply parsePoolAccount_authority.
  - intros Hlib. split.
    + intros pool n address Hz Hs Hn Hc Hbelow.
      destruct (Nat.eq_dec n 255) as [->|Hne].
      * rewrite Hrest; [|assumption|assumption|exact Hbelow].
        rewrite Hlib.
        rewrite (findBump_top (CreateProgramAddress L) [Market pool]
                   (MarketProgram pool) 254 address); [reflexivity|exact Hc].
      * apply (Hloop pool n address); try assumption. lia.
    + intros address data pool Hp.
      destruct (parsePoolAccount_authority L address data pool Hp) as [nonce Hf].
      rewrite Hlib in Hf.
      destruct (findBump_largest _ _ _ _ _ _ Hf) as [n [Hn [_ [Hc Hmax]]]].
      exists n. split; [exact Hn|]. split; [exact Hc|exact Hmax].
Qed.

Lemma Some_eq {A : Type} (a b : A) : Some a = Some b -> a = b.
Proof. intros H. injection H as H. exact H. Qed.

(** The candidates of the demo market under the OpenBook program: nonce 0
    is on the curve, nonce 1 is off it. *)
Example demoMarket_candidates :
  CreateProgramAddress goLibrary [demoMarket; [byte.of_Z (Z.of_nat 0)]]
    (OPENBOOK_PROGRAM goLibrary) = None
  /\ CreateProgramAddress goLibrary [demoMarket; [byte.of_Z (Z.of_nat 1)]]
       (OPENBOOK_PROGRAM goLibrary)
     = Some (SolanaGo.key "E9MaMgDXQW522AgYowUhr42kCzhHKiuTdKCVwto1LWm8").
Proof. split; vm_compute; reflexivity. Qed.

Example demoMarketPool_gate :
  IsZero (Market demoMarketPool) = false.
Proof. vm_compute. reflexivity. Qed.

Lemma derivation_order_witness :
  marketVaultSigner goLibrary demoMarketPool
  = Ok (SolanaGo.key "E9MaMgDXQW522AgYowUhr42kCzhHKiuTdKCVwto1LWm8").
Proof.
  destruct demoMarket_candidates as [H0 H1].
  apply (proj1 (proj1 (derivation_order goLibrary) demoMarketPool
                  demoMarketPool_gate eq_refl)
               1%nat).
  - lia.
  - exact H1.
  - intros m Hm.
    destruct m as [|m]; [exact H0|lia].
Defined.

(** Nonce 6 is off the curve, and its candidate is not the authority. *)
Example authority_candidate_6 :
  CreateProgramAddress goLibrary
    [AUTHORITY_AMM_SEED; [byte.of_Z (Z.of_nat 6)]]
    (RAYDIUM_AMM_V4 goLibrary)
  = Some (SolanaGo.key "FfX7McsKNJJ9fYkKoKpRUquoeLp112tJkCEGMYfy7uW5")
  /\ Equals (SolanaGo.key "FfX7McsKNJJ9fYkKoKpRUquoeLp112tJkCEGMYfy7uW5")
            (SolanaGo.key "5Q544fKrFoe6tsEbD7S8EmxGTJYAKtTVhAW5Q5pge4j1")
     = false.
Proof. split; vm_compute; reflexivity. Qed.

(** C6 as stated fails for the pool authority: on the program's own
    constants the library search returns the authority with the bump 254,
    which is not the smallest nonce with an off-curve candidate, since
    nonce 6 has one (and it is a different address). *)
Lemma authority_nonce_not_smallest :
  ~ (forall address data pool,
        parsePoolAccount goLibrary address data = Ok pool ->
        exists nonce,
          FindProgramAddress goLibrary [AUTHORITY_AMM_SEED]
            (RAYDIUM_AMM_V4 goLibrary) = Some (Authority pool, nonce)
          /\ forall m, (Z.of_nat m < byte.unsigned nonce) ->
               CreateProgramAddress goLibrary
                 [AUTHORITY_AMM_SEED; [byte.of_Z (Z.of_nat m)]]
                 (RAYDIUM_AMM_V4 goLibrary) = None).
Proof.
  intros H.
  destruct (proj1 (parsePoolAccount_decodes goLibrary demoPoolKey
                     (repeat Byte.xff 752))
              (Nat.eq_le_incl _ _ (eq_sym (repeat_length Byte.xff 752)))
              _ _ authority_is_canonical)
    as [pool [E _]].
  destruct (H _ _ pool E) as [nonce [Hf Hmin]].
  rewrite authority_is_canonical in Hf.
  apply Some_eq in Hf. apply (f_equal snd) in Hf. cbn [snd] in Hf. subst nonce.
  destruct authority_candidate_6 as [F6 _].
  rewrite (Hmin 6%nat) in F6; [discriminate F6|].
  change (byte.unsigned Byte.xfe) with 254. lia.
Qed.

(* --------------------------------------------------------------------- *)
(** *** InstructionCompiler: the instruction sequence *)
(* --------------------------------------------------------------------- *)

Lemma bind_ok {A B : Type} (m : Rpc A) (f : A -> Rpc B) (b : B) :
  outcome (bind m f) = Ok b ->
  exists a, outcome m = Ok a /\ outcome (f a) = Ok b.
Proof.
  unfold outcome, bind. destruct m as [log [a|e]].
  - intros H. exists a. destruct (f a) as [log' r]. cbn [snd] in *.
    split; [reflexivity|exact H].
  - cbn [snd]. discriminate.
Qed.

Lemma getOrCreateATA_ok (L : Library) (C : Client) (wallet mint ata : PublicKey)
  (ix : option Instruction) :
  outcome (getOrCreateATA L C wallet mint) = Ok (ata, ix) ->
  ix = None \/ ix = Some (CreateATAInstruction wallet wallet mint).
Proof.
  unfold getOrCreateATA.
  destruct (FindAssociatedTokenAddress L wallet mint) as [a|]; [|discriminate].
  cbn [outcome snd]. destruct (GetAccountInfo C a); intros H; injection H as _ <-;
    [left|right]; reflexivity.
Qed.

Lemma isSwap_not_wrap (i : Instruction) : isSwap i = true -> isWrapStep i = false.
Proof. destruct i; cbn; congruence. Qed.

(** The instruction list of a sell, from the pieces [executeSwap] computes. *)
Lemma sell_sequence_shape (wallet sourceMint destinationMint destinationATA : PublicKey)
  (createSourceIx createDestIx : option Instruction) (swapIx : Instruction)
  (unwrap : bool) (instructions : list Instruction) :
  createSourceIx = None
  \/ createSourceIx = Some (CreateATAInstruction wallet wallet sourceMint) ->
  createDestIx = None
  \/ createDestIx = Some (CreateATAInstruction wallet wallet destinationMint) ->
  isSwap swapIx = true ->
  (if unwrap
   then (appendIfPresent (appendIfPresent [] createSourceIx) createDestIx
         ++ [swapIx]) ++ [CloseAccountInstruction destinationATA wallet wallet]
   else appendIfPresent (appendIfPresent [] createSourceIx) createDestIx
        ++ [swapIx]) = instructions ->
  exists createSource createDestination closeDestination,
    instructions
    = createSource ++ createDestination ++ [swapIx] ++ closeDestination
    /\ optional (CreateATAInstruction wallet wallet sourceMint) createSource
    /\ optional (CreateATAInstruction wallet wallet destinationMint)
         createDestination
    /\ isSwap swapIx = true
    /\ optional (CloseAccountInstruction destinationATA wallet wallet)
         closeDestination
    /\ forallb (fun i => negb (isWrapStep i)) instructions = true.
Proof.
  intros Hs Hd Hsw <-.
  pose proof (isSwap_not_wrap swapIx Hsw) as Hnw.
  exists (appendIfPresent [] createSourceIx), (appendIfPresent [] createDestIx),
         (if unwrap then [CloseAccountInstruction destinationATA wallet wallet]
          else []).
  split; [|split; [|split; [|split; [exact Hsw|split]]]].
  - destruct Hs as [->| ->], Hd as [->| ->], unwrap; reflexivity.
  - destruct Hs as [->| ->]; [left|right]; reflexivity.
  - destruct Hd as [->| ->]; [left|right]; reflexivity.
  - destruct unwrap; [right|left]; reflexivity.
  - destruct Hs as [->| ->], Hd as [->| ->], unwrap;
      cbn [appendIfPresent app forallb isWrapStep negb andb];
      rewrite Hnw; reflexivity.
Qed.

Lemma Ok_eq {A : Type} (a b : A) : outcome (ret a) = Ok b -> a = b.
Proof. unfold outcome, ret. cbn [snd]. intros H. injection H as H. exact H. Qed.

Lemma createSwapInstruction_isSwap (L : Library) (pool : OnChainPool)
  (us ud uo : PublicKey) (a m : Z) (b : bool) (ix : Instruction) :
  outcome (lift (createSwapInstruction L pool us ud uo a m b)) = Ok ix ->
  isSwap ix = true.
Proof.
  unfold outcome, lift, createSwapInstruction. cbn [snd].
  destruct (marketVaultSigner L pool); [|discriminate].
  intros H. injection H as <-. reflexivity.
Qed.

(** C8 (as amended).  A sell compiles to [optional create-source-account],
    [optional create-destination-account], [swap], [optional
    close-destination-account], and holds neither a native transfer nor a
    sync-native instruction. *)
Theorem executeSwap_sell_sequence :
  forall (L : Library) (C : Client) (wallet : PublicKey) (poolAddress : string)
         (amountIn : float) (minAmountOut : Z) (instructions : list Instruction),
    outcome (executeSwap L C wallet poolAddress "sell" amountIn minAmountOut)
    = Ok instructions ->
    exists sourceMint destinationMint destinationATA swapIx
           createSource createDestination closeDestination,
      instructions
      = createSource ++ createDestination ++ [swapIx] ++ closeDestination
      /\ optional (CreateATAInstruction wallet wallet sourceMint) createSource
      /\ optional (CreateATAInstruction wallet wallet destinationMint)
           createDestination
      /\ isSwap swapIx = true
      /\ optional (CloseAccountInstruction destinationATA wallet wallet)
           closeDestination
      /\ forallb (fun i => negb (isWrapStep i)) instructions = true.
Proof.
  intros L C wallet poolAddress amountIn minAmountOut instructions H.
  unfold executeSwap in H.
  apply bind_ok in H. destruct H as [poolPubkey [_ H]].
  apply bind_ok in H. destruct H as [data [_ H]].
  apply bind_ok in H. destruct H as [pool0 [_ H]].
  apply bind_ok in H. destruct H as [baseDecimals [_ H]].
  apply bind_ok in H. destruct H as [quoteDecimals [_ H]].
  apply bind_ok in H. destruct H as [pool1 [_ H]].
  apply bind_ok in H. destruct H as [pool [_ H]].
  change (String.eqb "sell" "buy") with false in H.
  change (String.eqb "sell" "sell") with true in H.
  destruct (isSol L (BaseMint pool)); cbv beta iota zeta in H;
    (apply bind_ok in H; destruct H as [[sourceATA createSourceIx] [Hs H]];
     cbv beta iota zeta in H;
     apply bind_ok in H; destruct H as [[destinationATA createDestIx] [Hd H]];
     cbv beta iota zeta in H;
     apply bind_ok in H; destruct H as [swapIx [Hsw H]];
     apply getOrCreateATA_ok in Hs; apply getOrCreateATA_ok in Hd;
     apply createSwapInstruction_isSwap in Hsw;
     rewrite andb_false_r, andb_true_r in H;
     apply Ok_eq in H;
     eexists _, _, _, _;
     exact (sell_sequence_shape _ _ _ _ _ _ _ _ _ Hs Hd Hsw H)).
Qed.

(** A sell of RAY on the demo pool, with neither associated account in
    place: both accounts are created before the swap. *)
Example demo_sell_run :
  match outcome (executeSwap goLibrary demoClient demoWallet demoPoolAddress
                   "sell" 1000 7) with
  | Ok instructions =>
      Some (map isCreateATA instructions, map isSwap instructions,
            map isClose instructions, claimedSellShape instructions)
  | Err _ => None
  end
  = Some ([true; true; false; false], [false; false; true; false],
          [false; false; false; true], false).
Proof. vm_compute. reflexivity. Qed.

Lemma executeSwap_sell_sequence_witness :
  exists instructions,
    outcome (executeSwap goLibrary demoClient demoWallet demoPoolAddress
               "sell" 1000 7) = Ok instructions
    /\ forallb (fun i => negb (isWrapStep i)) instructions = true.
Proof.
  pose proof demo_sell_run as R.
  destruct (outcome (executeSwap goLibrary demoClient demoWallet demoPoolAddress
                       "sell" 1000 7)) as [instructions|e] eqn:E;
    [|discriminate R].
  exists instructions. split; [reflexivity|].
  destruct (executeSwap_sell_sequence _ _ _ _ _ _ _ E)
    as [sm [dm [da [sw [cs [cd [cl [_ [_ [_ [_ [_ Hw]]]]]]]]]]]].
  exact Hw.
Defined.

(** C8 as stated fails: a sell can hold a create-destination-account
    instruction between the create-source-account and the swap. *)
Lemma executeSwap_sell_creates_destination :
  ~ (forall (L : Library) (C : Client) (wallet : PublicKey) (poolAddress : string)
            (amountIn : float) (minAmountOut : Z) (instructions : list Instruction),
        outcome (executeSwap L C wallet poolAddress "sell" amountIn minAmountOut)
        = Ok instructions ->
        claimedSellShape instructions = true).
Proof.
  intros H. pose proof demo_sell_run as R.
  destruct (outcome (executeSwap goLibrary demoClient demoWallet demoPoolAddress
                       "sell" 1000 7)) as [instructions|e] eqn:E;
    [|discriminate R].
  specialize (H _ _ _ _ _ _ _ E).
  apply Some_eq in R. apply (f_equal snd) in R. cbn [snd] in R.
  rewrite H in R. discriminate R.
Qed.

(* --------------------------------------------------------------------- *)
(** *** The command line *)
(* --------------------------------------------------------------------- *)

Lemma calls_bind {A B : Type} (m : Rpc A) (f : A -> Rpc B) :
  exists rest, calls (bind m f) = calls m ++ rest.
Proof.
  unfold calls, bind. destruct m as [log [a|e]].
  - destruct (f a) as [log' r]. exists log'. reflexivity.
  - exists []. cbn [fst]. rewrite app_nil_r. reflexivity.
Qed.

Lemma findPoolsOnChain_scans (L : Library) (C : Client) (tokenAddress : string)
  (tokenPubkey : PublicKey) :
  PublicKeyFromBase58 L tokenAddress = Some tokenPubkey ->
  exists rest,
    calls (findPoolsOnChain L C tokenAddress)
    = CallGetProgramAccounts (RAYDIUM_AMM_V4 L) 752 :: rest.
Proof.
  intros Hk. unfold findPoolsOnChain, fromBase58, lift. rewrite Hk.
  unfold bind at 1.
  destruct (calls_bind
              (rpcGetProgramAccounts C (RAYDIUM_AMM_V4 L) 752 GetProgramAccountsFailed)
              (fun accounts =>
                 let '(log, pools) := scanAccounts L C tokenPubkey accounts in
                 (log, match pools with
                       | [] => Err NoPoolsFound
                       | _ :: _ => Ok (selectBest L pools 0 None)
                       end))) as [rest Hrest].
  unfold calls in *.
  match goal with
  | |- context [let '(log', r) := ?m in _] => destruct m as [log' r]
  end.
  cbn [fst app] in *. rewrite Hrest. eexists. reflexivity.
Qed.

Lemma main_poolAddress_token (L : Library) (C : Client)
  (poolAddr tokenAddr : string) (amount : float) (side : string) :
  PrimFloat.eqb amount 0 = false ->
  side = "buy"%string \/ side = "sell"%string ->
  tokenAddr <> ""%string ->
  main_poolAddress L C poolAddr tokenAddr amount side
  = (pool <- findPoolsOnChain L C tokenAddr ;;
     match pool with
     | Some p => ret (Some (PublicKeyString L (Address p)))
     | None => fail Panic
     end).
Proof.
  intros Ha Hside Ht. unfold main_poolAddress. rewrite Ha.
  apply String.eqb_neq in Ht. rewrite Ht, andb_false_r.
  destruct Hside as [-> | ->]; reflexivity.
Qed.

(** C7 (as amended).  With a valid amount and side, a non-empty token
    address always wins: [main] runs the discovery scan for the token and
    quotes against the pool it finds, whatever pool address was given; the
    given pool address is used, without any request to the ledger, only when
    no token address is given. *)
Theorem main_token_takes_precedence :
  forall (L : Library) (C : Client) (poolAddr tokenAddr : string)
         (amount : float) (side : string),
    PrimFloat.eqb amount 0 = false ->
    side = "buy"%string \/ side = "sell"%string ->
    (tokenAddr <> ""%string ->
     main_poolAddress L C poolAddr tokenAddr amount side
     = main_poolAddress L C "" tokenAddr amount side
     /\ main_poolAddress L C poolAddr tokenAddr amount side
        = (pool <- findPoolsOnChain L C tokenAddr ;;
           match pool with
           | Some p => ret (Some (PublicKeyString L (Address p)))
           | None => fail Panic
           end)
     /\ (forall tokenPubkey,
           PublicKeyFromBase58 L tokenAddr = Some tokenPubkey ->
           exists rest,
             calls (main_poolAddress L C poolAddr tokenAddr amount side)
             = CallGetProgramAccounts (RAYDIUM_AMM_V4 L) 752 :: rest))
    /\ (tokenAddr = ""%string -> poolAddr <> ""%string ->
        main_poolAddress L C poolAddr tokenAddr amount side
        = ([], Ok (Some poolAddr))).
Proof.
  intros L C poolAddr tokenAddr amount side Ha Hside. split.
  - intros Ht.
    rewrite !(main_poolAddress_token L C _ tokenAddr amount side Ha Hside Ht).
    split; [reflexivity|]. split; [reflexivity|].
    intros tokenPubkey Hk.
    destruct (findPoolsOnChain_scans L C tokenAddr tokenPubkey Hk) as [rest Hrest].
    destruct (calls_bind (findPoolsOnChain L C tokenAddr)
                (fun pool => match pool with
                             | Some p => ret (Some (PublicKeyString L (Address p)))
                             | None => fail Panic
                             end)) as [rest' Hrest'].
    rewrite Hrest', Hrest. eexists. reflexivity.
  - intros -> Hp. unfold main_poolAddress. rewrite Ha.
    apply String.eqb_neq in Hp. rewrite Hp.
    destruct Hside as [-> | ->]; reflexivity.
Qed.

(** Both a pool and a token address on the command line: the scan runs and
    the quote goes to the discovered pool, not to the given one. *)
Example demo_main_run :
  (existsb isScan
     (calls (main_poolAddress goLibrary demoClient demoOtherPoolAddress
               demoTokenAddress 1 "buy")),
   outcome (main_poolAddress goLibrary demoClient demoOtherPoolAddress
              demoTokenAddress 1 "buy"))
  = (true, Ok (Some demoPoolAddress)).
Proof. vm_compute. reflexivity. Qed.

Lemma main_token_takes_precedence_witness :
  main_poolAddress goLibrary demoClient demoOtherPoolAddress demoTokenAddress 1 "buy"
  = main_poolAddress goLibrary demoClient "" demoTokenAddress 1 "buy".
Proof.
  refine (proj1 (proj1 (main_token_takes_precedence goLibrary demoClient
                          demoOtherPoolAddress demoTokenAddress 1%float
                          "buy"%string eq_refl (or_introl eq_refl)) _)).
  discriminate.
Defined.

(** C7 as stated fails: with both addresses given the pool address does not
    take precedence. *)
Lemma main_pool_does_not_take_precedence :
  ~ (forall (L : Library) (C : Client) (poolAddr tokenAddr : string)
            (amount : float) (side : string),
        PrimFloat.eqb amount 0 = false ->
        side = "buy"%string \/ side = "sell"%string ->
        poolAddr <> ""%string -> tokenAddr <> ""%string ->
        main_poolAddress L C poolAddr tokenAddr amount side
        = ([], Ok (Some poolAddr))).
Proof.
  intros H. pose proof demo_main_run as R.
  rewrite (H goLibrary demoClient demoOtherPoolAddress demoTokenAddress 1%float
             "buy"%string eq_refl (or_introl eq_refl)) in R;
    [|discriminate|discriminate].
  discriminate R.
Qed.

(* --------------------------------------------------------------------- *)
(** *** Amount conversion *)
(* --------------------------------------------------------------------- *)

(** C5.  Selling 1000 units of a token with 6 decimals through
    [ExecuteRaydiumSwap] gives the raw amount 6000, the amount times the
    decimal count, and not 1000 * 10^6; its buy path multiplies by 10^9,
    and the conversion of [main.go] gives 1000 * 10^6. *)
Theorem ExecuteRaydiumSwap_sell_amount :
  forall L : Library,
    ExecuteRaydiumSwap_amountInRaw L "sell" 1000 6 = 6000
    /\ 6000 <> 1000 * 10 ^ 6
    /\ ExecuteRaydiumSwap_amountInRaw L "buy" 1000 6 = 1000 * 10 ^ 9
    /\ toRawAmount goLibrary 1000 6 = 1000 * 10 ^ 6.
Proof.
  intros L.
  split; [vm_compute; reflexivity|].
  split; [lia|].
  split; vm_compute; reflexivity.
Qed.

(** The conversion truncates: 0.29 is stored as 0.28999999999999998, and
    times 100 it becomes 28. *)
Example toRawAmount_truncates :
  toRawAmount goLibrary 0x1.28f5c28f5c28fp-2 2 = 28.
Proof. vm_compute. reflexivity. Qed.

(* --------------------------------------------------------------------- *)
(** *** The slippage prompt *)
(* --------------------------------------------------------------------- *)

(** The prompt fails exactly when the trimmed line is not empty and either
    does not parse or parses to a value that compares below 0 or above
    100. *)
Lemma getSlippageFromUser_error_iff (L : Library) (text : string) :
  is_ok (getSlippageFromUser L (Some text)) = false
  <-> TrimSpace L text <> ""%string
      /\ (ParseFloat L (slippageText L text) = None
          \/ exists v, ParseFloat L (slippageText L text) = Some v
                       /\ (PrimFloat.ltb v 0 = true \/ PrimFloat.ltb 100 v = true)).
Proof.
  unfold getSlippageFromUser, parseFloat, slippageText.
  destruct (String.eqb_spec (TrimSpace L text) "") as [He|Hne].
  - cbn [is_ok]. split; [discriminate|]. intros [Hc _]. contradiction.
  - destruct (ParseFloat L (TrimSuffix (TrimSpace L (TrimSpace L text)) "%"))
      as [v|] eqn:Ep.
    + destruct (PrimFloat.ltb v 0) eqn:E0; cbn [orb is_ok].
      * split; [|reflexivity]. intros _. split; [exact Hne|].
        right. exists v. split; [reflexivity|left; exact E0].
      * destruct (PrimFloat.ltb 100 v) eqn:E1; cbn [is_ok].
        -- split; [|reflexivity]. intros _. split; [exact Hne|].
           right. exists v. split; [reflexivity|right; exact E1].
        -- split; [discriminate|].
           intros [_ [Hc|[v' [Hv [Hc|Hc]]]]]; [discriminate Hc| |];
             injection Hv as <-; congruence.
    + cbn [is_ok]. split; [|reflexivity]. intros _. split; [exact Hne|].
      left. reflexivity.
Qed.

(** C10.  The line "NaN" parses (to the float NaN), NaN compares neither
    below 0 nor above 100, and so both versions of the prompt return it
    without an error, although it does not lie in [0, 100]. *)
Theorem getSlippageFromUser_accepts_NaN :
  forall L : Library,
    ParseFloat L "NaN" = Some PrimFloat.nan ->
    getSlippageFromUser L (Some "NaN"%string) = Ok PrimFloat.nan
    /\ getSlippageFromUser_working L
         (String.append "NaN" (String (ascii_of_nat 10) EmptyString))
       = Ok PrimFloat.nan
    /\ PrimFloat.leb 0 PrimFloat.nan && PrimFloat.leb PrimFloat.nan 100 = false.
Proof.
  intros L Hnan.
  assert (Htrim : TrimSpace L "NaN" = "NaN"%string) by reflexivity.
  assert (Hline : TrimSpace L (String.append "NaN"
                                 (String (ascii_of_nat 10) EmptyString))
                  = "NaN"%string) by reflexivity.
  assert (Hsuffix : TrimSuffix "NaN" "%" = "NaN"%string) by reflexivity.
  split; [|split].
  - unfold getSlippageFromUser, parseFloat.
    rewrite !Htrim, Hsuffix, Hnan. reflexivity.
  - unfold getSlippageFromUser_working.
    rewrite Hline, Hsuffix, Hnan. reflexivity.
  - reflexivity.
Qed.

Lemma getSlippageFromUser_accepts_NaN_witness :
  getSlippageFromUser goLibrary (Some "NaN"%string) = Ok PrimFloat.nan.
Proof.
  exact (proj1 (getSlippageFromUser_accepts_NaN goLibrary eq_refl)).
Defined.

(** The rest of the prompt's behaviour, on the stand-in parser: an empty
    line and a missing line give the default, a percent sign is dropped,
    values outside [0, 100] and text are rejected. *)
Example getSlippageFromUser_samples :
  map (getSlippageFromUser goLibrary)
      [None; Some ""%string; Some "   "%string; Some " 2.5% "%string;
       Some "100"%string; Some "101"%string; Some "-1"%string; Some "abc"%string]
  = [Ok 0.5%float; Ok 0.5%float; Ok 0.5%float; Ok 2.5%float;
     Ok 100%float; Err SlippageOutOfRange; Err SlippageOutOfRange;
     Err InvalidSlippageValue].
Proof. vm_compute. reflexivity. Qed.

(* ===================================================================== *)
(** ** Further properties of the code *)
(* ===================================================================== *)

(* --------------------------------------------------------------------- *)
(** *** QuoteEngine: the product of the reserves *)
(* --------------------------------------------------------------------- *)

(** X1.  After a swap the product of the reserves is not smaller than
    before: with [out] the amount paid out,
    [(reserveIn + amountIn) * (reserveOut - out) >= reserveIn * reserveOut],
    and the rounding keeps less than one unit of the output token back
    (the product exceeds the old one by less than [reserveIn + amountIn]).
    The amount paid out lies between 0 and [reserveOut]. *)
Theorem calculateSwapAmount_keeps_product :
  forall reserveOut reserveIn amountIn,
    is_uint64 reserveOut -> is_uint64 reserveIn -> is_uint64 amountIn ->
    0 < reserveIn + amountIn ->
    exists out,
      calculateSwapAmount reserveOut reserveIn amountIn = Some out
      /\ 0 <= out <= reserveOut
      /\ reserveIn * reserveOut <= (reserveIn + amountIn) * (reserveOut - out)
      /\ (reserveIn + amountIn) * (reserveOut - out)
         < reserveIn * reserveOut + (reserveIn + amountIn).
Proof.
  intros ro ri a Ho Hi Ha Hd.
  pose proof Ho as Ho'. unfold is_uint64 in Ho', Hi, Ha.
  exists (ro * a / (ri + a)).
  split; [apply calculateSwapAmount_eq; auto; lia|].
  split; [apply swap_quotient_bound; lia|].
  pose proof (Z.mul_div_le (ro * a) (ri + a) Hd) as Hle.
  pose proof (Z.mul_succ_div_gt (ro * a) (ri + a) Hd) as Hgt.
  split; lia.
Qed.

Lemma calculateSwapAmount_keeps_product_witness :
  exists out,
    calculateSwapAmount 123456 5000000000 1000000000 = Some out
    /\ 5000000000 * 123456 <= (5000000000 + 1000000000) * (123456 - out).
Proof.
  destruct (calculateSwapAmount_keeps_product 123456 5000000000 1000000000)
    as [out [E [_ [H _]]]]; try (unfold is_uint64; lia).
  exists out. split; [exact E|exact H].
Defined.

(** X2.  Splitting an order does not pay: swapping [a] and then [b]
    against the reserves that the first swap leaves behind returns at most
    what one swap of [a + b] returns. *)
Theorem calculateSwapAmount_split :
  forall reserveOut reserveIn a b,
    is_uint64 reserveOut -> is_uint64 reserveIn -> is_uint64 a -> is_uint64 b ->
    is_uint64 (reserveIn + a) -> is_uint64 (a + b) -> 0 < reserveIn + a ->
    exists out1 out2 out,
      calculateSwapAmount reserveOut reserveIn a = Some out1
      /\ calculateSwapAmount (reserveOut - out1) (reserveIn + a) b = Some out2
      /\ calculateSwapAmount reserveOut reserveIn (a + b) = Some out
      /\ out1 + out2 <= out.
Proof.
  intros ro ri a b Ho Hi Ha Hb _ _ Hd.
  pose proof Ho as Ho'. unfold is_uint64 in Ho', Hi, Ha, Hb.
  pose proof (swap_quotient_bound ro ri a) as B1.
  set (out1 := ro * a / (ri + a)) in *.
  assert (H1 : 0 <= out1 <= ro) by (apply B1; lia).
  exists out1, ((ro - out1) * b / (ri + a + b)), (ro * (a + b) / (ri + (a + b))).
  split; [apply calculateSwapAmount_eq; auto; lia|].
  split; [apply calculateSwapAmount_eq; unfold is_uint64; lia|].
  split; [apply calculateSwapAmount_eq; auto; lia|].
  pose proof (Z.mul_div_le (ro * a) (ri + a) Hd) as Hle1. fold out1 in Hle1.
  assert (Hd2 : 0 < ri + a + b) by lia.
  pose proof (Z.mul_div_le ((ro - out1) * b) (ri + a + b) Hd2) as Hle2.
  set (out2 := (ro - out1) * b / (ri + a + b)) in *.
  apply Z.div_le_lower_bound; [lia|].
  lia.
Qed.

Lemma calculateSwapAmount_split_witness :
  exists out1 out2 out,
    calculateSwapAmount 123456 5000000000 600000000 = Some out1
    /\ calculateSwapAmount (123456 - out1) (5000000000 + 600000000) 400000000
       = Some out2
    /\ calculateSwapAmount 123456 5000000000 (600000000 + 400000000) = Some out
    /\ out1 + out2 <= out.
Proof.
  apply (calculateSwapAmount_split 123456 5000000000 600000000 400000000);
    unfold is_uint64; lia.
Defined.

(* --------------------------------------------------------------------- *)
(** *** AccountDecoder: what the decoders read *)
(* --------------------------------------------------------------------- *)

Lemma slice_ext (d1 d2 : list byte) (lo hi : nat) :
  (lo <= hi)%nat -> (hi <= List.length d1)%nat -> (hi <= List.length d2)%nat ->
  (forall i, (lo <= i < hi)%nat -> nth_error d1 i = nth_error d2 i) ->
  slice d1 lo hi = slice d2 lo hi.
Proof.
  intros Hlo H1 H2 Hext.
  apply nth_error_ext. intros i.
  destruct (Nat.lt_ge_cases i (hi - lo)) as [Hi|Hi].
  - rewrite !slice_nth_error by exact Hi. apply Hext. lia.
  - rewrite (proj2 (nth_error_None _ _)) by (rewrite slice_length; lia).
    rewrite (proj2 (nth_error_None _ _)) by (rewrite slice_length; lia).
    reflexivity.
Qed.

Lemma nth_ext_at (d1 d2 : list byte) (i : nat) :
  nth_error d1 i = nth_error d2 i -> nth i d1 Byte.x00 = nth i d2 Byte.x00.
Proof.
  intros H. rewrite <- !nth_default_eq. unfold nth_default. rewrite H. reflexivity.
Qed.

Lemma poolBytesRead_spec (i : nat) :
  poolBytesRead i = true
  <-> (i = 8 \/ 336 <= i < 496 \/ 592 <= i < 624 \/ 656 <= i < 720)%nat.
Proof.
  unfold poolBytesRead.
  rewrite !orb_true_iff, !andb_true_iff, Nat.eqb_eq, !Nat.leb_le, !Nat.ltb_lt.
  lia.
Qed.

(** X3.  [parsePoolAccount] looks at byte 8 and at the bytes 336-495,
    592-623 and 656-719 only: two blobs of at least 752 bytes that agree
    there decode to the same result, whatever their other bytes and their
    lengths are. *)
Theorem parsePoolAccount_reads_only :
  forall (L : Library) (address : PublicKey) (d1 d2 : list byte),
    (752 <= List.length d1)%nat -> (752 <= List.length d2)%nat ->
    (forall i, poolBytesRead i = true -> nth_error d1 i = nth_error d2 i) ->
    parsePoolAccount L address d1 = parsePoolAccount L address d2.
Proof.
  intros L address d1 d2 H1 H2 Hext.
  assert (Hs : forall lo hi,
             (336 <= lo /\ lo <= hi <= 496 \/ 592 <= lo /\ lo <= hi <= 624
              \/ 656 <= lo /\ lo <= hi <= 720)%nat ->
             slice d1 lo hi = slice d2 lo hi).
  { intros lo hi Hlo. apply slice_ext; try lia.
    intros i Hi. apply Hext, poolBytesRead_spec. lia. }
  unfold parsePoolAccount.
  destruct (Nat.ltb_spec (List.length d1) 752) as [Hlt|_]; [lia|].
  destruct (Nat.ltb_spec (List.length d2) 752) as [Hlt|_]; [lia|].
  rewrite (nth_ext_at d1 d2 8) by (apply Hext; reflexivity).
  rewrite (Hs 336%nat 368%nat) by lia. rewrite (Hs 368%nat 400%nat) by lia.
  rewrite (Hs 400%nat 432%nat) by lia. rewrite (Hs 432%nat 464%nat) by lia.
  rewrite (Hs 464%nat 496%nat) by lia. rewrite (Hs 592%nat 624%nat) by lia.
  rewrite (Hs 656%nat 688%nat) by lia. rewrite (Hs 688%nat 720%nat) by lia.
  reflexivity.
Qed.

Lemma parsePoolAccount_reads_only_witness :
  parsePoolAccount goLibrary demoPoolKey (repeat Byte.xff 752)
  = parsePoolAccount goLibrary demoPoolKey (repeat Byte.xff 752 ++ [Byte.x01; Byte.x02]).
Proof.
  apply parsePoolAccount_reads_only.
  - rewrite repeat_length. lia.
  - rewrite length_app, repeat_length. cbn. lia.
  - intros i Hi. symmetry. apply nth_error_app1.
    rewrite repeat_length. apply poolBytesRead_spec in Hi. lia.
Defined.

Lemma Uint64_range (b : list byte) (v : Z) : Uint64 b = Some v -> is_uint64 v.
Proof.
  destruct b as [|b0 [|b1 [|b2 [|b3 [|b4 [|b5 [|b6 [|b7 rest]]]]]]]];
    try discriminate.
  rewrite Uint64_le_combine. intros H. injection H as <-.
  pose proof (le_combine_bound [b0; b1; b2; b3; b4; b5; b6; b7]) as B.
  exact B.
Qed.

Lemma Working_word_range (data : list byte) (lo : nat) :
  is_uint64 (Working.word data lo).
Proof.
  unfold Working.word.
  destruct (Uint64 (slice data lo (lo + 8))) as [v|] eqn:E.
  - exact (Uint64_range _ _ E).
  - unfold is_uint64. lia.
Qed.

(** X4.  The decoder of [main_working.go] accepts every blob of at least 752
    bytes; it copies the mints from offsets 400 and 432 and the vaults from
    offsets 496 and 528, and takes the two reserves, as unsigned 64-bit
    little-endian words, from the first of the offset pairs (685, 693),
    (85, 93) in which neither word exceeds 10^18, and from (465, 473),
    unchecked, when neither pair qualifies. *)
Theorem Working_parsePoolAccount_reserves :
  forall (address : PublicKey) (data : list byte),
    (752 <= List.length data)%nat ->
    exists pool,
      Working.parsePoolAccount address data = Ok pool
      /\ Working.Address pool = address
      /\ field_at data 400 (Working.BaseMint pool)
      /\ field_at data 432 (Working.QuoteMint pool)
      /\ field_at data 496 (Working.BaseVault pool)
      /\ field_at data 528 (Working.QuoteVault pool)
      /\ is_uint64 (Working.BaseAmount pool)
      /\ is_uint64 (Working.QuoteAmount pool)
      /\ let plausible := fun lo : nat =>
           Working.word data lo <= 10 ^ 18 /\ Working.word data (lo + 8) <= 10 ^ 18 in
         let readAt := fun lo : nat =>
           Working.BaseAmount pool = Working.word data lo
           /\ Working.QuoteAmount pool = Working.word data (lo + 8) in
         (plausible 685%nat /\ readAt 685%nat)
         \/ (~ plausible 685%nat /\ plausible 85%nat /\ readAt 85%nat)
         \/ (~ plausible 685%nat /\ ~ plausible 85%nat /\ readAt 465%nat).
Proof.
  intros address data Hlen. unfold Working.parsePoolAccount.
  destruct (Nat.ltb_spec (List.length data) 752) as [Hlt|_]; [lia|].
  pose proof (Working_word_range data 685) as R1.
  pose proof (Working_word_range data 693) as R2.
  pose proof (Working_word_range data 85) as R3.
  pose proof (Working_word_range data 93) as R4.
  pose proof (Working_word_range data 465) as R5.
  pose proof (Working_word_range data 473) as R6.
  assert (Hsplit : forall a b, (10 ^ 18 <? a) || (10 ^ 18 <? b) = false
                               <-> a <= 10 ^ 18 /\ b <= 10 ^ 18).
  { intros a b. rewrite orb_false_iff, !Z.ltb_ge. reflexivity. }
  destruct ((10 ^ 18 <? Working.word data 685) || (10 ^ 18 <? Working.word data 693))
    eqn:E1.
  - destruct ((10 ^ 18 <? Working.word data 85) || (10 ^ 18 <? Working.word data 93))
      eqn:E2.
    + eexists. split; [reflexivity|].
      cbn [Working.Address Working.BaseMint Working.QuoteMint Working.BaseVault
           Working.QuoteVault Working.BaseAmount Working.QuoteAmount].
      split; [reflexivity|].
      do 4 (split; [apply (PublicKeyFromBytes_slice data); lia|]).
      split; [exact R5|]. split; [exact R6|].
      right. right. split.
      { intros Hp. apply Hsplit in Hp. cbn [Nat.add] in Hp. congruence. }
      split; [|split; reflexivity].
      intros Hp. apply Hsplit in Hp. cbn [Nat.add] in Hp. congruence.
    + eexists. split; [reflexivity|].
      cbn [Working.Address Working.BaseMint Working.QuoteMint Working.BaseVault
           Working.QuoteVault Working.BaseAmount Working.QuoteAmount].
      split; [reflexivity|].
      do 4 (split; [apply (PublicKeyFromBytes_slice data); lia|]).
      split; [exact R3|]. split; [exact R4|].
      right. left. split.
      { intros Hp. apply Hsplit in Hp. cbn [Nat.add] in Hp. congruence. }
      split; [apply Hsplit; exact E2|split; reflexivity].
  - eexists. split; [reflexivity|].
    cbn [Working.Address Working.BaseMint Working.QuoteMint Working.BaseVault
         Working.QuoteVault Working.BaseAmount Working.QuoteAmount].
    split; [reflexivity|].
    do 4 (split; [apply (PublicKeyFromBytes_slice data); lia|]).
    split; [exact R1|]. split; [exact R2|].
    left. split; [apply Hsplit; exact E1|split; reflexivity].
Qed.

Lemma Working_parsePoolAccount_reserves_witness :
  exists pool,
    Working.parsePoolAccount demoPoolKey (repeat Byte.xff 752) = Ok pool
    /\ is_uint64 (Working.BaseAmount pool).
Proof.
  destruct (Working_parsePoolAccount_reserves demoPoolKey (repeat Byte.xff 752))
    as [pool [E [_ [_ [_ [_ [_ [R _]]]]]]]].
  - rewrite repeat_length. lia.
  - exists pool. split; [exact E|exact R].
Defined.

(* --------------------------------------------------------------------- *)
(** *** Vault balances and decimals *)
(* --------------------------------------------------------------------- *)

Lemma digit_value_range (c : ascii) (d : Z) :
  digit_value c = Some d -> 0 <= d <= 9.
Proof.
  unfold digit_value.
  destruct (Z.leb_spec 48 (Z.of_nat (nat_of_ascii c))) as [Hlo|Hlo];
    destruct (Z.leb_spec (Z.of_nat (nat_of_ascii c)) 57) as [Hhi|Hhi];
    cbn [andb]; intros H; inversion H; lia.
Qed.

Lemma decimalValue_ge (s : string) (acc v : Z) :
  0 <= acc -> decimalValue s acc = Some v -> acc <= v.
Proof.
  revert acc. induction s as [|c rest IH]; intros acc Hacc; cbn [decimalValue].
  - intros H. inversion H. lia.
  - destruct (digit_value c) as [d|] eqn:Ed; [|discriminate].
    apply digit_value_range in Ed. intros H. apply IH in H; lia.
Qed.

Lemma ParseUint_loop_range (s : string) (n : Z) :
  is_uint64 n -> is_uint64 (fst (ParseUint_loop s n)).
Proof.
  unfold is_uint64. revert n.
  induction s as [|c rest IH]; intros n Hn; cbn [ParseUint_loop].
  - exact Hn.
  - destruct (digit_value c) as [d|] eqn:Ed; [|cbn; lia].
    apply digit_value_range in Ed.
    destruct (Z.leb_spec ((2 ^ 64 - 1) / 10 + 1) n); [cbn; lia|].
    destruct (Z.ltb_spec (2 ^ 64 - 1) (n * 10 + d)); [cbn; lia|].
    apply IH. lia.
Qed.

Lemma ParseUint_range (s : string) : is_uint64 (fst (ParseUint s)).
Proof.
  destruct s as [|c rest]; [cbn; unfold is_uint64; lia|].
  apply ParseUint_loop_range. unfold is_uint64. lia.
Qed.

Lemma ParseUint_loop_decimal (s : string) (n v : Z) :
  is_uint64 n ->
  (ParseUint_loop s n = (v, false) <-> decimalValue s n = Some v /\ v < 2 ^ 64).
Proof.
  unfold is_uint64. revert n.
  induction s as [|c rest IH]; intros n Hn; cbn [ParseUint_loop decimalValue].
  - split.
    + intros H. inversion H. subst. split; [reflexivity|lia].
    + intros [H _]. inversion H. reflexivity.
  - destruct (digit_value c) as [d|] eqn:Ed.
    + pose proof (digit_value_range c d Ed) as Hd.
      assert (Hcut : (2 ^ 64 - 1) / 10 + 1 = 1844674407370955162) by reflexivity.
      destruct (Z.leb_spec ((2 ^ 64 - 1) / 10 + 1) n) as [Hge|Hlt].
      * split; [discriminate|]. intros [H Hv].
        apply decimalValue_ge in H; lia.
      * destruct (Z.ltb_spec (2 ^ 64 - 1) (n * 10 + d)) as [Hov|Hfit].
        -- split; [discriminate|]. intros [H Hv].
           apply decimalValue_ge in H; lia.
        -- apply IH. lia.
    + split; [discriminate|]. intros [H _]. discriminate H.
Qed.

(** [strconv.ParseUint(s, 10, 64)] succeeds exactly on the non-empty strings
    of decimal digits whose value is below 2^64, and returns that value. *)
Lemma ParseUint_decimal (s : string) (v : Z) :
  ParseUint s = (v, false)
  <-> s <> EmptyString /\ decimalValue s 0 = Some v /\ v < 2 ^ 64.
Proof.
  destruct s as [|c rest].
  - cbn [ParseUint]. split; [discriminate|]. intros [H _]. contradiction.
  - unfold ParseUint.
    rewrite (ParseUint_loop_decimal (String c rest) 0 v) by (unfold is_uint64; lia).
    split; [intros H; split; [discriminate|exact H]|intros [_ H]; exact H].
Qed.

Lemma fetchVaultBalances_same (C : Client) (pool : OnChainPool) :
  sameButAmounts pool (snd (fst (fetchVaultBalances C pool))).
Proof.
  unfold fetchVaultBalances, sameButAmounts.
  destruct (GetTokenAccountBalance C (BaseVault pool)) as [b|];
    [|destruct pool; reflexivity].
  destruct (GetTokenAccountBalance C (QuoteVault pool)) as [q|];
    [|destruct pool; reflexivity].
  destruct (ParseUint b) as [bv berr].
  destruct berr; [destruct pool; reflexivity|].
  destruct (ParseUint q) as [qv qerr].
  destruct qerr; destruct pool; reflexivity.
Qed.

(** X5.  When [fetchVaultBalances] succeeds it has asked for the balance of
    the base vault and then of the quote vault, both replies are non-empty
    strings of decimal digits, the two amounts of the pool are their values,
    both below 2^64, and no other field of the pool has changed. *)
Theorem fetchVaultBalances_stores_balances :
  forall (C : Client) (pool pool' : OnChainPool) (log : list RpcCall),
    fetchVaultBalances C pool = (log, pool', None) ->
    exists baseAmount quoteAmount,
      GetTokenAccountBalance C (BaseVault pool) = Some baseAmount
      /\ GetTokenAccountBalance C (QuoteVault pool) = Some quoteAmount
      /\ baseAmount <> EmptyString /\ quoteAmount <> EmptyString
      /\ decimalValue baseAmount 0 = Some (BaseAmount pool')
      /\ decimalValue quoteAmount 0 = Some (QuoteAmount pool')
      /\ is_uint64 (BaseAmount pool') /\ is_uint64 (QuoteAmount pool')
      /\ sameButAmounts pool pool'
      /\ log = [CallGetTokenAccountBalance (BaseVault pool);
                CallGetTokenAccountBalance (QuoteVault pool)].
Proof.
  intros C pool pool' log H.
  destruct (fetchVaultBalances_amounts C pool pool' log H)
    as [b [q [Hb [Hq [Pb Pq]]]]].
  exists b, q.
  pose proof (ParseUint_range b) as Rb. rewrite Pb in Rb. cbn [fst] in Rb.
  pose proof (ParseUint_range q) as Rq. rewrite Pq in Rq. cbn [fst] in Rq.
  apply ParseUint_decimal in Pb. destruct Pb as [Nb [Db _]].
  apply ParseUint_decimal in Pq. destruct Pq as [Nq [Dq _]].
  split; [exact Hb|]. split; [exact Hq|].
  split; [exact Nb|]. split; [exact Nq|].
  split; [exact Db|]. split; [exact Dq|].
  split; [exact Rb|]. split; [exact Rq|].
  unfold fetchVaultBalances in H. rewrite Hb, Hq in H.
  destruct (ParseUint b) as [bv berr]. destruct berr; [discriminate H|].
  destruct (ParseUint q) as [qv qerr]. destruct qerr; [discriminate H|].
  inversion H. subst. split; [destruct pool; reflexivity|reflexivity].
Qed.

Example demo_fetchVaultBalances :
  fetchVaultBalances demoClient demoVaultPool
  = ([CallGetTokenAccountBalance demoBaseVault;
      CallGetTokenAccountBalance demoQuoteVault],
     demoVaultPool <| BaseAmount := 5000000000 |> <| QuoteAmount := 123456 |>,
     None).
Proof. vm_compute. reflexivity. Qed.

Lemma fetchVaultBalances_stores_balances_witness :
  exists baseAmount quoteAmount,
    GetTokenAccountBalance demoClient (BaseVault demoVaultPool) = Some baseAmount
    /\ GetTokenAccountBalance demoClient (QuoteVault demoVaultPool) = Some quoteAmount
    /\ decimalValue baseAmount 0 = Some 5000000000
    /\ decimalValue quoteAmount 0 = Some 123456.
Proof.
  destruct (fetchVaultBalances_stores_balances _ _ _ _ demo_fetchVaultBalances)
    as [b [q [Hb [Hq [_ [_ [Db [Dq _]]]]]]]].
  exists b, q. split; [exact Hb|]. split; [exact Hq|].
  split; [exact Db|exact Dq].
Defined.


(** X7.  A decimals value returned by [getTokenDecimals] is either 9, for
    the address of the SOL or wrapped SOL mint and without any request, or
    byte 44 of the mint account, which was fetched with one request and
    holds at least 82 bytes. *)
Theorem getTokenDecimals_result :
  forall (L : Library) (C : Client) (mintAddress : string) (decimals : byte),
    outcome (getTokenDecimals L C mintAddress) = Ok decimals ->
    ((mintAddress = PublicKeyString L (WSOL_MINT L)
      \/ mintAddress = PublicKeyString L (SOL_MINT L))
     /\ decimals = byte.of_Z 9
     /\ calls (getTokenDecimals L C mintAddress) = [])
    \/ (exists mintPubkey mintData,
          PublicKeyFromBase58 L mintAddress = Some mintPubkey
          /\ GetAccountInfo C mintPubkey = Some mintData
          /\ (82 <= List.length mintData)%nat
          /\ index mintData 44 = Some decimals
          /\ calls (getTokenDecimals L C mintAddress)
             = [CallGetAccountInfo mintPubkey]).
Proof.
  intros L C mintAddress decimals. unfold getTokenDecimals.
  destruct (String.eqb_spec mintAddress (PublicKeyString L (WSOL_MINT L))) as [Ew|_].
  { cbn [orb]. intros H. apply Ok_eq in H. left.
    split; [left; exact Ew|]. split; [symmetry; exact H|reflexivity]. }
  destruct (String.eqb_spec mintAddress (PublicKeyString L (SOL_MINT L))) as [Es|_].
  { cbn [orb]. intros H. apply Ok_eq in H. left.
    split; [right; exact Es|]. split; [symmetry; exact H|reflexivity]. }
  cbn [orb]. intros H. right.
  destruct (PublicKeyFromBase58 L mintAddress) as [k|] eqn:Ek; [|discriminate H].
  unfold lift, bind, rpcGetAccountInfo, outcome, calls in *.
  destruct (GetAccountInfo C k) as [data|] eqn:Eg; [|discriminate H].
  destruct (Nat.ltb_spec (List.length data) 82) as [Hlt|Hge]; [discriminate H|].
  cbn in H. inversion H. exists k, data.
  split; [reflexivity|]. split; [exact Eg|]. split; [exact Hge|].
  split; [|reflexivity]. unfold index. apply nth_error_nth'. lia.
Qed.

Example demo_getTokenDecimals :
  outcome (getTokenDecimals goLibrary demoClient demoTokenAddress) = Ok Byte.x06.
Proof. vm_compute. reflexivity. Qed.

Lemma getTokenDecimals_result_witness :
  exists mintPubkey mintData,
    GetAccountInfo demoClient mintPubkey = Some mintData
    /\ index mintData 44 = Some Byte.x06.
Proof.
  destruct (getTokenDecimals_result _ _ _ _ demo_getTokenDecimals)
    as [[_ [H9 _]]|[k [data [_ [Hg [_ [Hi _]]]]]]].
  - discriminate H9.
  - exists k, data. split; [exact Hg|exact Hi].
Defined.

(* --------------------------------------------------------------------- *)
(** *** Market accounts *)
(* --------------------------------------------------------------------- *)

(** X8.  For a pool with a market whose account holds at least 388 bytes,
    [fetchMarketData] makes one request and succeeds; the market vaults are
    the 32-byte slices at offsets 84 and 116 of the market account, bids
    and asks those at 316 and 348, the event queue that at 252, the market
    nonce is byte 45, and nothing else in the pool changes. *)
Theorem fetchMarketData_decodes :
  forall (L : Library) (C : Client) (pool : OnChainPool) (marketData : list byte),
    IsZero (Market pool) = false ->
    GetAccountInfo C (Market pool) = Some marketData ->
    (388 <= List.length marketData)%nat ->
    exists pool',
      fetchMarketData L C pool = ([CallGetAccountInfo (Market pool)], pool', None)
      /\ field_at marketData 84 (MarketBaseVault pool')
      /\ field_at marketData 116 (MarketQuoteVault pool')
      /\ field_at marketData 316 (MarketBids pool')
      /\ field_at marketData 348 (MarketAsks pool')
      /\ field_at marketData 252 (MarketEventQueue pool')
      /\ index marketData 45 = Some (MarketNonce pool')
      /\ sameButMarketAccounts pool pool'.
Proof.
  intros L C pool marketData Hz Hget Hlen. unfold fetchMarketData.
  rewrite Hz, Hget.
  destruct (Nat.ltb_spec (List.length marketData) 388) as [Hlt|_]; [lia|].
  destruct (Nat.ltb_spec 45 (List.length marketData)) as [_|Hge]; [|lia].
  eexists. split; [reflexivity|].
  cbn [MarketBaseVault MarketQuoteVault MarketBids MarketAsks MarketEventQueue
       MarketNonce].
  repeat match goal with
         | |- field_at _ _ _ /\ _ => split
         | |- field_at _ _ _ => apply (PublicKeyFromBytes_slice marketData); lia
         end.
  split.
  - unfold index. apply nth_error_nth'. lia.
  - destruct pool. reflexivity.
Qed.

Lemma fetchMarketData_decodes_witness :
  exists pool',
    fetchMarketData goLibrary demoMarketClient demoMarketPool
    = ([CallGetAccountInfo (Market demoMarketPool)], pool', None)
    /\ index (repeat Byte.x07 400) 45 = Some (MarketNonce pool').
Proof.
  destruct (fetchMarketData_decodes goLibrary demoMarketClient demoMarketPool
              (repeat Byte.x07 400)) as [pool' [E [_ [_ [_ [_ [_ [Hn _]]]]]]]].
  - exact demoMarketPool_gate.
  - vm_compute. reflexivity.
  - rewrite repeat_length. lia.
  - exists pool'. split; [exact E|exact Hn].
Defined.

Lemma orFallback_same (L : Library) (C : Client) (pool pool' : OnChainPool) :
  outcome (orFallback L (fetchMarketData L C pool)) = Ok pool' ->
  sameButMarketAccounts pool pool'.
Proof.
  unfold fetchMarketData, orFallback, outcome, sameButMarketAccounts.
  destruct (IsZero (Market pool)).
  { cbn [snd]. intros H. injection H as <-. destruct pool. reflexivity. }
  destruct (GetAccountInfo C (Market pool)) as [marketData|].
  2:{ cbn [snd]. intros H. injection H as <-. destruct pool. reflexivity. }
  destruct (List.length marketData <? 388)%nat.
  { cbn [snd]. intros H. injection H as <-. destruct pool. reflexivity. }
  destruct (45 <? List.length marketData)%nat;
    cbn [snd]; intros H; injection H as <-; destruct pool; reflexivity.
Qed.

(** X9.  The market step of [executeSwap] cannot fail: [fetchMarketData]
    followed by the fallback always yields a pool, with at most one request
    (for the market account), that differs from the pool before at most in
    the market accounts.  When the pool has no market, the market account
    cannot be fetched, or it holds fewer than 388 bytes, the market vaults
    are the pool's own vaults and bids, asks and event queue are the system
    program. *)
Theorem executeSwap_market_step :
  forall (L : Library) (C : Client) (pool : OnChainPool),
    exists pool',
      outcome (orFallback L (fetchMarketData L C pool)) = Ok pool'
      /\ sameButMarketAccounts pool pool'
      /\ (calls (orFallback L (fetchMarketData L C pool)) = []
          \/ calls (orFallback L (fetchMarketData L C pool))
             = [CallGetAccountInfo (Market pool)])
      /\ (marketUnusable C pool ->
          MarketBaseVault pool' = BaseVault pool
          /\ MarketQuoteVault pool' = QuoteVault pool
          /\ MarketBids pool' = SystemProgramID L
          /\ MarketAsks pool' = SystemProgramID L
          /\ MarketEventQueue pool' = SystemProgramID L).
Proof.
  intros L C pool. unfold fetchMarketData, marketUnusable.
  destruct (IsZero (Market pool)) eqn:Hz.
  - eexists. split; [reflexivity|]. split; [destruct pool; reflexivity|].
    split; [left; reflexivity|]. intros _. repeat split.
  - destruct (GetAccountInfo C (Market pool)) as [marketData|] eqn:Hget.
    + destruct (Nat.ltb_spec (List.length marketData) 388) as [Hlt|Hge].
      * eexists. split; [reflexivity|]. split; [destruct pool; reflexivity|].
        split; [right; reflexivity|]. intros _. repeat split.
      * destruct (45 <? List.length marketData)%nat;
          (eexists; split; [reflexivity|]; split; [destruct pool; reflexivity|];
           split; [right; reflexivity|];
           intros [Hc|Hc]; [discriminate Hc|lia]).
    + eexists. split; [reflexivity|]. split; [destruct pool; reflexivity|].
      split; [right; reflexivity|]. intros _. repeat split.
Qed.

(** X10.  For a pool without a market, [fetchMarketData] makes no request
    and [createSwapInstruction] succeeds on the pool it leaves: the accounts
    9-11 (bids, asks, event queue) and 14 (vault signer) are the system
    program, and the accounts 12 and 13 (market vaults) are the pool's own
    vaults. *)
Theorem swap_without_market :
  forall (L : Library) (C : Client) (pool : OnChainPool)
         (userSource userDestination userOwner : PublicKey)
         (amountIn minAmountOut : Z) (isBaseToQuote : bool),
    IsZero (Market pool) = true ->
    exists pool' accounts,
      fetchMarketData L C pool = ([], pool', None)
      /\ createSwapInstruction L pool' userSource userDestination userOwner
           amountIn minAmountOut isBaseToQuote
         = Ok (GenericInstruction (RAYDIUM_AMM_V4 L) accounts
                 (swapInstructionData amountIn minAmountOut))
      /\ map Key accounts
         = [TokenProgramID L; Address pool; Authority pool; OpenOrders pool;
            TargetOrders pool; BaseVault pool; QuoteVault pool;
            MarketProgram pool; Market pool;
            SystemProgramID L; SystemProgramID L; SystemProgramID L;
            BaseVault pool; QuoteVault pool; SystemProgramID L;
            userSource; userDestination; userOwner].
Proof.
  intros L C pool us ud uo a m b Hz.
  unfold fetchMarketData. rewrite Hz.
  eexists _, _. split; [reflexivity|].
  assert (Hm : forall p : OnChainPool,
             Market ((marketFallback L p) <| MarketNonce := Byte.x00 |>) = Market p)
    by (intros p; destruct p; reflexivity).
  unfold createSwapInstruction, marketVaultSigner.
  rewrite Hm, Hz. cbn [negb andb].
  split; [reflexivity|]. destruct pool. reflexivity.
Qed.

Lemma swap_without_market_witness :
  exists pool' accounts,
    fetchMarketData goLibrary demoClient (newPool demoPoolKey) = ([], pool', None)
    /\ createSwapInstruction goLibrary pool' demoBaseVault demoQuoteVault demoWallet
         1000 7 true
       = Ok (GenericInstruction (RAYDIUM_AMM_V4 goLibrary) accounts
               (swapInstructionData 1000 7)).
Proof.
  destruct (swap_without_market goLibrary demoClient (newPool demoPoolKey)
              demoBaseVault demoQuoteVault demoWallet 1000 7 true eq_refl)
    as [pool' [accounts [Hf [Hc _]]]].
  exists pool', accounts. split; [exact Hf|exact Hc].
Defined.

(* --------------------------------------------------------------------- *)
(** *** Pool discovery *)
(* --------------------------------------------------------------------- *)

Lemma selectBest_spec (L : Library) (pools : list OnChainPool) :
  forall (maxLiquidity : Z) (bestPool : option OnChainPool),
    (selectBest L pools maxLiquidity bestPool = bestPool
     /\ forall q, In q pools -> solReserves L q <= maxLiquidity)
    \/ (exists l1 p l2,
          pools = l1 ++ p :: l2
          /\ selectBest L pools maxLiquidity bestPool = Some p
          /\ maxLiquidity < solReserves L p
          /\ (forall q, In q l1 -> solReserves L q < solReserves L p)
          /\ (forall q, In q l2 -> solReserves L q <= solReserves L p)).
Proof.
  induction pools as [|pool rest IH]; intros m best.
  - left. split; [reflexivity|]. intros q [].
  - cbn [selectBest]. fold (solReserves L pool).
    destruct (Z.ltb_spec m (solReserves L pool)) as [Hlt|Hge].
    + right.
      destruct (IH (solReserves L pool) (Some pool))
        as [[E Hall]|[l1 [p [l2 [El [E [Hm [H1 H2]]]]]]]].
      * exists [], pool, rest. split; [reflexivity|]. split; [exact E|].
        split; [exact Hlt|]. split; [intros q []|exact Hall].
      * exists (pool :: l1), p, l2. split; [rewrite El; reflexivity|].
        split; [exact E|]. split; [lia|]. split; [|exact H2].
        intros q [<-|Hq]; [exact Hm|apply H1; exact Hq].
    + destruct (IH m best) as [[E Hall]|[l1 [p [l2 [El [E [Hm [H1 H2]]]]]]]].
      * left. split; [exact E|]. intros q [<-|Hq]; [exact Hge|apply Hall; exact Hq].
      * right. exists (pool :: l1), p, l2. split; [rewrite El; reflexivity|].
        split; [exact E|]. split; [exact Hm|]. split; [|exact H2].
        intros q [<-|Hq]; [lia|apply H1; exact Hq].
Qed.

(** X11.  The selection loop of [findPoolsOnChain] returns the first pool
    whose SOL reserve is largest: every pool before it has a strictly
    smaller reserve, every pool after it a reserve that is not larger, and
    its reserve is positive.  It returns no pool exactly when no pool has a
    positive SOL reserve. *)
Theorem selectBest_first_largest :
  forall (L : Library) (pools : list OnChainPool),
    match selectBest L pools 0 None with
    | Some p =>
        exists l1 l2,
          pools = l1 ++ p :: l2
          /\ 0 < solReserves L p
          /\ (forall q, In q l1 -> solReserves L q < solReserves L p)
          /\ (forall q, In q l2 -> solReserves L q <= solReserves L p)
    | None => forall q, In q pools -> solReserves L q <= 0
    end.
Proof.
  intros L pools.
  destruct (selectBest_spec L pools 0 None)
    as [[E Hall]|[l1 [p [l2 [El [E [Hm [H1 H2]]]]]]]]; rewrite E.
  - exact Hall.
  - exists l1, l2. split; [exact El|]. split; [exact Hm|]. split; assumption.
Qed.

Lemma parsePoolAccount_ok (L : Library) (address : PublicKey) (data : list byte)
  (pool : OnChainPool) :
  parsePoolAccount L address data = Ok pool ->
  (752 <= List.length data)%nat
  /\ Address pool = address
  /\ BaseMint pool = PublicKeyFromBytes (slice data 400 432)
  /\ QuoteMint pool = PublicKeyFromBytes (slice data 432 464).
Proof.
  unfold parsePoolAccount.
  destruct (Nat.ltb_spec (List.length data) 752) as [Hlt|Hge]; [discriminate|].
  destruct (FindProgramAddress L [AUTHORITY_AMM_SEED] (RAYDIUM_AMM_V4 L))
    as [[authority nonce]|]; [|discriminate].
  intros H. injection H as <-. repeat split. exact Hge.
Qed.

Lemma scanAccount_kept (L : Library) (C : Client) (tokenPubkey : PublicKey)
  (account : PublicKey * list byte) (pool : OnChainPool) :
  In pool (snd (scanAccount L C tokenPubkey account)) ->
  keptFrom L tokenPubkey account pool.
Proof.
  unfold scanAccount. destruct account as [pubkey data].
  destruct (parsePoolAccount L pubkey data) as [p0|e] eqn:Ep; [|intros []].
  apply parsePoolAccount_ok in Ep. destruct Ep as [Hlen [Ha [Hb Hq]]].
  match goal with
  | |- In _ (snd (if ?c then _ else _)) -> _ => destruct c eqn:Ec; [|intros []]
  end.
  match goal with
  | |- context [match getTokenDecimals L C ?s with _ => _ end] =>
      destruct (getTokenDecimals L C s) as [log1 [bd|e1]]
  end; [|intros []].
  match goal with
  | |- context [match getTokenDecimals L C ?s with _ => _ end] =>
      destruct (getTokenDecimals L C s) as [log2 [qd|e2]]
  end; [|intros []].
  match goal with
  | |- context [fetchVaultBalances C ?p] =>
      pose proof (fetchVaultBalances_same C p) as Hsame;
      destruct (fetchVaultBalances C p) as [[log3 p3] [e3|]]
  end; [intros []|].
  intros H.
  cbn [snd fst] in *. destruct H as [<-|[]].
  unfold sameButAmounts in Hsame. unfold keptFrom, pairsWithSol.
  rewrite Hsame. destruct p0. cbn in *. subst.
  repeat split; try assumption.
Qed.

Lemma scanAccounts_kept (L : Library) (C : Client) (tokenPubkey : PublicKey)
  (accounts : list (PublicKey * list byte)) (pool : OnChainPool) :
  In pool (snd (scanAccounts L C tokenPubkey accounts)) ->
  exists account, In account accounts /\ keptFrom L tokenPubkey account pool.
Proof.
  induction accounts as [|account rest IH]; cbn [scanAccounts]; [intros []|].
  pose proof (scanAccount_kept L C tokenPubkey account pool) as Hone.
  destruct (scanAccount L C tokenPubkey account) as [log found].
  destruct (scanAccounts L C tokenPubkey rest) as [log' pools].
  cbn [snd] in *. intros H. apply in_app_or in H. destruct H as [H|H].
  - exists account. split; [left; reflexivity|apply Hone; exact H].
  - destruct (IH H) as [a [Ha Hk]]. exists a. split; [right; exact Ha|exact Hk].
Qed.

Lemma findPoolsOnChain_outcome (L : Library) (C : Client) (tokenAddress : string)
  (tokenPubkey : PublicKey) (accounts : list (PublicKey * list byte)) :
  PublicKeyFromBase58 L tokenAddress = Some tokenPubkey ->
  GetProgramAccounts C (RAYDIUM_AMM_V4 L) 752 = Some accounts ->
  outcome (findPoolsOnChain L C tokenAddress)
  = match snd (scanAccounts L C tokenPubkey accounts) with
    | [] => Err NoPoolsFound
    | pools => Ok (selectBest L pools 0 None)
    end.
Proof.
  intros Hk Hg.
  unfold findPoolsOnChain, fromBase58, lift, rpcGetProgramAccounts, bind, outcome.
  rewrite Hk, Hg.
  destruct (scanAccounts L C tokenPubkey accounts) as [log pools].
  cbn [snd]. destruct pools; reflexivity.
Qed.

(** X12.  A pool returned by [findPoolsOnChain] is one of the accounts that
    the program scan delivered, under that account's address; its mints
    are the slices at offsets 400 and 432 of the account's data, one of them
    is the token asked for and one is the SOL or wrapped SOL mint, and its
    SOL reserve is positive. *)
Theorem findPoolsOnChain_result :
  forall (L : Library) (C : Client) (tokenAddress : string) (pool : OnChainPool),
    outcome (findPoolsOnChain L C tokenAddress) = Ok (Some pool) ->
    exists tokenPubkey accounts data,
      PublicKeyFromBase58 L tokenAddress = Some tokenPubkey
      /\ GetProgramAccounts C (RAYDIUM_AMM_V4 L) 752 = Some accounts
      /\ In (Address pool, data) accounts
      /\ field_at data 400 (BaseMint pool)
      /\ field_at data 432 (QuoteMint pool)
      /\ pairsWithSol L tokenPubkey pool = true
      /\ 0 < solReserves L pool.
Proof.
  intros L C tokenAddress pool H.
  destruct (PublicKeyFromBase58 L tokenAddress) as [tokenPubkey|] eqn:Hk.
  2:{ unfold findPoolsOnChain, fromBase58 in H. rewrite Hk in H. discriminate H. }
  destruct (GetProgramAccounts C (RAYDIUM_AMM_V4 L) 752) as [accounts|] eqn:Hg.
  2:{ unfold findPoolsOnChain, fromBase58, lift, rpcGetProgramAccounts, bind,
        outcome in H.
      rewrite Hk, Hg in H. discriminate H. }
  rewrite (findPoolsOnChain_outcome L C tokenAddress tokenPubkey accounts Hk Hg) in H.
  remember (snd (scanAccounts L C tokenPubkey accounts)) as pools eqn:Ep.
  assert (Hbest : selectBest L pools 0 None = Some pool).
  { destruct pools; [discriminate H|]. injection H as H. exact H. }
  destruct (selectBest_spec L pools 0 None)
    as [[E _]|[l1 [p [l2 [El [E [Hm _]]]]]]]; rewrite E in Hbest;
    [discriminate Hbest|].
  injection Hbest as ->.
  assert (Hin : In pool (snd (scanAccounts L C tokenPubkey accounts))).
  { rewrite <- Ep, El. apply in_or_app. right. left. reflexivity. }
  destruct (scanAccounts_kept L C tokenPubkey accounts pool Hin)
    as [[pubkey data] [Ha [Haddr [Hlen [Hb [Hq Hpair]]]]]].
  cbn [fst snd] in *. subst pubkey.
  exists tokenPubkey, accounts, data.
  split; [reflexivity|]. split; [reflexivity|]. split; [exact Ha|].
  split; [rewrite Hb; apply (PublicKeyFromBytes_slice data 400); lia|].
  split; [rewrite Hq; apply (PublicKeyFromBytes_slice data 432); lia|].
  split; [exact Hpair|exact Hm].
Qed.

(** The scan for the RAY mint on the demo ledger finds a pool. *)
Example demo_find_run :
  match outcome (findPoolsOnChain goLibrary demoClient demoTokenAddress) with
  | Ok (Some pool) => true
  | _ => false
  end = true.
Proof. vm_compute. reflexivity. Qed.

Lemma findPoolsOnChain_result_witness :
  exists pool tokenPubkey,
    outcome (findPoolsOnChain goLibrary demoClient demoTokenAddress) = Ok (Some pool)
    /\ pairsWithSol goLibrary tokenPubkey pool = true
    /\ 0 < solReserves goLibrary pool.
Proof.
  pose proof demo_find_run as R.
  destruct (outcome (findPoolsOnChain goLibrary demoClient demoTokenAddress))
    as [[pool|]|e] eqn:Hf; [|discriminate R|discriminate R].
  destruct (findPoolsOnChain_result _ _ _ _ Hf)
    as [tokenPubkey [accounts [data [_ [_ [_ [_ [_ [Hp Hs]]]]]]]]].
  exists pool, tokenPubkey. split; [reflexivity|]. split; [exact Hp|exact Hs].
Defined.

(** X13.  When the scan finds pools for the token but none with a positive
    SOL reserve, [findPoolsOnChain] returns neither a pool nor an error, and
    [main], which reads the address of the pool it was given, stops with a
    panic. *)
Theorem main_panics_without_liquidity :
  forall (L : Library) (C : Client) (poolAddr tokenAddr : string) (amount : float)
         (side : string) (tokenPubkey : PublicKey)
         (accounts : list (PublicKey * list byte)),
    PrimFloat.eqb amount 0 = false ->
    side = "buy"%string \/ side = "sell"%string ->
    tokenAddr <> ""%string ->
    PublicKeyFromBase58 L tokenAddr = Some tokenPubkey ->
    GetProgramAccounts C (RAYDIUM_AMM_V4 L) 752 = Some accounts ->
    snd (scanAccounts L C tokenPubkey accounts) <> [] ->
    (forall pool, In pool (snd (scanAccounts L C tokenPubkey accounts)) ->
                  solReserves L pool = 0) ->
    outcome (findPoolsOnChain L C tokenAddr) = Ok None
    /\ outcome (main_poolAddress L C poolAddr tokenAddr amount side) = Err Panic.
Proof.
  intros L C poolAddr tokenAddr amount side tokenPubkey accounts
         Ha Hside Ht Hk Hg Hne Hzero.
  assert (Hf : outcome (findPoolsOnChain L C tokenAddr) = Ok None).
  { rewrite (findPoolsOnChain_outcome L C tokenAddr tokenPubkey accounts Hk Hg).
    destruct (snd (scanAccounts L C tokenPubkey accounts)) as [|p0 rest] eqn:Ep;
      [contradiction|].
    f_equal.
    destruct (selectBest_spec L (p0 :: rest) 0 None)
      as [[E _]|[l1 [p [l2 [El [_ [Hm _]]]]]]]; [exact E|].
    assert (Hin : In p (p0 :: rest))
      by (rewrite El; apply in_or_app; right; left; reflexivity).
    rewrite (Hzero p Hin) in Hm. lia. }
  split; [exact Hf|].
  rewrite (main_poolAddress_token L C poolAddr tokenAddr amount side Ha Hside Ht).
  unfold outcome, bind in *.
  destruct (findPoolsOnChain L C tokenAddr) as [log r]. cbn [snd] in Hf.
  subst r. reflexivity.
Qed.

(** The demo pool with both vaults empty: it is found for the token, with a
    SOL reserve of 0. *)
Example demo_empty_scan :
  PublicKeyFromBase58 goLibrary demoTokenAddress = Some demoToken
  /\ map (solReserves goLibrary)
         (snd (scanAccounts goLibrary demoEmptyClient demoToken
                 [(demoPoolKey, demoPoolData)]))
     = [0].
Proof. split; vm_compute; reflexivity. Qed.

Lemma main_panics_without_liquidity_witness :
  outcome (main_poolAddress goLibrary demoEmptyClient demoOtherPoolAddress
             demoTokenAddress 1 "buy")
  = Err Panic.
Proof.
  destruct demo_empty_scan as [Hk Hs].
  refine (proj2 (main_panics_without_liquidity goLibrary demoEmptyClient
                   demoOtherPoolAddress demoTokenAddress 1%float "buy"%string
                   demoToken [(demoPoolKey, demoPoolData)]
                   eq_refl (or_introl eq_refl) _ Hk _ _ _)).
  - discriminate.
  - vm_compute. reflexivity.
  - intros E. rewrite E in Hs. discriminate Hs.
  - intros pool Hin.
    apply (in_map (solReserves goLibrary)) in Hin. rewrite Hs in Hin.
    destruct Hin as [<-|[]]. reflexivity.
Defined.

(** X14.  Up to the quote, [main] sends a request to the ledger only when the
    amount is not zero, the side is "buy" or "sell", and a token address is
    given that parses; with a pool address alone it resolves the pool
    without any request. *)
Theorem main_requests_need_token :
  forall (L : Library) (C : Client) (poolAddr tokenAddr : string) (amount : float)
         (side : string),
    calls (main_poolAddress L C poolAddr tokenAddr amount side) <> [] ->
    PrimFloat.eqb amount 0 = false
    /\ (side = "buy"%string \/ side = "sell"%string)
    /\ tokenAddr <> ""%string
    /\ PublicKeyFromBase58 L tokenAddr <> None.
Proof.
  intros L C poolAddr tokenAddr amount side. unfold main_poolAddress.
  destruct (PrimFloat.eqb amount 0); [intros H; contradiction H; reflexivity|].
  destruct (String.eqb_spec side "") as [Es|Es];
    [intros H; contradiction H; reflexivity|].
  cbn [orb].
  destruct (String.eqb_spec tokenAddr "") as [Et|Et].
  { rewrite andb_true_r. cbn [negb].
    destruct (String.eqb poolAddr ""); [intros H; contradiction H; reflexivity|].
    destruct (negb (String.eqb side "buy") && negb (String.eqb side "sell"));
      intros H; contradiction H; reflexivity. }
  rewrite andb_false_r. cbn [negb].
  destruct (String.eqb_spec side "buy") as [Eb|Eb].
  - cbn [negb andb]. intros H. split; [reflexivity|]. split; [left; exact Eb|].
    split; [exact Et|]. intros Hk. apply H.
    unfold findPoolsOnChain, fromBase58, lift. rewrite Hk. reflexivity.
  - destruct (String.eqb_spec side "sell") as [Esell|Esell].
    + cbn [negb andb]. intros H. split; [reflexivity|]. split; [right; exact Esell|].
      split; [exact Et|]. intros Hk. apply H.
      unfold findPoolsOnChain, fromBase58, lift. rewrite Hk. reflexivity.
    + cbn [negb andb]. intros H. contradiction H. reflexivity.
Qed.

Lemma main_requests_need_token_witness :
  PublicKeyFromBase58 goLibrary demoTokenAddress <> None.
Proof.
  refine (proj2 (proj2 (proj2 (main_requests_need_token goLibrary demoClient
                   demoOtherPoolAddress demoTokenAddress 1%float "buy"%string _)))).
  destruct (findPoolsOnChain_scans goLibrary demoClient demoTokenAddress demoToken
              (proj1 demo_empty_scan)) as [rest Hrest].
  rewrite (main_poolAddress_token goLibrary demoClient demoOtherPoolAddress
             demoTokenAddress 1%float "buy"%string eq_refl (or_introl eq_refl));
    [|discriminate].
  destruct (calls_bind (findPoolsOnChain goLibrary demoClient demoTokenAddress)
              (fun pool => match pool with
                           | Some p => ret (Some (PublicKeyString goLibrary (Address p)))
                           | None => fail Panic
                           end)) as [rest' Hrest'].
  rewrite Hrest', Hrest. discriminate.
Defined.

(* --------------------------------------------------------------------- *)
(** *** InstructionCompiler: the instruction sequence of either side *)
(* --------------------------------------------------------------------- *)

Lemma appendIfPresent_app (l : list Instruction) (ix : option Instruction) :
  appendIfPresent l ix = l ++ appendIfPresent [] ix.
Proof. destruct ix; cbn [appendIfPresent app]; [reflexivity|]. rewrite app_nil_r. reflexivity. Qed.

Lemma getOrCreateATA_address (L : Library) (C : Client) (wallet mint ata : PublicKey)
  (ix : option Instruction) :
  outcome (getOrCreateATA L C wallet mint) = Ok (ata, ix) ->
  FindAssociatedTokenAddress L wallet mint = Some ata.
Proof.
  unfold getOrCreateATA.
  destruct (FindAssociatedTokenAddress L wallet mint) as [a|]; [|discriminate].
  cbn [outcome snd]. destruct (GetAccountInfo C a); intros H; injection H as <- _;
    reflexivity.
Qed.

Lemma createSwapInstruction_ok (L : Library) (pool : OnChainPool)
  (us ud uo : PublicKey) (a m : Z) (b : bool) (ix : Instruction) :
  createSwapInstruction L pool us ud uo a m b = Ok ix ->
  exists accounts,
    ix = GenericInstruction (RAYDIUM_AMM_V4 L) accounts (swapInstructionData a m)
    /\ List.length accounts = 18%nat
    /\ nth_error accounts 15 = Some (meta us false true)
    /\ nth_error accounts 16 = Some (meta ud false true)
    /\ nth_error accounts 17 = Some (meta uo true false).
Proof.
  unfold createSwapInstruction.
  destruct (marketVaultSigner L pool) as [signer|e]; [|discriminate].
  intros H. injection H as <-. eexists. split; [reflexivity|].
  repeat split.
Qed.

(** The pieces from which [executeSwap] assembles its instruction list. *)
Lemma executeSwap_inv (L : Library) (C : Client) (wallet : PublicKey)
  (poolAddress side : string) (amountIn : float) (minAmountOut : Z)
  (instructions : list Instruction) :
  outcome (executeSwap L C wallet poolAddress side amountIn minAmountOut)
  = Ok instructions ->
  exists pool sourceMint destinationMint isBaseToQuote inputDecimals
         sourceATA createSourceIx destinationATA createDestIx swapIx,
    swapDirection L pool side
    = (sourceMint, destinationMint, isBaseToQuote, inputDecimals)
    /\ outcome (getOrCreateATA L C wallet sourceMint) = Ok (sourceATA, createSourceIx)
    /\ outcome (getOrCreateATA L C wallet destinationMint)
       = Ok (destinationATA, createDestIx)
    /\ createSwapInstruction L pool sourceATA destinationATA wallet
         (toRawAmount L amountIn inputDecimals) minAmountOut isBaseToQuote
       = Ok swapIx
    /\ instructions
       = assemble L wallet sourceMint destinationMint side
           (toRawAmount L amountIn inputDecimals) sourceATA destinationATA
           createSourceIx createDestIx swapIx.
Proof.
  intros H. unfold executeSwap in H.
  apply bind_ok in H. destruct H as [poolPubkey [_ H]].
  apply bind_ok in H. destruct H as [data [_ H]].
  apply bind_ok in H. destruct H as [pool0 [_ H]].
  apply bind_ok in H. destruct H as [baseDecimals [_ H]].
  apply bind_ok in H. destruct H as [quoteDecimals [_ H]].
  apply bind_ok in H. destruct H as [pool1 [_ H]].
  apply bind_ok in H. destruct H as [pool [_ H]].
  exists pool. unfold swapDirection.
  destruct (String.eqb side "buy") eqn:Eside; destruct (isSol L (BaseMint pool));
    cbv beta iota zeta in H;
    (apply bind_ok in H; destruct H as [[sourceATA createSourceIx] [Hs H]];
     cbv beta iota zeta in H;
     apply bind_ok in H; destruct H as [[destinationATA createDestIx] [Hd H]];
     cbv beta iota zeta in H;
     apply bind_ok in H; destruct H as [swapIx [Hsw H]];
     apply Ok_eq in H;
     eexists _, _, _, _, sourceATA, createSourceIx, destinationATA, createDestIx,
       swapIx;
     split; [reflexivity|]; split; [exact Hs|]; split; [exact Hd|];
     split; [unfold outcome, lift in Hsw; cbn [snd] in Hsw; exact Hsw|];
     rewrite <- H; unfold assemble; rewrite ?Eside;
     repeat match goal with
            | |- context [if ?c then _ else _] => destruct c
            end;
     rewrite ?(appendIfPresent_app (_ ++ _)), ?(appendIfPresent_app (appendIfPresent _ _));
     rewrite <- ?app_assoc, ?app_nil_r; reflexivity).
Qed.

(** X15.  A buy compiles to [optional create-source-account], the two wrap
    steps exactly when the source mint is the wrapped SOL mint, [optional
    create-destination-account], [swap].  The transfer of the wrap moves the
    raw input amount, the amount times 10^9, from the wallet to the source
    account; the swap instruction carries the same amount and has the
    source account, the wallet's associated account for the source mint, as
    account 15; and there is no close instruction. *)
Theorem executeSwap_buy_sequence :
  forall (L : Library) (C : Client) (wallet : PublicKey) (poolAddress : string)
         (amountIn : float) (minAmountOut : Z) (instructions : list Instruction),
    outcome (executeSwap L C wallet poolAddress "buy" amountIn minAmountOut)
    = Ok instructions ->
    exists sourceMint destinationMint sourceATA accounts
           createSource wrap createDestination,
      let amountInRaw := toRawAmount L amountIn SOL_DECIMALS in
      instructions
      = createSource ++ wrap ++ createDestination
        ++ [GenericInstruction (RAYDIUM_AMM_V4 L) accounts
              (swapInstructionData amountInRaw minAmountOut)]
      /\ optional (CreateATAInstruction wallet wallet sourceMint) createSource
      /\ (if Equals sourceMint (WSOL_MINT L)
          then wrap = [TransferInstruction amountInRaw wallet sourceATA;
                       SyncNativeInstruction sourceATA]
          else wrap = [])
      /\ optional (CreateATAInstruction wallet wallet destinationMint)
           createDestination
      /\ FindAssociatedTokenAddress L wallet sourceMint = Some sourceATA
      /\ nth_error accounts 15 = Some (meta sourceATA false true)
      /\ forallb (fun i => negb (isClose i)) instructions = true.
Proof.
  intros L C wallet poolAddress amountIn minAmountOut instructions H.
  destruct (executeSwap_inv _ _ _ _ _ _ _ _ H)
    as [pool [sm [dm [b2q [dec [sATA [cs [dATA [cd [ix [Hdir [Hs [Hd [Hsw Hi]]]]]]]]]]]]]].
  assert (Hdec : dec = SOL_DECIMALS).
  { unfold swapDirection in Hdir. change (String.eqb "buy" "buy") with true in Hdir.
    destruct (isSol L (BaseMint pool)); injection Hdir as _ _ _ <-; reflexivity. }
  subst dec.
  apply createSwapInstruction_ok in Hsw. destruct Hsw as [accounts [-> [_ [H15 _]]]].
  pose proof (getOrCreateATA_address _ _ _ _ _ _ Hs) as Hata.
  apply getOrCreateATA_ok in Hs. apply getOrCreateATA_ok in Hd.
  exists sm, dm, sATA, accounts, (appendIfPresent [] cs),
    (if Equals sm (WSOL_MINT L)
     then [TransferInstruction (toRawAmount L amountIn SOL_DECIMALS) wallet sATA;
           SyncNativeInstruction sATA]
     else []),
    (appendIfPresent [] cd).
  cbv zeta.
  unfold assemble in Hi.
  change (String.eqb "buy" "buy") with true in Hi.
  change (String.eqb "buy" "sell") with false in Hi.
  rewrite andb_true_r, andb_false_r, app_nil_r in Hi.
  split; [exact Hi|].
  split; [destruct Hs as [->| ->]; [left|right]; reflexivity|].
  split; [destruct (Equals sm (WSOL_MINT L)); reflexivity|].
  split; [destruct Hd as [->| ->]; [left|right]; reflexivity|].
  split; [exact Hata|]. split; [exact H15|].
  rewrite Hi.
  destruct Hs as [->| ->], Hd as [->| ->], (Equals sm (WSOL_MINT L)); reflexivity.
Qed.

(** A buy of RAY for 1 SOL on the demo pool, with neither associated account
    in place: the source account is created and funded, the destination
    account is created, then the swap. *)
Example demo_buy_run :
  match outcome (executeSwap goLibrary demoClient demoWallet demoPoolAddress
                   "buy" 1 7) with
  | Ok instructions =>
      Some (map isCreateATA instructions, map isWrapStep instructions,
            map isSwap instructions)
  | Err _ => None
  end
  = Some ([true; false; false; true; false], [false; true; true; false; false],
          [false; false; false; false; true]).
Proof. vm_compute. reflexivity. Qed.

Lemma executeSwap_buy_sequence_witness :
  exists instructions,
    outcome (executeSwap goLibrary demoClient demoWallet demoPoolAddress "buy" 1 7)
    = Ok instructions
    /\ forallb (fun i => negb (isClose i)) instructions = true.
Proof.
  pose proof demo_buy_run as R.
  destruct (outcome (executeSwap goLibrary demoClient demoWallet demoPoolAddress
                       "buy" 1 7)) as [instructions|e] eqn:E;
    [|discriminate R].
  exists instructions. split; [reflexivity|].
  destruct (executeSwap_buy_sequence _ _ _ _ _ _ _ E)
    as [sm [dm [sa [accs [cs [wr [cd H]]]]]]].
  exact (proj2 (proj2 (proj2 (proj2 (proj2 (proj2 H)))))).
Defined.

(** X16.  On either side the list holds exactly one swap instruction.  It is
    addressed to the AMM program, carries [minAmountOut] as given, and its
    accounts 15, 16 and 17 are the wallet's associated accounts for the
    source and the destination mint and the wallet itself as signer.  After
    it comes nothing, or, on a sell, the instruction that closes the
    destination account. *)
Theorem executeSwap_one_swap :
  forall (L : Library) (C : Client) (wallet : PublicKey) (poolAddress side : string)
         (amountIn : float) (minAmountOut : Z) (instructions : list Instruction),
    outcome (executeSwap L C wallet poolAddress side amountIn minAmountOut)
    = Ok instructions ->
    exists before after sourceMint destinationMint sourceATA destinationATA
           amountInRaw accounts,
      instructions
      = before
        ++ [GenericInstruction (RAYDIUM_AMM_V4 L) accounts
              (swapInstructionData amountInRaw minAmountOut)]
        ++ after
      /\ forallb (fun i => negb (isSwap i)) (before ++ after) = true
      /\ List.length accounts = 18%nat
      /\ FindAssociatedTokenAddress L wallet sourceMint = Some sourceATA
      /\ FindAssociatedTokenAddress L wallet destinationMint = Some destinationATA
      /\ nth_error accounts 15 = Some (meta sourceATA false true)
      /\ nth_error accounts 16 = Some (meta destinationATA false true)
      /\ nth_error accounts 17 = Some (meta wallet true false)
      /\ (after = []
          \/ side = "sell"%string
             /\ after = [CloseAccountInstruction destinationATA wallet wallet]).
Proof.
  intros L C wallet poolAddress side amountIn minAmountOut instructions H.
  destruct (executeSwap_inv _ _ _ _ _ _ _ _ H)
    as [pool [sm [dm [b2q [dec [sATA [cs [dATA [cd [ix [Hdir [Hs [Hd [Hsw Hi]]]]]]]]]]]]]].
  apply createSwapInstruction_ok in Hsw.
  destruct Hsw as [accounts [-> [Hlen [H15 [H16 H17]]]]].
  pose proof (getOrCreateATA_address _ _ _ _ _ _ Hs) as Hsa.
  pose proof (getOrCreateATA_address _ _ _ _ _ _ Hd) as Hda.
  apply getOrCreateATA_ok in Hs. apply getOrCreateATA_ok in Hd.
  unfold assemble in Hi.
  exists (appendIfPresent [] cs
          ++ (if Equals sm (WSOL_MINT L) && String.eqb side "buy"
              then [TransferInstruction (toRawAmount L amountIn dec) wallet sATA;
                    SyncNativeInstruction sATA]
              else [])
          ++ appendIfPresent [] cd),
    (if Equals dm (WSOL_MINT L) && String.eqb side "sell"
     then [CloseAccountInstruction dATA wallet wallet]
     else []),
    sm, dm, sATA, dATA, (toRawAmount L amountIn dec), accounts.
  split; [rewrite Hi; rewrite <- !app_assoc; reflexivity|].
  split.
  { destruct Hs as [->| ->], Hd as [->| ->];
      destruct (Equals sm (WSOL_MINT L) && String.eqb side "buy");
      destruct (Equals dm (WSOL_MINT L) && String.eqb side "sell"); reflexivity. }
  split; [exact Hlen|]. split; [exact Hsa|]. split; [exact Hda|].
  split; [exact H15|]. split; [exact H16|]. split; [exact H17|].
  destruct (String.eqb_spec side "sell") as [->|Hne].
  - destruct (Equals dm (WSOL_MINT L)); [right; split; reflexivity|left; reflexivity].
  - rewrite andb_false_r. left. reflexivity.
Qed.

Lemma executeSwap_one_swap_witness :
  exists instructions,
    outcome (executeSwap goLibrary demoClient demoWallet demoPoolAddress
               "sell" 1000 7) = Ok instructions
    /\ exists before swapIx after,
         instructions = before ++ [swapIx] ++ after
         /\ forallb (fun i => negb (isSwap i)) (before ++ after) = true.
Proof.
  pose proof demo_sell_run as R.
  destruct (outcome (executeSwap goLibrary demoClient demoWallet demoPoolAddress
                       "sell" 1000 7)) as [instructions|e] eqn:E;
    [|discriminate R].
  exists instructions. split; [reflexivity|].
  destruct (executeSwap_one_swap _ _ _ _ _ _ _ _ E)
    as [before [after [sm [dm [sa [da [raw [accs [Hi [Hn _]]]]]]]]]].
  exists before, (GenericInstruction (RAYDIUM_AMM_V4 goLibrary) accs
                    (swapInstructionData raw 7)), after.
  split; [exact Hi|exact Hn].
Defined.

Lemma quiet_bind {A B : Type} (a b : nat) (m : Rpc A) (f : A -> Rpc B) :
  quiet a (calls m) -> (forall x, quiet b (calls (f x))) ->
  quiet (a + b) (calls (bind m f)).
Proof.
  unfold quiet, calls, bind. destruct m as [log [x|e]]; cbn [fst].
  - intros [Hl Hs] Hf. specialize (Hf x). destruct (f x) as [log' r].
    cbn [fst] in *. destruct Hf as [Hl' Hs'].
    rewrite length_app, forallb_app, Hs, Hs'. split; [lia|reflexivity].
  - intros [Hl Hs] _. split; [lia|exact Hs].
Qed.

Lemma quiet_nil (n : nat) : quiet n [].
Proof. split; [cbn; lia|reflexivity]. Qed.

Lemma quiet_getTokenDecimals (L : Library) (C : Client) (mintAddress : string) :
  quiet 1 (calls (getTokenDecimals L C mintAddress)).
Proof.
  unfold getTokenDecimals.
  destruct (String.eqb mintAddress (PublicKeyString L (WSOL_MINT L))
            || String.eqb mintAddress (PublicKeyString L (SOL_MINT L)));
    [apply quiet_nil|].
  apply (quiet_bind 0 1); [apply quiet_nil|]. intros k.
  apply (quiet_bind 1 0); [split; [cbn; lia|reflexivity]|].
  intros data. destruct (List.length data <? 82)%nat; apply quiet_nil.
Qed.

Lemma quiet_fetchVaultBalances (C : Client) (pool : OnChainPool) :
  quiet 2 (calls (orReturn (fetchVaultBalances C pool))).
Proof.
  unfold fetchVaultBalances, orReturn, calls.
  destruct (GetTokenAccountBalance C (BaseVault pool)) as [b|];
    [|split; [cbn; lia|reflexivity]].
  destruct (GetTokenAccountBalance C (QuoteVault pool)) as [q|];
    [|split; [cbn; lia|reflexivity]].
  destruct (ParseUint b) as [bv berr]. destruct berr; [split; [cbn; lia|reflexivity]|].
  destruct (ParseUint q) as [qv qerr]. destruct qerr; split; cbn; try lia; reflexivity.
Qed.

Lemma quiet_fetchMarketData (L : Library) (C : Client) (pool : OnChainPool) :
  quiet 1 (calls (orFallback L (fetchMarketData L C pool))).
Proof.
  unfold fetchMarketData, orFallback, calls.
  destruct (IsZero (Market pool)); [apply quiet_nil|].
  destruct (GetAccountInfo C (Market pool)) as [marketData|];
    [|split; [cbn; lia|reflexivity]].
  destruct (List.length marketData <? 388)%nat; [split; [cbn; lia|reflexivity]|].
  destruct (45 <? List.length marketData)%nat; split; cbn; try lia; reflexivity.
Qed.

Lemma quiet_getOrCreateATA (L : Library) (C : Client) (wallet mint : PublicKey) :
  quiet 1 (calls (getOrCreateATA L C wallet mint)).
Proof.
  unfold getOrCreateATA.
  destruct (FindAssociatedTokenAddress L wallet mint); [|apply quiet_nil].
  split; [cbn; lia|reflexivity].
Qed.

(** X17.  Assembling a swap takes at most 8 requests to the ledger and a
    quote at most 5, none of them a program scan; the first request, if
    any, asks for the pool account, and an address that does not parse
    costs no request at all. *)
Theorem executeSwap_requests :
  forall (L : Library) (C : Client) (wallet : PublicKey) (poolAddress side : string)
         (amountIn : float) (minAmountOut : Z),
    let log := calls (executeSwap L C wallet poolAddress side amountIn minAmountOut) in
    let quoteLog := calls (calculateQuoteOnChain L C poolAddress amountIn side) in
    (List.length log <= 8)%nat
    /\ forallb (fun c => negb (isScan c)) log = true
    /\ match PublicKeyFromBase58 L poolAddress with
       | Some poolPubkey => exists rest, log = CallGetAccountInfo poolPubkey :: rest
       | None => log = []
       end
    /\ (List.length quoteLog <= 5)%nat
    /\ forallb (fun c => negb (isScan c)) quoteLog = true.
Proof.
  intros L C wallet poolAddress side amountIn minAmountOut log quoteLog.
  assert (Hq : quiet 8 log).
  { subst log. unfold executeSwap.
    apply (quiet_bind 0 8); [apply quiet_nil|]. intros poolPubkey.
    apply (quiet_bind 1 7); [split; [cbn; lia|reflexivity]|]. intros data.
    apply (quiet_bind 0 7); [apply quiet_nil|]. intros pool0.
    apply (quiet_bind 1 6); [apply quiet_getTokenDecimals|]. intros baseDecimals.
    apply (quiet_bind 1 5); [apply quiet_getTokenDecimals|]. intros quoteDecimals.
    apply (quiet_bind 2 3); [apply quiet_fetchVaultBalances|]. intros pool1.
    apply (quiet_bind 1 2); [apply quiet_fetchMarketData|]. intros pool.
    destruct (String.eqb side "buy"); destruct (isSol L (BaseMint pool));
      cbv beta iota zeta;
      (apply (quiet_bind 1 1); [apply quiet_getOrCreateATA|];
       intros [sourceATA createSourceIx];
       apply (quiet_bind 1 0); [apply quiet_getOrCreateATA|];
       intros [destinationATA createDestIx];
       apply (quiet_bind 0 0); [apply quiet_nil|]; intros swapIx;
       apply quiet_nil). }
  assert (Hq' : quiet 5 quoteLog).
  { subst quoteLog. unfold calculateQuoteOnChain.
    apply (quiet_bind 0 5); [apply quiet_nil|]. intros poolPubkey.
    apply (quiet_bind 1 4); [split; [cbn; lia|reflexivity]|]. intros data.
    apply (quiet_bind 0 4); [apply quiet_nil|]. intros pool0.
    apply (quiet_bind 1 3); [apply quiet_getTokenDecimals|]. intros baseDecimals.
    apply (quiet_bind 1 2); [apply quiet_getTokenDecimals|]. intros quoteDecimals.
    apply (quiet_bind 2 0); [apply quiet_fetchVaultBalances|]. intros pool.
    destruct (String.eqb side "buy"); destruct (isSol L (BaseMint pool));
      cbv beta iota zeta;
      (apply (quiet_bind 0 0); [apply quiet_nil|]; intros amountOut;
       apply quiet_nil). }
  destruct Hq as [Hl Hs]. destruct Hq' as [Hl' Hs'].
  split; [exact Hl|]. split; [exact Hs|]. split; [|split; [exact Hl'|exact Hs']].
  subst log. unfold executeSwap, fromBase58, lift.
  destruct (PublicKeyFromBase58 L poolAddress) as [poolPubkey|]; [|reflexivity].
  unfold bind at 1.
  match goal with
  | |- context [bind (rpcGetAccountInfo C poolPubkey GetAccountFailed) ?f] =>
      destruct (calls_bind (rpcGetAccountInfo C poolPubkey GetAccountFailed) f)
        as [rest Hrest]
  end.
  unfold calls in *.
  match goal with
  | |- context [let '(log', r) := ?m in _] => destruct m as [log' r]
  end.
  cbn [fst app] in *. rewrite Hrest. eexists. reflexivity.
Qed.

(* --------------------------------------------------------------------- *)
(** *** Submission and confirmation *)
(* --------------------------------------------------------------------- *)

Lemma executeSwap_wait_spec (ledger : Ledger) (sig : string) (remaining : nat) :
  forall i,
    let log := executeSwap_wait ledger sig i remaining in
    log = repeat (CallGetSignatureStatuses sig) (List.length log)
    /\ (List.length log <= remaining)%nat
    /\ (forall k, (k + 1 < List.length log)%nat ->
                  settled (GetSignatureStatuses ledger (i + k)) = false)
    /\ ((List.length log < remaining)%nat ->
        exists k, List.length log = (k + 1)%nat
                  /\ settled (GetSignatureStatuses ledger (i + k)) = true).
Proof.
  induction remaining as [|remaining IH]; intros i; cbn [executeSwap_wait].
  - cbv zeta. cbn [List.length repeat]. split; [reflexivity|]. split; [lia|].
    split; intros; lia.
  - cbv zeta.
    destruct (settled (GetSignatureStatuses ledger i)) eqn:Es.
    + assert (E : match GetSignatureStatuses ledger i with
                  | StatusConfirmed | StatusFinalized => []
                  | _ => executeSwap_wait ledger sig (S i) remaining
                  end = []) by (destruct (GetSignatureStatuses ledger i); try discriminate Es; reflexivity).
      rewrite E. cbn [List.length repeat].
      split; [reflexivity|]. split; [lia|]. split; [intros; lia|].
      intros _. exists 0%nat. split; [reflexivity|].
      rewrite Nat.add_0_r. exact Es.
    + assert (E : match GetSignatureStatuses ledger i with
                  | StatusConfirmed | StatusFinalized => []
                  | _ => executeSwap_wait ledger sig (S i) remaining
                  end = executeSwap_wait ledger sig (S i) remaining)
        by (destruct (GetSignatureStatuses ledger i); try discriminate Es; reflexivity).
      rewrite E. specialize (IH (S i)). cbv zeta in IH.
      destruct IH as [Hrep [Hle [Hbefore Hstop]]].
      cbn [List.length repeat].
      split; [f_equal; exact Hrep|]. split; [lia|]. split.
      * intros k Hk. destruct k as [|k].
        -- rewrite Nat.add_0_r. exact Es.
        -- replace (i + S k)%nat with (S i + k)%nat by lia.
           apply Hbefore. lia.
      * intros Hlt. destruct Hstop as [k [Hk Hs]]; [lia|].
        exists (S k). split; [lia|].
        replace (i + S k)%nat with (S i + k)%nat by lia.
        exact Hs.
Qed.

Lemma executeSwap_wait_nonempty (ledger : Ledger) (sig : string) (i remaining : nat) :
  (1 <= List.length (executeSwap_wait ledger sig i (S remaining)))%nat.
Proof.
  assert (E : executeSwap_wait ledger sig i (S remaining)
              = CallGetSignatureStatuses sig ::
                match GetSignatureStatuses ledger i with
                | StatusConfirmed | StatusFinalized => []
                | _ => executeSwap_wait ledger sig (S i) remaining
                end) by reflexivity.
  rewrite E. cbn [List.length]. lia.
Qed.

(** X18.  When the send step of [executeSwap] yields a signature, it sent the
    transaction once with preflight, or twice, the second time without
    preflight and only after an error whose message names a signature
    verification failure.  The status of the signature is then requested
    at least once and at most 30 times, the loop stops at the first reply
    that reports the transaction confirmed or finalized, and the signature
    is returned whether such a reply came or not. *)
Theorem executeSwap_submit_trace :
  forall (ledger : Ledger) (sends : list LedgerCall) (sig : string),
    executeSwap_send ledger = (sends, Some sig) ->
    exists polls : nat,
      executeSwap_submit ledger
      = (sends ++ repeat (CallGetSignatureStatuses sig) polls, Some sig)
      /\ (sends = [CallSendTransaction false]
          /\ SendTransactionWithOpts ledger false = Sent sig
          \/ sends = [CallSendTransaction false; CallSendTransaction true]
             /\ (exists message,
                    SendTransactionWithOpts ledger false = SendError message
                    /\ Contains message "Transaction signature verification failure"
                       = true)
             /\ SendTransactionWithOpts ledger true = Sent sig)
      /\ (1 <= polls <= 30)%nat
      /\ (forall k, (k + 1 < polls)%nat ->
                    settled (GetSignatureStatuses ledger k) = false)
      /\ ((polls < 30)%nat ->
          settled (GetSignatureStatuses ledger (polls - 1)) = true).
Proof.
  intros ledger sends sig Hsend. unfold executeSwap_submit. rewrite Hsend.
  pose proof (executeSwap_wait_spec ledger sig 30 0) as H. cbv zeta in H.
  destruct H as [Hrep [Hle [Hbefore Hstop]]].
  exists (List.length (executeSwap_wait ledger sig 0 30)).
  split; [rewrite <- Hrep; reflexivity|].
  split.
  { unfold executeSwap_send in Hsend.
    destruct (SendTransactionWithOpts ledger false) as [s|message] eqn:E1.
    - injection Hsend as <- <-. left. split; reflexivity.
    - destruct (Contains message "Transaction signature verification failure")
        eqn:Ec; [|discriminate Hsend].
      destruct (SendTransactionWithOpts ledger true) as [s|message'] eqn:E2;
        [|discriminate Hsend].
      injection Hsend as <- <-. right. split; [reflexivity|].
      split; [exists message; split; [reflexivity|exact Ec]|reflexivity]. }
  split.
  { split; [apply executeSwap_wait_nonempty|exact Hle]. }
  split; [exact Hbefore|].
  intros Hlt. destruct (Hstop Hlt) as [k [Hk Hs]]. rewrite Hk.
  replace (k + 1 - 1)%nat with k by lia. exact Hs.
Qed.

Lemma executeSwap_submit_trace_witness :
  exists polls : nat,
    executeSwap_submit demoLedger
    = ([CallSendTransaction false; CallSendTransaction true]
       ++ repeat (CallGetSignatureStatuses "sig") polls, Some "sig"%string)
    /\ (1 <= polls <= 30)%nat.
Proof.
  destruct (executeSwap_submit_trace demoLedger
              [CallSendTransaction false; CallSendTransaction true] "sig"
              eq_refl) as [polls [E [_ [Hp _]]]].
  exists polls. split; [exact E|exact Hp].
Defined.

(* --------------------------------------------------------------------- *)
(** *** The swap through the pool description of the API *)
(* --------------------------------------------------------------------- *)


(* --------------------------------------------------------------------- *)
(** *** The quote *)
(* --------------------------------------------------------------------- *)

Lemma outcome_bind {A B : Type} (m : Rpc A) (f : A -> Rpc B) :
  outcome (bind m f)
  = match outcome m with
    | Ok a => outcome (f a)
    | Err e => Err e
    end.
Proof.
  unfold outcome, bind. destruct m as [log [a|e]]; [|reflexivity].
  cbn [snd]. destruct (f a) as [log' r]. reflexivity.
Qed.

Lemma fromBase58_ok (L : Library) (s : string) (e : error) (k : PublicKey) :
  outcome (lift (fromBase58 L s e)) = Ok k -> PublicKeyFromBase58 L s = Some k.
Proof.
  unfold fromBase58, lift, outcome. cbn [snd].
  destruct (PublicKeyFromBase58 L s); [|discriminate].
  intros H. injection H as <-. reflexivity.
Qed.

Lemma rpcGetAccountInfo_ok (C : Client) (k : PublicKey) (e : error) (data : list byte) :
  outcome (rpcGetAccountInfo C k e) = Ok data -> GetAccountInfo C k = Some data.
Proof.
  unfold rpcGetAccountInfo, outcome. cbn [snd].
  destruct (GetAccountInfo C k); [|discriminate].
  intros H. injection H as <-. reflexivity.
Qed.

Lemma orReturn_fetchVaultBalances (C : Client) (pool pool' : OnChainPool) :
  outcome (orReturn (fetchVaultBalances C pool)) = Ok pool' ->
  exists b q,
    GetTokenAccountBalance C (BaseVault pool') = Some b
    /\ GetTokenAccountBalance C (QuoteVault pool') = Some q
    /\ ParseUint b = (BaseAmount pool', false)
    /\ ParseUint q = (QuoteAmount pool', false).
Proof.
  pose proof (fetchVaultBalances_same C pool) as Hsame.
  unfold sameButAmounts in Hsame.
  destruct (fetchVaultBalances C pool) as [[log p] [e|]] eqn:E;
    [discriminate|].
  cbn [orReturn outcome snd fst] in *. intros H. injection H as <-.
  destruct (fetchVaultBalances_amounts C pool p log E) as [b [q [Hb [Hq [Pb Pq]]]]].
  assert (Hv : BaseVault p = BaseVault pool /\ QuoteVault p = QuoteVault pool)
    by (rewrite Hsame; split; reflexivity).
  destruct Hv as [-> ->].
  exists b, q. split; [exact Hb|]. split; [exact Hq|]. split; [exact Pb|exact Pq].
Qed.

(** One step that [calculateQuoteOnChain] and [executeSwap] have in common. *)
Ltac shared_step H1 H2 :=
  rewrite outcome_bind in H1; rewrite outcome_bind in H2;
  match type of H1 with
  | match ?o with _ => _ end = _ =>
      let E := fresh "E" in
      destruct o eqn:E; [|discriminate H1]
  end;
  cbv beta iota zeta in H1, H2.

(** X20.  When a quote and the assembly of the swap both succeed for the
    same pool address, side and amount against the same ledger state, they
    have worked on the same pool account and vault balances, and the swap
    instruction carries exactly the raw input amount the quote was computed
    for, 9 decimals on a buy.  The swap spends from the wallet's associated
    account for the mint whose reserve the quote took as the input reserve,
    and the quote is the constant-product output for that amount, less the
    fee. *)
Theorem quote_and_swap_agree :
  forall (L : Library) (C : Client) (wallet : PublicKey) (poolAddress side : string)
         (amount : float) (minAmountOut : Z) (quote : float)
         (instructions : list Instruction),
    outcome (calculateQuoteOnChain L C poolAddress amount side) = Ok quote ->
    outcome (executeSwap L C wallet poolAddress side amount minAmountOut)
    = Ok instructions ->
    exists (pool : OnChainPool) (data : list byte) (baseAmount quoteAmount : string)
           (sourceMint destinationMint : PublicKey)
           (inputDecimals outputDecimals amountOut : Z) (sourceATA : PublicKey)
           (accounts : list AccountMeta),
      let amountIn := toRawAmount L amount inputDecimals in
      PublicKeyFromBase58 L poolAddress = Some (Address pool)
      /\ GetAccountInfo C (Address pool) = Some data
      /\ field_at data 400 (BaseMint pool)
      /\ field_at data 432 (QuoteMint pool)
      /\ GetTokenAccountBalance C (BaseVault pool) = Some baseAmount
      /\ GetTokenAccountBalance C (QuoteVault pool) = Some quoteAmount
      /\ ParseUint baseAmount = (BaseAmount pool, false)
      /\ ParseUint quoteAmount = (QuoteAmount pool, false)
      /\ (sourceMint = BaseMint pool /\ destinationMint = QuoteMint pool
          /\ calculateSwapAmount (QuoteAmount pool) (BaseAmount pool) amountIn
             = Some amountOut
          \/ sourceMint = QuoteMint pool /\ destinationMint = BaseMint pool
             /\ calculateSwapAmount (BaseAmount pool) (QuoteAmount pool) amountIn
                = Some amountOut)
      /\ (side = "buy"%string -> inputDecimals = SOL_DECIMALS)
      /\ quote = quoteAfterFee L amountOut outputDecimals
      /\ FindAssociatedTokenAddress L wallet sourceMint = Some sourceATA
      /\ nth_error accounts 15 = Some (meta sourceATA false true)
      /\ In (GenericInstruction (RAYDIUM_AMM_V4 L) accounts
               (swapInstructionData amountIn minAmountOut)) instructions.
Proof.
  intros L C wallet poolAddress side amount minAmountOut quote instructions HQ HS.
  unfold calculateQuoteOnChain in HQ. unfold executeSwap in HS.
  shared_step HQ HS. shared_step HQ HS. shared_step HQ HS.
  shared_step HQ HS. shared_step HQ HS. shared_step HQ HS.
  match goal with
  | E : outcome (lift (fromBase58 _ _ _)) = Ok ?k |- _ =>
      apply fromBase58_ok in E; rename E into Hkey; rename k into poolPubkey
  end.
  match goal with
  | E : outcome (rpcGetAccountInfo _ _ _) = Ok ?d |- _ =>
      apply rpcGetAccountInfo_ok in E; rename E into Hdata; rename d into data
  end.
  match goal with
  | E : outcome (lift (parsePoolAccount _ _ _)) = Ok ?p |- _ =>
      unfold outcome, lift in E; cbn [snd] in E;
      apply parsePoolAccount_ok in E; destruct E as [Hlen [Haddr [Hbase Hquote]]];
      rename p into pool0
  end.
  match goal with
  | E : outcome (orReturn (fetchVaultBalances C ?p)) = Ok ?p' |- _ =>
      pose proof (fetchVaultBalances_same C p) as Hsame;
      unfold sameButAmounts in Hsame;
      destruct (orReturn_fetchVaultBalances C _ p' E) as [b [q [Hb [Hq [Pb Pq]]]]];
      assert (Hp' : snd (fst (fetchVaultBalances C p)) = p')
        by (unfold orReturn, outcome in E;
            destruct (fetchVaultBalances C p) as [[log' p''] [e'|]];
            cbn [snd fst] in *; [discriminate E|injection E as E; exact E]);
      rewrite Hp' in Hsame; clear Hp' E;
      rename p' into pool1
  end.
  assert (Ha1 : Address pool1 = poolPubkey) by (rewrite Hsame; exact Haddr).
  assert (Hb1 : BaseMint pool1 = PublicKeyFromBytes (slice data 400 432))
    by (rewrite Hsame; exact Hbase).
  assert (Hq1 : QuoteMint pool1 = PublicKeyFromBytes (slice data 432 464))
    by (rewrite Hsame; exact Hquote).
  clear Hsame.
  apply bind_ok in HS. destruct HS as [pool [Hm HS]].
  apply orFallback_same in Hm. unfold sameButMarketAccounts in Hm.
  assert (Hbm : BaseMint pool = BaseMint pool1) by (rewrite Hm; reflexivity).
  assert (Hqm : QuoteMint pool = QuoteMint pool1) by (rewrite Hm; reflexivity).
  assert (Hbd : BaseDecimals pool = BaseDecimals pool1) by (rewrite Hm; reflexivity).
  assert (Hqd : QuoteDecimals pool = QuoteDecimals pool1) by (rewrite Hm; reflexivity).
  rewrite Hbm, Hqm, Hbd, Hqd in HS. clear Hm Hbm Hqm Hbd Hqd.
  exists pool1, data, b, q.
  destruct (String.eqb_spec side "buy") as [Eside|Eside];
    destruct (isSol L (BaseMint pool1));
    cbv beta iota zeta in HQ, HS;
    (rewrite outcome_bind in HQ;
     match type of HQ with
     | match outcome (lift match ?c with _ => _ end) with _ => _ end = _ =>
         destruct c as [amountOut|] eqn:Ec; [|discriminate HQ]
     end;
     apply Ok_eq in HQ;
     apply bind_ok in HS; destruct HS as [[sourceATA createSourceIx] [Hs HS]];
     cbv beta iota zeta in HS;
     apply bind_ok in HS; destruct HS as [[destinationATA createDestIx] [Hd HS]];
     cbv beta iota zeta in HS;
     apply bind_ok in HS; destruct HS as [swapIx [Hsw HS]];
     apply Ok_eq in HS;
     apply getOrCreateATA_address in Hs;
     unfold outcome, lift in Hsw; cbn [snd] in Hsw;
     apply createSwapInstruction_ok in Hsw;
     destruct Hsw as [accounts [-> [_ [H15 _]]]];
     eexists _, _, _, _, amountOut, sourceATA, accounts;
     cbv zeta;
     split; [rewrite Ha1; exact Hkey|];
     split; [rewrite Ha1; exact Hdata|];
     split; [rewrite Hb1; apply (PublicKeyFromBytes_slice data 400); lia|];
     split; [rewrite Hq1; apply (PublicKeyFromBytes_slice data 432); lia|];
     split; [exact Hb|]; split; [exact Hq|]; split; [exact Pb|]; split; [exact Pq|];
     split; [first [left; split; [reflexivity|]; split; [reflexivity|]; exact Ec
                   |right; split; [reflexivity|]; split; [reflexivity|]; exact Ec]|];
     split; [first [intros _; reflexivity | intros Hc; contradiction]|];
     split; [symmetry; exact HQ|]; split; [exact Hs|]; split; [exact H15|];
     rewrite <- HS;
     repeat match goal with
            | |- context [if ?c then _ else _] => destruct c
            end;
     rewrite ?(appendIfPresent_app (_ ++ _));
     repeat (apply in_or_app; first [right; left; reflexivity | left]);
     try (left; reflexivity)).
Qed.

Example demo_quote_sell :
  is_ok (outcome (calculateQuoteOnChain goLibrary demoClient demoPoolAddress
                    1000 "sell")) = true.
Proof. vm_compute. reflexivity. Qed.

Lemma quote_and_swap_agree_witness :
  exists quote instructions accounts amountIn,
    outcome (calculateQuoteOnChain goLibrary demoClient demoPoolAddress 1000 "sell")
    = Ok quote
    /\ outcome (executeSwap goLibrary demoClient demoWallet demoPoolAddress
                  "sell" 1000 7) = Ok instructions
    /\ In (GenericInstruction (RAYDIUM_AMM_V4 goLibrary) accounts
             (swapInstructionData amountIn 7)) instructions.
Proof.
  pose proof demo_quote_sell as Q. pose proof demo_sell_run as R.
  destruct (outcome (calculateQuoteOnChain goLibrary demoClient demoPoolAddress
                       1000 "sell")) as [quote|e] eqn:EQ; [|discriminate Q].
  destruct (outcome (executeSwap goLibrary demoClient demoWallet demoPoolAddress
                       "sell" 1000 7)) as [instructions|e] eqn:ES;
    [|discriminate R].
  destruct (quote_and_swap_agree _ _ _ _ _ _ _ _ _ EQ ES)
    as [pool [data [b [q [sm [dm [idec [odec [out [sa [accs H]]]]]]]]]]].
  cbv zeta in H.
  exists quote, instructions, accs, (toRawAmount goLibrary 1000 idec).
  split; [reflexivity|]. split; [reflexivity|].
  exact (proj2 (proj2 (proj2 (proj2 (proj2 (proj2 (proj2 (proj2 (proj2 (proj2
           (proj2 (proj2 (proj2 H))))))))))))).
Defined.

Lemma fromBase58_error (L : Library) (s : string) (e e' : error) :
  outcome (lift (fromBase58 L s e)) = Err e' -> e' = e.
Proof.
  unfold fromBase58, lift, outcome. cbn [snd].
  destruct (PublicKeyFromBase58 L s); [discriminate|].
  intros H. injection H as <-. reflexivity.
Qed.

Lemma rpcGetAccountInfo_error (C : Client) (k : PublicKey) (e e' : error) :
  outcome (rpcGetAccountInfo C k e) = Err e' -> e' = e.
Proof.
  unfold rpcGetAccountInfo, outcome. cbn [snd].
  destruct (GetAccountInfo C k); [discriminate|].
  intros H. injection H as <-. reflexivity.
Qed.

Lemma parsePoolAccount_error (L : Library) (address : PublicKey) (data : list byte)
  (e : error) :
  outcome (lift (parsePoolAccount L address data)) = Err e ->
  e = InvalidPoolDataSize (List.length data) \/ e = DeriveAuthorityFailed.
Proof.
  unfold parsePoolAccount, lift, outcome. cbn [snd].
  destruct (List.length data <? 752)%nat.
  { intros H. injection H as <-. left. reflexivity. }
  destruct (FindProgramAddress L [AUTHORITY_AMM_SEED] (RAYDIUM_AMM_V4 L))
    as [[authority nonce]|]; [discriminate|].
  intros H. injection H as <-. right. reflexivity.
Qed.

Lemma getTokenDecimals_error (L : Library) (C : Client) (mintAddress : string)
  (e : error) :
  outcome (getTokenDecimals L C mintAddress) = Err e ->
  e = InvalidMintAddress \/ e = GetAccountFailed \/ e = InvalidMintDataSize.
Proof.
  unfold getTokenDecimals.
  destruct (String.eqb mintAddress (PublicKeyString L (WSOL_MINT L))
            || String.eqb mintAddress (PublicKeyString L (SOL_MINT L)));
    [discriminate|].
  unfold lift, bind, rpcGetAccountInfo, outcome.
  destruct (PublicKeyFromBase58 L mintAddress) as [k|].
  2:{ cbn [snd]. intros H. injection H as <-. left. reflexivity. }
  destruct (GetAccountInfo C k) as [data|].
  2:{ cbn [snd]. intros H. injection H as <-. right. left. reflexivity. }
  destruct (List.length data <? 82)%nat; cbn [snd fail ret]; [|discriminate].
  intros H. injection H as <-. right. right. reflexivity.
Qed.

Lemma fetchVaultBalances_error (C : Client) (pool : OnChainPool) (e : error) :
  outcome (orReturn (fetchVaultBalances C pool)) = Err e ->
  e = GetVaultBalanceFailed \/ e = ParseAmountFailed.
Proof.
  unfold fetchVaultBalances, orReturn, outcome.
  destruct (GetTokenAccountBalance C (BaseVault pool)) as [b|].
  2:{ cbn [snd]. intros H. injection H as <-. left. reflexivity. }
  destruct (GetTokenAccountBalance C (QuoteVault pool)) as [q|].
  2:{ cbn [snd]. intros H. injection H as <-. left. reflexivity. }
  destruct (ParseUint b) as [bv berr]. destruct berr.
  { cbn [snd]. intros H. injection H as <-. right. reflexivity. }
  destruct (ParseUint q) as [qv qerr]. destruct qerr; cbn [snd]; [|discriminate].
  intros H. injection H as <-. right. reflexivity.
Qed.

(** One step of [calculateQuoteOnChain] that cannot end in a panic. *)
Ltac quote_step H lemma :=
  rewrite outcome_bind in H;
  match type of H with
  | match ?o with _ => _ end = _ =>
      let E := fresh "E" in
      destruct o eqn:E;
      [|exfalso; injection H as H; subst; apply lemma in E;
        repeat (destruct E as [E|E]; try discriminate E); discriminate E]
  end;
  cbv beta iota zeta in H.


(** A buy of 2^-40 SOL, less than one lamport, from the demo pool with both
    vaults empty. *)
Example demo_quote_panic :
  outcome (calculateQuoteOnChain goLibrary demoEmptyClient demoPoolAddress
             0x1p-40 "buy") = Err Panic.
Proof. vm_compute. reflexivity. Qed.


(* --------------------------------------------------------------------- *)
(** *** The minimum output *)
(* --------------------------------------------------------------------- *)

(** One step of a quote that succeeded. *)
Ltac quote_ok_step H :=
  rewrite outcome_bind in H;
  match type of H with
  | match ?o with _ => _ end = _ =>
      let E := fresh "E" in
      destruct o eqn:E; [|discriminate H]
  end;
  cbv beta iota zeta in H.

Lemma ignoringError_ok (m : Rpc byte) (d : byte) :
  outcome m = Ok d -> outcome (ignoringError m) = Ok d.
Proof. unfold ignoringError, outcome. cbn [snd]. intros ->. reflexivity. Qed.



(* --------------------------------------------------------------------- *)
(** *** The slippage prompt: white space *)
(* --------------------------------------------------------------------- *)

Lemma trimLeft_startsClean (s s1 : string) :
  trimLeft s = Some s1 -> startsClean s1 = true.
Proof.
  induction s as [|c rest IH]; cbn [trimLeft].
  - intros H. injection H as <-. reflexivity.
  - destruct (isASCII c) eqn:Ea; cbn [negb]; [|discriminate].
    destruct (asciiSpace c) eqn:Es; [exact IH|].
    intros H. injection H as <-. cbn [startsClean]. rewrite Ea, Es. reflexivity.
Qed.

Lemma trimLeft_fixed (s : string) :
  startsClean s = true -> trimLeft s = Some s.
Proof.
  destruct s as [|c rest]; [reflexivity|]. cbn [startsClean trimLeft].
  intros H. apply andb_true_iff in H. destruct H as [Ha Hs].
  rewrite Ha. apply negb_true_iff in Hs. rewrite Hs. reflexivity.
Qed.

Lemma trimLeft_suffix (s s1 : string) :
  trimLeft s = Some s1 ->
  exists pre, list_ascii_of_string s = pre ++ list_ascii_of_string s1.
Proof.
  induction s as [|c rest IH]; cbn [trimLeft].
  - intros H. injection H as <-. exists []. reflexivity.
  - destruct (isASCII c); cbn [negb]; [|discriminate].
    destruct (asciiSpace c).
    + intros H. destruct (IH H) as [pre Hpre]. exists (c :: pre).
      cbn [list_ascii_of_string app]. rewrite Hpre. reflexivity.
    + intros H. injection H as <-. exists []. reflexivity.
Qed.

Lemma rev_string_chars (s : string) :
  list_ascii_of_string (rev_string s) = List.rev (list_ascii_of_string s).
Proof. unfold rev_string. apply list_ascii_of_string_of_list_ascii. Qed.

Lemma rev_string_involutive (s : string) : rev_string (rev_string s) = s.
Proof.
  unfold rev_string at 1. rewrite rev_string_chars, rev_involutive.
  apply string_of_list_ascii_of_string.
Qed.

Lemma startsClean_prefix (s t : string) (rest : list ascii) :
  startsClean s = true ->
  list_ascii_of_string s = list_ascii_of_string t ++ rest ->
  startsClean t = true.
Proof.
  destruct t as [|c t']; [reflexivity|].
  destruct s as [|c' s']; cbn [list_ascii_of_string app]; [discriminate|].
  intros Hs H. injection H as -> _. exact Hs.
Qed.

(** When [strings.TrimSpace] stays on its ASCII path, trimming its result
    again changes nothing. *)
Lemma TrimSpace_again (L : Library) (s s1 r : string) :
  trimLeft s = Some s1 -> trimLeft (rev_string s1) = Some r ->
  TrimSpace L s = rev_string r /\ TrimSpace L (rev_string r) = rev_string r.
Proof.
  intros H1 H2. unfold TrimSpace at 1. rewrite H1, H2. split; [reflexivity|].
  pose proof (trimLeft_startsClean _ _ H1) as C1.
  pose proof (trimLeft_startsClean _ _ H2) as C2.
  destruct (trimLeft_suffix _ _ H2) as [pre Hpre].
  rewrite rev_string_chars in Hpre.
  assert (Ht : startsClean (rev_string r) = true).
  { apply (startsClean_prefix s1 (rev_string r) (List.rev pre) C1).
    rewrite rev_string_chars, <- rev_app_distr, <- Hpre, rev_involutive.
    reflexivity. }
  unfold TrimSpace. rewrite (trimLeft_fixed _ Ht), rev_string_involutive.
  rewrite (trimLeft_fixed _ C2). reflexivity.
Qed.

Lemma trimLeft_allASCII (s : string) :
  allASCII s = true -> exists s1, trimLeft s = Some s1 /\ allASCII s1 = true.
Proof.
  unfold allASCII. induction s as [|c rest IH]; cbn [trimLeft list_ascii_of_string forallb].
  - intros _. exists EmptyString. split; reflexivity.
  - intros H. apply andb_true_iff in H. destruct H as [Hc Hr].
    rewrite Hc. cbn [negb]. destruct (asciiSpace c).
    + apply IH. exact Hr.
    + exists (String c rest). split; [reflexivity|].
      cbn [list_ascii_of_string forallb]. rewrite Hc, Hr. reflexivity.
Qed.

Lemma allASCII_rev (s : string) : allASCII s = true -> allASCII (rev_string s) = true.
Proof.
  unfold allASCII. rewrite rev_string_chars, !forallb_forall.
  intros H c Hc. apply H, in_rev, Hc.
Qed.

Lemma TrimSpace_idempotent (L : Library) (s : string) :
  allASCII s = true -> TrimSpace L (TrimSpace L s) = TrimSpace L s.
Proof.
  intros Ha.
  destruct (trimLeft_allASCII s Ha) as [s1 [H1 A1]].
  destruct (trimLeft_allASCII _ (allASCII_rev s1 A1)) as [r [H2 _]].
  destruct (TrimSpace_again L s s1 r H1 H2) as [E1 E2].
  rewrite E1. exact E2.
Qed.

Lemma asciiSpace_isASCII (c : ascii) : asciiSpace c = true -> isASCII c = true.
Proof.
  unfold asciiSpace, isASCII. intros H.
  repeat (apply orb_true_iff in H; destruct H as [H|H]);
    apply Nat.eqb_eq in H; rewrite H; reflexivity.
Qed.

Lemma trimLeft_allSpace (s : string) :
  allSpace s = true -> trimLeft s = Some EmptyString.
Proof.
  unfold allSpace. induction s as [|c rest IH];
    cbn [trimLeft list_ascii_of_string forallb]; [reflexivity|].
  intros H. apply andb_true_iff in H. destruct H as [Hc Hr].
  rewrite (asciiSpace_isASCII c Hc), Hc. cbn [negb]. apply IH. exact Hr.
Qed.

Lemma chars_append (s w : string) :
  list_ascii_of_string (String.append s w)
  = list_ascii_of_string s ++ list_ascii_of_string w.
Proof.
  induction s as [|c rest IH]; cbn [String.append list_ascii_of_string app];
    [reflexivity|]. rewrite IH. reflexivity.
Qed.

Lemma allSpace_append (s w : string) :
  allSpace s = true -> allSpace w = true -> allSpace (String.append s w) = true.
Proof.
  unfold allSpace. rewrite chars_append, forallb_app. intros -> ->. reflexivity.
Qed.

Lemma allSpace_rev (s : string) : allSpace s = true -> allSpace (rev_string s) = true.
Proof.
  unfold allSpace. rewrite rev_string_chars, !forallb_forall.
  intros H c Hc. apply H, in_rev, Hc.
Qed.

Lemma trimLeft_empty_allSpace (s : string) :
  trimLeft s = Some EmptyString -> allSpace s = true.
Proof.
  unfold allSpace. induction s as [|c rest IH];
    cbn [trimLeft list_ascii_of_string forallb]; [reflexivity|].
  destruct (isASCII c); cbn [negb]; [|discriminate].
  destruct (asciiSpace c); [exact IH|discriminate].
Qed.

Lemma trimLeft_skip (p x : string) :
  allSpace p = true -> trimLeft (String.append p x) = trimLeft x.
Proof.
  unfold allSpace. induction p as [|c rest IH];
    cbn [String.append trimLeft list_ascii_of_string forallb]; [reflexivity|].
  intros H. apply andb_true_iff in H. destruct H as [Hc Hr].
  rewrite (asciiSpace_isASCII c Hc), Hc. cbn [negb]. apply IH. exact Hr.
Qed.

Lemma trimLeft_append (s w : string) (c : ascii) (s1 : string) :
  trimLeft s = Some (String c s1) ->
  trimLeft (String.append s w) = Some (String.append (String c s1) w).
Proof.
  induction s as [|a rest IH]; cbn [String.append trimLeft]; [discriminate|].
  destruct (isASCII a); cbn [negb]; [|discriminate].
  destruct (asciiSpace a); [exact IH|].
  intros H. injection H as -> ->. reflexivity.
Qed.

Lemma rev_string_append (s w : string) :
  rev_string (String.append s w) = String.append (rev_string w) (rev_string s).
Proof.
  rewrite <- (string_of_list_ascii_of_string (String.append (rev_string w) (rev_string s))).
  rewrite chars_append, !rev_string_chars, <- rev_app_distr, <- chars_append.
  reflexivity.
Qed.

(** White space appended to an ASCII string is trimmed away again. *)
Lemma TrimSpace_append_space (L : Library) (s w : string) :
  allASCII s = true -> allSpace w = true ->
  TrimSpace L (String.append s w) = TrimSpace L s.
Proof.
  intros Ha Hw.
  destruct (trimLeft_allASCII s Ha) as [s1 [H1 A1]].
  destruct s1 as [|c s1].
  - pose proof (trimLeft_empty_allSpace s H1) as Hs.
    unfold TrimSpace.
    rewrite (trimLeft_allSpace _ (allSpace_append s w Hs Hw)), H1. reflexivity.
  - unfold TrimSpace. rewrite (trimLeft_append s w c s1 H1), H1.
    rewrite rev_string_append, (trimLeft_skip _ _ (allSpace_rev w Hw)).
    destruct (trimLeft (rev_string (String c s1))) as [r|] eqn:E2; [reflexivity|].
    destruct (trimLeft_allASCII _ (allASCII_rev _ A1)) as [r [H2 _]].
    rewrite H2 in E2. discriminate E2.
Qed.



(** X23.  A line that consists of ASCII white space only gives the default
    slippage 0.5 in both versions of the prompt. *)
Theorem getSlippageFromUser_blank_line :
  forall (L : Library) (text : string),
    allSpace text = true ->
    getSlippageFromUser L (Some text) = Ok 0.5%float
    /\ getSlippageFromUser_working L text = Ok 0.5%float.
Proof.
  intros L text Hs.
  assert (Ht : TrimSpace L text = EmptyString).
  { unfold TrimSpace. rewrite (trimLeft_allSpace text Hs). reflexivity. }
  unfold getSlippageFromUser, getSlippageFromUser_working.
  rewrite Ht. split; reflexivity.
Qed.

Lemma getSlippageFromUser_blank_line_witness :
  getSlippageFromUser goLibrary
    (Some (String (ascii_of_nat 9) (String (ascii_of_nat 32) EmptyString)))
  = Ok 0.5%float.
Proof.
  apply (getSlippageFromUser_blank_line goLibrary
           (String (ascii_of_nat 9) (String (ascii_of_nat 32) EmptyString))).
  reflexivity.
Defined.
